(** * Classy chess: the game session controller and the AI move advisor

    A shallow embedding of the React component [App] (the controller:
    [resetGame], [handleCapture], [makeMove], [onSquareClick],
    [triggerAiMove], [undoMove]) and of the service function [getBestMove],
    together with the properties their specification states.

    The controller delegates every chess rule to the library chess.js and
    the advisor delegates response parsing to [JSON.parse].  Neither is part
    of the repository.  The rules engine is therefore an interface
    ([RulesEngine]) whose laws are the facts about chess.js the controller
    relies on; module [Ref] implements that interface with an executable
    chess engine, so that every statement can be run on concrete positions.
    [JSON.parse] and [String.prototype.trim] are modelled directly in module
    [Json]. *)

From Stdlib Require Import List String Ascii Bool Arith ZArith QArith Qround Lia.
From Stdlib Require Import DecimalString DecimalNat.
Import ListNotations.

Set Warnings "-register-all".
Close Scope Q_scope.
Local Open Scope string_scope.
Local Open Scope nat_scope.
Local Open Scope list_scope.

(** ** Data model ([types.ts]) *)

(** [PieceColor = 'w' | 'b'] *)
Inductive PieceColor := White | Black.

(** [PieceType = 'p' | 'n' | 'b' | 'r' | 'q' | 'k'] *)
Inductive PieceType := Pawn | Knight | Bishop | Rook | Queen | King.

Record Piece := mkPiece { ptype : PieceType; pcolor : PieceColor }.

(** [AIMoveResponse] *)
Record AIMoveResponse := mkAIMoveResponse { move : string; explanation : string }.

Definition color_eqb (a b : PieceColor) : bool :=
  match a, b with
  | White, White | Black, Black => true
  | _, _ => false
  end.

Definition type_eqb (a b : PieceType) : bool :=
  match a, b with
  | Pawn, Pawn | Knight, Knight | Bishop, Bishop
  | Rook, Rook | Queen, Queen | King, King => true
  | _, _ => false
  end.

Definition swap_color (c : PieceColor) : PieceColor :=
  match c with White => Black | Black => White end.

(** The outcome of an awaited promise. *)
Inductive Completion (A : Type) :=
| Rejected : Completion A
| Fulfilled : A -> Completion A.
Arguments Rejected {A}.
Arguments Fulfilled {A} _.

(** ** JSON.parse and String.prototype.trim

    Text is a [string] of bytes (the UTF-8 form of the JavaScript string). *)
Module Json.

Inductive value :=
| Null
| Bool (b : bool)
| Number (lexeme : string)
| Str (s : string)
| Array (items : list value)
| Object (fields : list (string * value)).

Definition dquote : ascii := "034"%char.
Definition backslash : ascii := "092"%char.

Definition code (c : ascii) : nat := nat_of_ascii c.

Definition between (lo hi : nat) (c : ascii) : bool :=
  (lo <=? code c) && (code c <=? hi).

Definition is_digit (c : ascii) : bool := between 48 57 c.
Definition is_lower (c : ascii) : bool := between 97 122 c.

(** JSON white space: tab, line feed, carriage return, space. *)
Definition is_json_ws (c : ascii) : bool :=
  (code c =? 9) || (code c =? 10) || (code c =? 13) || (code c =? 32).

Fixpoint string_of_list (l : list ascii) : string :=
  match l with
  | [] => EmptyString
  | c :: r => String c (string_of_list r)
  end.

Definition string_of_rev (l : list ascii) : string := string_of_list (rev l).

(** *** Tokens *)

Inductive token :=
| TLBrace | TRBrace | TLBracket | TRBracket | TColon | TComma
| TString (s : string)
| TNumber (lexeme : string)
| TWord (w : string).

(** What the scanner is in the middle of; accumulators are reversed. *)
Inductive lex_mode :=
| LDefault
| LString (acc : list ascii)
| LEscape (acc : list ascii)
| LUnicode (acc : list ascii) (hex : list nat)
| LNumber (acc : list ascii)
| LWord (acc : list ascii).

Definition hex_digit (c : ascii) : option nat :=
  if is_digit c then Some (code c - 48)
  else if between 97 102 c then Some (code c - 87)
  else if between 65 70 c then Some (code c - 55)
  else None.

(** Single-character escapes of a JSON string. *)
Definition unescape (c : ascii) : option ascii :=
  if Ascii.eqb c dquote then Some dquote
  else if Ascii.eqb c backslash then Some backslash
  else if Ascii.eqb c "/" then Some "/"%char
  else if Ascii.eqb c "b" then Some "008"%char
  else if Ascii.eqb c "f" then Some "012"%char
  else if Ascii.eqb c "n" then Some "010"%char
  else if Ascii.eqb c "r" then Some "013"%char
  else if Ascii.eqb c "t" then Some "009"%char
  else None.

(** UTF-8 bytes of one UTF-16 code unit (a surrogate half on its own is
    written as a three-byte unit). *)
Definition utf8_of_unit (n : nat) : list ascii :=
  if n <? 128 then [ascii_of_nat n]
  else if n <? 2048 then
    [ascii_of_nat (192 + n / 64); ascii_of_nat (128 + n mod 64)]
  else
    [ascii_of_nat (224 + n / 4096); ascii_of_nat (128 + (n / 64) mod 64);
     ascii_of_nat (128 + n mod 64)].

(** A [\u] escape adds one UTF-16 code unit to the string read so far
    ([acc], last byte first).  A low surrogate that follows a high one
    makes one code point with it, written in four bytes. *)
Definition push_unit (n : nat) (acc : list ascii) : list ascii :=
  let alone := rev (utf8_of_unit n) ++ acc in
  if n / 1024 =? 55 then
    match acc with
    | b3 :: b2 :: b1 :: before =>
        if (code b1 =? 237) && (160 <=? code b2) && (code b2 <=? 175)
           && (128 <=? code b3) && (code b3 <=? 191)
        then
          let high := N.of_nat ((code b2 - 160) * 64 + (code b3 - 128)) in
          let point := (65536 + high * 1024 + N.of_nat (n mod 1024))%N in
          ascii_of_N (128 + point mod 64)
          :: ascii_of_N (128 + (point / 64) mod 64)
          :: ascii_of_N (128 + (point / 4096) mod 64)
          :: ascii_of_N (240 + point / 262144) :: before
        else alone
    | _ => alone
    end
  else alone.

(** [hex] holds the digits read so far, last one first. *)
Definition unit_of_hex (hex : list nat) : nat :=
  fold_right (fun d acc => d + 16 * acc) 0 hex.

Definition is_number_char (c : ascii) : bool :=
  is_digit c || Ascii.eqb c "-" || Ascii.eqb c "+" || Ascii.eqb c "."
  || Ascii.eqb c "e" || Ascii.eqb c "E".

Definition punctuation (c : ascii) : option token :=
  if Ascii.eqb c "{" then Some TLBrace
  else if Ascii.eqb c "}" then Some TRBrace
  else if Ascii.eqb c "[" then Some TLBracket
  else if Ascii.eqb c "]" then Some TRBracket
  else if Ascii.eqb c ":" then Some TColon
  else if Ascii.eqb c "," then Some TComma
  else None.

Fixpoint lex (mode : lex_mode) (out : list token) (s : string)
  : option (list token) :=
  match s with
  | EmptyString =>
      match mode with
      | LDefault => Some (rev out)
      | LNumber acc => Some (rev (TNumber (string_of_rev acc) :: out))
      | LWord acc => Some (rev (TWord (string_of_rev acc) :: out))
      | LString _ | LEscape _ | LUnicode _ _ => None
      end
  | String c rest =>
      let start (out' : list token) :=
        if is_json_ws c then lex LDefault out' rest
        else match punctuation c with
             | Some t => lex LDefault (t :: out') rest
             | None =>
                 if Ascii.eqb c dquote then lex (LString []) out' rest
                 else if is_digit c || Ascii.eqb c "-" then lex (LNumber [c]) out' rest
                 else if is_lower c then lex (LWord [c]) out' rest
                 else None
             end in
      match mode with
      | LDefault => start out
      | LString acc =>
          if Ascii.eqb c dquote then lex LDefault (TString (string_of_rev acc) :: out) rest
          else if Ascii.eqb c backslash then lex (LEscape acc) out rest
          else if code c <? 32 then None
          else lex (LString (c :: acc)) out rest
      | LEscape acc =>
          match unescape c with
          | Some c' => lex (LString (c' :: acc)) out rest
          | None => if Ascii.eqb c "u" then lex (LUnicode acc []) out rest else None
          end
      | LUnicode acc hex =>
          match hex_digit c with
          | None => None
          | Some d =>
              if List.length hex =? 3
              then lex (LString (push_unit (unit_of_hex (d :: hex)) acc)) out rest
              else lex (LUnicode acc (d :: hex)) out rest
          end
      | LNumber acc =>
          if is_number_char c then lex (LNumber (c :: acc)) out rest
          else start (TNumber (string_of_rev acc) :: out)
      | LWord acc =>
          if is_lower c then lex (LWord (c :: acc)) out rest
          else start (TWord (string_of_rev acc) :: out)
      end
  end.

(** *** Numbers

    An optional minus sign; then a single zero, or a non-zero digit followed
    by digits; then optionally a dot and one or more digits; then optionally
    an exponent: e or E, an optional sign, one or more digits. *)

Inductive num_state :=
| NStart | NMinus | NZero | NInt | NDot | NFrac | NExp | NExpSign | NExpDigits.

Definition num_step (st : num_state) (c : ascii) : option num_state :=
  let digit := is_digit c in
  let zero := Ascii.eqb c "0" in
  let dot := Ascii.eqb c "." in
  let e := Ascii.eqb c "e" || Ascii.eqb c "E" in
  let sign := Ascii.eqb c "+" || Ascii.eqb c "-" in
  match st with
  | NStart => if Ascii.eqb c "-" then Some NMinus
              else if zero then Some NZero else if digit then Some NInt else None
  | NMinus => if zero then Some NZero else if digit then Some NInt else None
  | NZero => if dot then Some NDot else if e then Some NExp else None
  | NInt => if digit then Some NInt else if dot then Some NDot
            else if e then Some NExp else None
  | NDot => if digit then Some NFrac else None
  | NFrac => if digit then Some NFrac else if e then Some NExp else None
  | NExp => if sign then Some NExpSign else if digit then Some NExpDigits else None
  | NExpSign => if digit then Some NExpDigits else None
  | NExpDigits => if digit then Some NExpDigits else None
  end.

Fixpoint num_run (st : num_state) (s : string) : bool :=
  match s with
  | EmptyString =>
      match st with
      | NZero | NInt | NFrac | NExpDigits => true
      | _ => false
      end
  | String c rest =>
      match num_step st c with
      | Some st' => num_run st' rest
      | None => false
      end
  end.

Definition valid_number (s : string) : bool := num_run NStart s.

(** *** The grammar, as a pushdown automaton over the tokens *)

Inductive frame :=
| FArray (items : list value)
| FObject (fields : list (string * value)) (key : string).

Inductive pstate :=
| PValue (stk : list frame)
| PArrayOpen (stk : list frame)
| PObjectOpen (stk : list frame)
| PKey (fields : list (string * value)) (stk : list frame)
| PColon (fields : list (string * value)) (key : string) (stk : list frame)
| PAfter (v : value) (stk : list frame).

Definition scalar (t : token) : option value :=
  match t with
  | TString s => Some (Str s)
  | TNumber n => if valid_number n then Some (Number n) else None
  | TWord w =>
      if String.eqb w "true" then Some (Bool true)
      else if String.eqb w "false" then Some (Bool false)
      else if String.eqb w "null" then Some Null
      else None
  | _ => None
  end.

Definition begin_value (t : token) (stk : list frame) : option pstate :=
  match t with
  | TLBracket => Some (PArrayOpen stk)
  | TLBrace => Some (PObjectOpen stk)
  | _ => option_map (fun v => PAfter v stk) (scalar t)
  end.

Definition pstep (st : pstate) (t : token) : option pstate :=
  match st with
  | PValue stk => begin_value t stk
  | PArrayOpen stk =>
      match t with
      | TRBracket => Some (PAfter (Array []) stk)
      | _ => begin_value t (FArray [] :: stk)
      end
  | PObjectOpen stk =>
      match t with
      | TRBrace => Some (PAfter (Object []) stk)
      | TString k => Some (PColon [] k stk)
      | _ => None
      end
  | PKey fields stk =>
      match t with
      | TString k => Some (PColon fields k stk)
      | _ => None
      end
  | PColon fields k stk =>
      match t with
      | TColon => Some (PValue (FObject fields k :: stk))
      | _ => None
      end
  | PAfter v (FArray items :: stk) =>
      match t with
      | TComma => Some (PValue (FArray (v :: items) :: stk))
      | TRBracket => Some (PAfter (Array (rev (v :: items))) stk)
      | _ => None
      end
  | PAfter v (FObject fields k :: stk) =>
      match t with
      | TComma => Some (PKey ((k, v) :: fields) stk)
      | TRBrace => Some (PAfter (Object (rev ((k, v) :: fields))) stk)
      | _ => None
      end
  | PAfter _ [] => None
  end.

Fixpoint prun (st : pstate) (ts : list token) : option value :=
  match ts with
  | [] => match st with PAfter v [] => Some v | _ => None end
  | t :: r => match pstep st t with
              | Some st' => prun st' r
              | None => None
              end
  end.

(** [JSON.parse(text)]: [None] stands for the [SyntaxError] it throws. *)
Definition parse (text : string) : option value :=
  match lex LDefault [] text with
  | Some ts => prun (PValue []) ts
  | None => None
  end.

(** Property read on a parsed object: the last binding of a key wins. *)
Fixpoint lookup (k : string) (fields : list (string * value)) : option value :=
  match fields with
  | [] => None
  | (k', v) :: r =>
      match lookup k r with
      | Some v' => Some v'
      | None => if String.eqb k k' then Some v else None
      end
  end.

(** *** trim *)

Definition is_ws1 (c : ascii) : bool :=
  between 9 13 c || (code c =? 32).

(** U+00A0 *)
Definition is_ws2 (c1 c2 : ascii) : bool :=
  (code c1 =? 194) && (code c2 =? 160).

(** U+1680, U+2000..U+200A, U+2028, U+2029, U+202F, U+205F, U+3000, U+FEFF *)
Definition is_ws3 (c1 c2 c3 : ascii) : bool :=
  let a := code c1 in let b := code c2 in let c := code c3 in
  ((a =? 225) && (b =? 154) && (c =? 128))
  || ((a =? 226) && (b =? 128)
      && (between 128 138 c3 || (c =? 168) || (c =? 169) || (c =? 175)))
  || ((a =? 226) && (b =? 129) && (c =? 159))
  || ((a =? 227) && (b =? 128) && (c =? 128))
  || ((a =? 239) && (b =? 187) && (c =? 191)).

(** Strips leading white space; with [backwards] the bytes of the string
    are read last to first. *)
Fixpoint strip (backwards : bool) (s : string) : string :=
  match s with
  | EmptyString => EmptyString
  | String c1 r1 =>
      if is_ws1 c1 then strip backwards r1
      else match r1 with
           | EmptyString => s
           | String c2 r2 =>
               if (if backwards then is_ws2 c2 c1 else is_ws2 c1 c2)
               then strip backwards r2
               else match r2 with
                    | EmptyString => s
                    | String c3 r3 =>
                        if (if backwards then is_ws3 c3 c2 c1 else is_ws3 c1 c2 c3)
                        then strip backwards r3
                        else s
                    end
           end
  end.

Definition list_of_string (s : string) : list ascii := list_ascii_of_string s.

Definition reverse (s : string) : string := string_of_rev (list_of_string s).

Definition trim (s : string) : string :=
  reverse (strip true (reverse (strip false s))).

End Json.

(** ** The AI move advisor ([services/geminiService.ts]) *)

(** What awaiting [ai.models.generateContent] gives: the request fails, or a
    response arrives whose [text] may be absent. *)
Inductive ServiceReply :=
| ServiceFailure
| ServiceResponse (text : option string).

(** [history.slice(-10)] *)
Definition slice_last10 {A : Type} (l : list A) : list A :=
  skipn (List.length l - 10) l.

(** The object returned when parsing fails: an empty [move] and this
    [explanation]. *)
Definition apology : string := "I couldn't calculate a move right now.".

Definition sentinel : Json.value :=
  Json.Object [("move", Json.Str EmptyString); ("explanation", Json.Str apology)].

(** [getBestMove], from the point where the request has been issued.  The
    value it resolves to is whatever [JSON.parse] returned: the cast
    [as AIMoveResponse] checks nothing at run time. *)
Definition getBestMove (reply : ServiceReply) : Completion Json.value :=
  match reply with
  | ServiceFailure => Rejected
  | ServiceResponse None => Rejected (* [undefined.trim()], outside the [try] *)
  | ServiceResponse (Some text) =>
      let jsonStr := Json.trim text in
      match Json.parse jsonStr with
      | Some v => Fulfilled v
      | None => Fulfilled sentinel
      end
  end.

(** A value that has the shape of [AIMoveResponse]: an object whose [move]
    and [explanation] are both strings. *)
Definition as_AIMoveResponse (v : Json.value) : option AIMoveResponse :=
  match v with
  | Json.Object fields =>
      match Json.lookup "move" fields, Json.lookup "explanation" fields with
      | Some (Json.Str m), Some (Json.Str e) => Some (mkAIMoveResponse m e)
      | _, _ => None
      end
  | _ => None
  end.

(** The advisor's completion at the type [triggerAiMove] declares for it;
    [None] when the value is not of that type. *)
Definition typed (c : Completion Json.value) : option (Completion AIMoveResponse) :=
  match c with
  | Rejected => Some Rejected
  | Fulfilled v => option_map Fulfilled (as_AIMoveResponse v)
  end.

(** The history line of the prompt: [history.slice(-10).join(', ')]. *)
Definition lastMoves (history : list string) : string :=
  String.concat ", " (slice_last10 history).

(** A payload is malformed when it is not JSON, or is JSON of another shape
    than [AIMoveResponse]. *)
Definition malformed (text : string) : Prop :=
  match Json.parse (Json.trim text) with
  | None => True
  | Some v => as_AIMoveResponse v = None
  end.

Definition quoted (s : string) : string :=
  String Json.dquote (s ++ String Json.dquote EmptyString)%string.

(** The JSON text of an object with the single field [move], set to e4. *)
Definition payload_without_explanation : string :=
  ("{" ++ quoted "move" ++ ":" ++ quoted "e4" ++ "}")%string.

(** ** The rules engine (chess.js), as the controller uses it *)

(** The move object chess.js returns. *)
Record Move := mkMove {
  color : PieceColor;
  from : string;
  to : string;
  piece : PieceType;
  captured : option PieceType;
  promotion : option PieceType;
  san : string
}.

(** The argument of [makeMove]:
    [string | { from: string; to: string; promotion?: string }]. *)
Inductive MoveData :=
| MoveString (notation : string)
| MoveObject (from_sq to_sq : string) (promo : option string).

(** What [chess.move(...)] does: it returns the move made (and the engine
    object has changed), returns a falsy value, or throws. *)
Inductive MoveOutcome (G : Type) :=
| Moved (after : G) (m : Move)
| ReturnedNull
| Threw.
Arguments Moved {G} _ _.
Arguments ReturnedNull {G}.
Arguments Threw {G}.

(** The SAN chess.js gives the null move. *)
Definition SAN_NULLMOVE : string := "--".

(** The starting position. *)
Definition DEFAULT_POSITION : string :=
  "rnbqkbnr/pppppppp/8/8/8/8/PPPPPPPP/RNBQKBNR w KQkq - 0 1".

Class RulesEngine := {
  Chess : Type;
  (** [new Chess()] *)
  new_Chess : Chess;
  (** [new Chess(fen)]; [None] when the constructor throws *)
  load_Chess : string -> option Chess;
  fen : Chess -> string;
  turn : Chess -> PieceColor;
  get : Chess -> string -> option Piece;
  (** [moves({ verbose: true })]: the legal moves of the side to move *)
  legal_moves : Chess -> list Move;
  Chess_move : Chess -> MoveData -> MoveOutcome Chess;
  undo : Chess -> Chess;
  (** [history()]: the moves made on this object, in SAN *)
  history : Chess -> list string;
  isCheck : Chess -> bool;
  isCheckmate : Chess -> bool;
  isDraw : Chess -> bool;
  isGameOver : Chess -> bool;

  (** A new engine object holds the starting position and no move. *)
  new_fen : fen new_Chess = DEFAULT_POSITION;
  new_history : history new_Chess = [];
  (** An object built from another one's FEN holds the same position, and
      no move has been made on it. *)
  load_fen : forall g, exists c,
      load_Chess (fen g) = Some c /\ fen c = fen g /\ history c = []
      /\ turn c = turn g /\ (forall sq, get c sq = get g sq)
      /\ legal_moves c = legal_moves g;
  (** Without a move made on the object, [undo()] changes nothing. *)
  undo_nothing : forall g, history g = [] -> undo g = g;
  (** The position read from a FEN is in check when the original is. *)
  load_check : forall g c, load_Chess (fen g) = Some c -> isCheck c = isCheck g;
  (** A move that is made is a move of the side to move, and is recorded. *)
  move_recorded : forall g md g' m,
      Chess_move g md = Moved g' m ->
      color m = turn g /\ history g' = history g ++ [san m];
  (** A move that is made is a legal move, with one exception: a string
      that reads as the null move [--] passes the turn, unless the side to
      move is in check. *)
  move_legal : forall g md g' m,
      Chess_move g md = Moved g' m ->
      In m (legal_moves g)
      \/ (isCheck g = false /\ san m = SAN_NULLMOVE
          /\ exists notation, md = MoveString notation);
  (** The SAN of a legal move is accepted, as a legal move. *)
  move_san : forall g m, In m (legal_moves g) ->
      exists g' m', Chess_move g (MoveString (san m)) = Moved g' m'
                    /\ In m' (legal_moves g);
  (** Checkmate is check without a legal move. *)
  checkmate_no_moves : forall g, isCheckmate g = true -> legal_moves g = [];
  checkmate_check : forall g, isCheckmate g = true -> isCheck g = true
}.

Section Controller.

Context {E : RulesEngine}.

(** [moves()]: the legal moves in SAN *)
Definition moves (g : Chess) : list string := map san (legal_moves g).

(** [moves({ square, verbose: true })] *)
Definition moves_of_square (g : Chess) (square : string) : list Move :=
  filter (fun m => String.eqb (from m) square) (legal_moves g).

(** ** The controller ([App.tsx]) *)

(** The seven [useState] cells of [App]. *)
Record AppState := mkAppState {
  game : Chess;
  selectedSquare : option string;
  validMoves : list string;
  isAiThinking : bool;
  aiAnalysis : option string;
  capturedByWhite : list Piece;
  capturedByBlack : list Piece
}.

Definition initialState : AppState :=
  mkAppState new_Chess None [] false None [] [].

Definition setGame (g : Chess) (st : AppState) : AppState :=
  mkAppState g (selectedSquare st) (validMoves st) (isAiThinking st)
             (aiAnalysis st) (capturedByWhite st) (capturedByBlack st).

Definition setSelectedSquare (sq : option string) (st : AppState) : AppState :=
  mkAppState (game st) sq (validMoves st) (isAiThinking st)
             (aiAnalysis st) (capturedByWhite st) (capturedByBlack st).

Definition setValidMoves (l : list string) (st : AppState) : AppState :=
  mkAppState (game st) (selectedSquare st) l (isAiThinking st)
             (aiAnalysis st) (capturedByWhite st) (capturedByBlack st).

Definition setIsAiThinking (t : bool) (st : AppState) : AppState :=
  mkAppState (game st) (selectedSquare st) (validMoves st) t
             (aiAnalysis st) (capturedByWhite st) (capturedByBlack st).

Definition setAiAnalysis (a : option string) (st : AppState) : AppState :=
  mkAppState (game st) (selectedSquare st) (validMoves st) (isAiThinking st)
             a (capturedByWhite st) (capturedByBlack st).

(** The two ledgers are set through updater functions ([prev => ...]). *)
Definition setCapturedByWhite (f : list Piece -> list Piece) (st : AppState) : AppState :=
  mkAppState (game st) (selectedSquare st) (validMoves st) (isAiThinking st)
             (aiAnalysis st) (f (capturedByWhite st)) (capturedByBlack st).

Definition setCapturedByBlack (f : list Piece -> list Piece) (st : AppState) : AppState :=
  mkAppState (game st) (selectedSquare st) (validMoves st) (isAiThinking st)
             (aiAnalysis st) (capturedByWhite st) (f (capturedByBlack st)).

(** The Position of the specification: the FEN of the current game. *)
Definition position (st : AppState) : string := fen (game st).

Definition resetGame (st : AppState) : AppState :=
  let newGame := new_Chess in
  setCapturedByBlack (fun _ => [])
    (setCapturedByWhite (fun _ => [])
       (setAiAnalysis None
          (setValidMoves []
             (setSelectedSquare None
                (setGame newGame st))))).

Definition handleCapture (m : Move) (st : AppState) : AppState :=
  match captured m with
  | Some t =>
      let piece := mkPiece t (if color_eqb (color m) White then Black else White) in
      if color_eqb (color m) White
      then setCapturedByWhite (fun prev => prev ++ [piece]) st
      else setCapturedByBlack (fun prev => prev ++ [piece]) st
  | None => st
  end.

(** [makeMove] is a closure over the [game] of the render that created it;
    [game0] is that captured value, [st] the state its updates apply to. *)
Definition makeMoveFrom (game0 : Chess) (moveData : MoveData) (st : AppState)
  : AppState * bool :=
  match load_Chess (fen game0) with
  | None => (st, false)
  | Some gameCopy =>
      match Chess_move gameCopy moveData with
      | Moved gameCopy' m =>
          (setValidMoves []
             (setSelectedSquare None
                (handleCapture m
                   (setGame gameCopy' st))), true)
      | ReturnedNull => (st, false)
      | Threw => (st, false)
      end
  end.

Definition makeMove (moveData : MoveData) (st : AppState) : AppState * bool :=
  makeMoveFrom (game st) moveData st.

(** A string in a condition: [null] and the empty string are falsy. *)
Definition truthy (s : option string) : bool :=
  match s with
  | Some x => negb (String.eqb x EmptyString)
  | None => false
  end.

(** The last part of [onSquareClick]: select the piece on [square], if it
    belongs to the side to move. *)
Definition selectPiece (square : string) (st : AppState) : AppState :=
  match get (game st) square with
  | Some p =>
      if color_eqb (pcolor p) (turn (game st))
      then setValidMoves (map to (moves_of_square (game st) square))
             (setSelectedSquare (Some square) st)
      else setValidMoves [] (setSelectedSquare None st)
  | None => setValidMoves [] (setSelectedSquare None st)
  end.

Definition onSquareClick (square : string) (st : AppState) : AppState :=
  if isGameOver (game st) || isAiThinking st then st
  else
    match selectedSquare st with
    | Some sel =>
        if truthy (Some sel) then
          if String.eqb sel square
          then setValidMoves [] (setSelectedSquare None st)
          else
            let (st', moveSuccess) := makeMove (MoveObject sel square (Some "q")) st in
            if moveSuccess then st' else selectPiece square st
        else selectPiece square st
    | None => selectPiece square st
    end.

Definition undoMove (st : AppState) : AppState :=
  match load_Chess (fen (game st)) with
  | None => st (* the constructor throws before any update *)
  | Some gameCopy => setAiAnalysis None (setGame (undo gameCopy) st)
  end.

(** *** The AI move orchestration

    [triggerAiMove] is an async function.  It runs in three turns of the
    event loop: up to the [await]; from the settled promise to the end of
    the [try]; and the callback given to [setTimeout].  The advisor's result
    is taken at its declared type [AIMoveResponse]; the value of
    [Math.random()] in the callback is [rnd]. *)

Definition ANALYZING : string := "Analyzing board state...".
Definition FALLBACK_NOTICE : string :=
  "AI suggested an illegal move. Fallback logic triggered.".
Definition NO_MOVE_NOTICE : string := "AI couldn't find a move.".
Definition ERROR_NOTICE : string := "Error communicating with AI.".

(** *** [Math.floor(Math.random() * randomMoves.length)]

    [Math.random()] gives a double: a rational [m / 2^e] with [m] below
    [2^53] and [e] at most 1074.  The draws are doubles below one. *)
Definition is_double (rnd : Q) : bool :=
  (0 <=? Qnum rnd)%Z && (Qnum rnd <? 2 ^ 53)%Z
  && (Z.pos (Qden rnd) =? 2 ^ Z.log2 (Z.pos (Qden rnd)))%Z
  && (Z.log2 (Z.pos (Qden rnd)) <=? 1074)%Z.

(** The largest double below one. *)
Definition below_one : Q := (2 ^ 53 - 1) # (2 ^ 53).

(** [M / 2^s] rounded to the nearest integer, a tie to the even one. *)
Definition round_half_even (M s : Z) : Z :=
  if (s <=? 0)%Z then M
  else
    let q := (M / 2 ^ s)%Z in
    let r := (M mod 2 ^ s)%Z in
    let half := (2 ^ (s - 1))%Z in
    if (r <? half)%Z then q
    else if (half <? r)%Z then (q + 1)%Z
    else if Z.even q then q else (q + 1)%Z.

(** The double nearest to [M * 2^E]: the significand keeps 53 bits. *)
Definition round_double (M E : Z) : Z * Z :=
  let s := Z.max 0 (Z.log2 M + 1 - 53) in
  (round_half_even M s, (E + s)%Z).

(** The product is a product of doubles, rounded before [Math.floor]
    truncates it; the length of a list is a double as it is. *)
Definition random_index (rnd : Q) (n : nat) : nat :=
  let (q, e) := round_double (Qnum rnd * Z.of_nat n)
                             (- Z.log2 (Z.pos (Qden rnd))) in
  Z.to_nat (Z.shiftl q e).

(** First turn: the guard, then the two state updates before the [await].
    [None] is the early [return]. *)
Definition aiBegin (st : AppState) : option AppState :=
  if isGameOver (game st) || isAiThinking st then None
  else Some (setAiAnalysis (Some ANALYZING) (setIsAiThinking true st)).

(** Second turn: the promise has settled.  The second component is the
    response handed to the timer callback, when one is scheduled. *)
Definition aiSettle (c : Completion AIMoveResponse) (st : AppState)
  : AppState * option AIMoveResponse :=
  match c with
  | Fulfilled aiResponse =>
      if truthy (Some (move aiResponse))
      then (setAiAnalysis (Some (explanation aiResponse)) st, Some aiResponse)
      else (setAiAnalysis (Some NO_MOVE_NOTICE) (setIsAiThinking false st), None)
  | Rejected =>
      (setAiAnalysis (Some ERROR_NOTICE) (setIsAiThinking false st), None)
  end.

(** Third turn: the timer callback, a closure over the [game] (and the
    [makeMove]) of the render in which [triggerAiMove] was called. *)
Definition aiTimeout (game0 : Chess) (aiResponse : AIMoveResponse) (rnd : Q)
  (st : AppState) : AppState :=
  let (st1, moved) := makeMoveFrom game0 (MoveString (move aiResponse)) st in
  let st2 :=
    if moved then st1
    else
      let st1' := setAiAnalysis (Some FALLBACK_NOTICE) st1 in
      let randomMoves := moves game0 in
      if 0 <? List.length randomMoves then
        match nth_error randomMoves (random_index rnd (List.length randomMoves)) with
        | Some notation => fst (makeMoveFrom game0 (MoveString notation) st1')
        | None => st1' (* [makeMove(undefined)]: the engine throws *)
        end
      else st1' in
  setIsAiThinking false st2.

(** The whole orchestration, when nothing else happens in between. *)
Definition triggerAiMove (st : AppState) (c : Completion AIMoveResponse) (rnd : Q)
  : AppState :=
  match aiBegin st with
  | None => st
  | Some st1 =>
      match aiSettle c st1 with
      | (st2, Some aiResponse) => aiTimeout (game st) aiResponse rnd st2
      | (st2, None) => st2
      end
  end.

(** *** The session as an event loop

    The handlers above, one event at a time; the advisor's request in
    flight and the scheduled timer are part of the state, each with the
    [game] its closure captured. *)

Inductive Pending :=
| Idle
| Awaiting (game0 : Chess)
| Scheduled (game0 : Chess) (aiResponse : AIMoveResponse).

Record Session := mkSession { app : AppState; pending : Pending }.

Inductive Event :=
| Click (square : string)
| NewGame
| UndoLast
| Apply (moveData : MoveData)
| AiMove
| AiSettled (c : Completion AIMoveResponse)
| TimerFired (rnd : Q).

Definition initialSession : Session := mkSession initialState Idle.

Definition step (s : Session) (e : Event) : Session :=
  match e with
  | Click square => mkSession (onSquareClick square (app s)) (pending s)
  | NewGame => mkSession (resetGame (app s)) (pending s)
  | UndoLast => mkSession (undoMove (app s)) (pending s)
  | Apply moveData => mkSession (fst (makeMove moveData (app s))) (pending s)
  | AiMove =>
      match aiBegin (app s) with
      | Some st => mkSession st (Awaiting (game (app s)))
      | None => s
      end
  | AiSettled c =>
      match pending s with
      | Awaiting game0 =>
          match aiSettle c (app s) with
          | (st, Some aiResponse) => mkSession st (Scheduled game0 aiResponse)
          | (st, None) => mkSession st Idle
          end
      | _ => s
      end
  | TimerFired rnd =>
      match pending s with
      | Scheduled game0 aiResponse =>
          mkSession (aiTimeout game0 aiResponse rnd (app s)) Idle
      | _ => s
      end
  end.

Definition run (events : list Event) (s : Session) : Session :=
  fold_left step events s.

(** *** Notions the statements use *)

(** What the engine makes of [moveData] in the position with FEN [P]: the
    position after the move and the move made, or nothing when it refuses. *)
Definition engine_result (P : string) (moveData : MoveData) : option (Chess * Move) :=
  match load_Chess P with
  | Some c =>
      match Chess_move c moveData with
      | Moved c' m => Some (c', m)
      | ReturnedNull | Threw => None
      end
  | None => None
  end.

(** The selection invariant: a selected square holds a piece of the side to
    move. *)
Definition selection_ok (st : AppState) : Prop :=
  forall square, selectedSquare st = Some square ->
    exists p, get (game st) square = Some p /\ pcolor p = turn (game st).

End Controller.

(** ** What the component renders ([App.tsx], [components/ChessPiece.tsx]) *)

Section View.

Context {E : RulesEngine}.

(** [getStatusMessage] *)
Definition getStatusMessage (st : AppState) : string :=
  if isCheckmate (game st) then
    ("Checkmate! " ++ (match turn (game st) with White => "Black" | Black => "White" end)
     ++ " wins!")%string
  else if isDraw (game st) then "Draw!"
  else if isCheck (game st) then "Check!"
  else ((match turn (game st) with White => "White's" | Black => "Black's" end)
        ++ " turn")%string.

(** The Undo button: [disabled={game.history().length === 0}] *)
Definition undoDisabled (st : AppState) : bool :=
  List.length (history (game st)) =? 0.

(** The AI Move button: [disabled={isAiThinking || game.isGameOver()}] *)
Definition aiMoveDisabled (st : AppState) : bool :=
  isAiThinking st || isGameOver (game st).

(** [validMoves.includes(square)]: the square gets the destination mark. *)
Definition isValidMove (st : AppState) (square : string) : bool :=
  existsb (String.eqb square) (validMoves st).

(** [triggerAiMove] on the value the advisor resolved to, whatever its
    shape.  [null] has no properties, so reading [aiResponse.move] throws
    inside the [try]: the path of a rejected promise.  On any other value
    that is not an object, and on an object without [move], the property is
    [undefined], which is falsy like [null], [false] and the empty string.
    With a move and no [explanation] (or [null]) the analysis text is
    cleared: [None] stands for [null] and [undefined] alike, which the view
    does not tell apart.  A [move] or an [explanation] of another type is
    outside this model ([None]). *)
Definition triggerAiMoveUntyped (st : AppState) (v : Json.value) (rnd : Q)
  : option AppState :=
  let no_move :=
    triggerAiMove st (Fulfilled (mkAIMoveResponse EmptyString EmptyString)) rnd in
  match v with
  | Json.Null => Some (triggerAiMove st Rejected rnd)
  | Json.Object fields =>
      match Json.lookup "move" fields with
      | None | Some Json.Null | Some (Json.Bool false) => Some no_move
      | Some (Json.Str m) =>
          if truthy (Some m) then
            match Json.lookup "explanation" fields with
            | Some (Json.Str e) =>
                Some (triggerAiMove st (Fulfilled (mkAIMoveResponse m e)) rnd)
            | None | Some Json.Null =>
                match aiBegin st with
                | None => Some st
                | Some st1 =>
                    Some (aiTimeout (game st) (mkAIMoveResponse m EmptyString) rnd
                            (setAiAnalysis None st1))
                end
            | Some _ => None
            end
          else Some no_move
      | Some _ => None
      end
  | _ => Some no_move
  end.

(** The advisor and the orchestration put together: the reply of the
    service goes through [getBestMove], and what it resolves to into
    [triggerAiMove]. *)
Definition advise (reply : ServiceReply) (st : AppState) (rnd : Q) : option AppState :=
  match getBestMove reply with
  | Rejected => Some (triggerAiMove st Rejected rnd)
  | Fulfilled v => triggerAiMoveUntyped st v rnd
  end.

(** The selection and the destination list go together. *)
Definition destinations_ok (st : AppState) : Prop :=
  match selectedSquare st with
  | Some square => validMoves st = map to (moves_of_square (game st) square)
  | None => validMoves st = []
  end.

(** Each ledger holds pieces of the other colour. *)
Definition ledgers_ok (st : AppState) : Prop :=
  Forall (fun p => pcolor p = Black) (capturedByWhite st)
  /\ Forall (fun p => pcolor p = White) (capturedByBlack st).

End View.

(** [ChessPiece]: [getIconClass].  The constant [base] it computes from the
    colour is not used. *)
Definition getIconClass (type : PieceType) (color : PieceColor) : string :=
  let base := match color with White => "far" | Black => "fas" end in
  match type with
  | Pawn => "fa-chess-pawn"
  | Rook => "fa-chess-rook"
  | Knight => "fa-chess-knight"
  | Bishop => "fa-chess-bishop"
  | Queen => "fa-chess-queen"
  | King => "fa-chess-king"
  end.

(** [ChessPiece]: [getThemeColors] *)
Definition getThemeColors (color : PieceColor) : string :=
  match color with
  | White => "text-slate-100 drop-shadow-sm"
  | Black => "text-slate-900 drop-shadow-md"
  end.

(** The two class attributes of a rendered piece: of the outer [div] and of
    the icon. *)
Definition pieceClasses (type : PieceType) (color : PieceColor) : string * string :=
  (("text-4xl md:text-5xl lg:text-6xl flex items-center justify-center transition-transform hover:scale-110 cursor-grab active:cursor-grabbing "
    ++ getThemeColors color)%string,
   ("fa-solid " ++ getIconClass type color)%string).

(** ** A reference rules engine

    An executable implementation of [RulesEngine]: the rules of chess, FEN,
    SAN, and the operations of chess.js the controller calls, following the
    behaviour chess.js 1.x documents (move generation order, SAN with
    disambiguation, an en-passant square shown in the FEN only when the
    capture is legal, draw detection).  Of the string notations [move]
    accepts, SAN and the coordinate form are implemented; the constructor
    checks the syntax of a FEN. *)
Module Ref.

(** *** Squares and the board *)

(** An index from 0 to 7: a file (a..h) or a rank (1..8). *)
Inductive coord := C0 | C1 | C2 | C3 | C4 | C5 | C6 | C7.

Definition all_coords : list coord := [C0; C1; C2; C3; C4; C5; C6; C7].

Definition coord_index (c : coord) : nat :=
  match c with
  | C0 => 0 | C1 => 1 | C2 => 2 | C3 => 3 | C4 => 4 | C5 => 5 | C6 => 6 | C7 => 7
  end.

Definition coord_of_nat (n : nat) : option coord :=
  match n with
  | 0 => Some C0 | 1 => Some C1 | 2 => Some C2 | 3 => Some C3
  | 4 => Some C4 | 5 => Some C5 | 6 => Some C6 | 7 => Some C7
  | _ => None
  end.

Definition coord_of_Z (z : Z) : option coord :=
  if (z <? 0)%Z then None else coord_of_nat (Z.to_nat z).

Definition coord_eqb (a b : coord) : bool := coord_index a =? coord_index b.

(** Rank 8 is the first row of a board, rank 1 the last. *)
Definition flip (c : coord) : coord :=
  match c with
  | C0 => C7 | C1 => C6 | C2 => C5 | C3 => C4 | C4 => C3 | C5 => C2 | C6 => C1 | C7 => C0
  end.

(** (file, rank) *)
Definition Square : Type := coord * coord.

Definition file_of (s : Square) : coord := fst s.
Definition rank_of (s : Square) : coord := snd s.

Definition square_eqb (a b : Square) : bool :=
  coord_eqb (fst a) (fst b) && coord_eqb (snd a) (snd b).

(** The square [df] files and [dr] ranks away, when it is on the board. *)
Definition offset (s : Square) (df dr : Z) : option Square :=
  match coord_of_Z (Z.of_nat (coord_index (fst s)) + df),
        coord_of_Z (Z.of_nat (coord_index (snd s)) + dr) with
  | Some f, Some r => Some (f, r)
  | _, _ => None
  end.

(** Eight values, one per [coord]. *)
Record oct (A : Type) := Oct {
  o0 : A; o1 : A; o2 : A; o3 : A; o4 : A; o5 : A; o6 : A; o7 : A
}.
Arguments Oct {A} _ _ _ _ _ _ _ _.
Arguments o0 {A} _.
Arguments o1 {A} _.
Arguments o2 {A} _.
Arguments o3 {A} _.
Arguments o4 {A} _.
Arguments o5 {A} _.
Arguments o6 {A} _.
Arguments o7 {A} _.

Definition oct_get {A : Type} (o : oct A) (c : coord) : A :=
  match c with
  | C0 => o0 o | C1 => o1 o | C2 => o2 o | C3 => o3 o
  | C4 => o4 o | C5 => o5 o | C6 => o6 o | C7 => o7 o
  end.

Definition oct_set {A : Type} (o : oct A) (c : coord) (x : A) : oct A :=
  let '(Oct a0 a1 a2 a3 a4 a5 a6 a7) := o in
  match c with
  | C0 => Oct x a1 a2 a3 a4 a5 a6 a7
  | C1 => Oct a0 x a2 a3 a4 a5 a6 a7
  | C2 => Oct a0 a1 x a3 a4 a5 a6 a7
  | C3 => Oct a0 a1 a2 x a4 a5 a6 a7
  | C4 => Oct a0 a1 a2 a3 x a5 a6 a7
  | C5 => Oct a0 a1 a2 a3 a4 x a6 a7
  | C6 => Oct a0 a1 a2 a3 a4 a5 x a7
  | C7 => Oct a0 a1 a2 a3 a4 a5 a6 x
  end.

Definition oct_list {A : Type} (o : oct A) : list A :=
  [o0 o; o1 o; o2 o; o3 o; o4 o; o5 o; o6 o; o7 o].

Definition oct_of_list {A : Type} (l : list A) : option (oct A) :=
  match l with
  | [a0; a1; a2; a3; a4; a5; a6; a7] => Some (Oct a0 a1 a2 a3 a4 a5 a6 a7)
  | _ => None
  end.

Definition Cell : Type := option Piece.

(** Rows in FEN order: the first row is rank 8. *)
Definition Board : Type := oct (oct Cell).

Definition board_get (b : Board) (s : Square) : Cell :=
  oct_get (oct_get b (flip (snd s))) (fst s).

Definition board_set (b : Board) (s : Square) (x : Cell) : Board :=
  oct_set b (flip (snd s)) (oct_set (oct_get b (flip (snd s))) (fst s) x).

(** a8, b8, ..., h8, a7, ..., h1: the order in which chess.js scans. *)
Definition all_squares : list Square :=
  flat_map (fun r => map (fun f => (f, r)) all_coords) (rev all_coords).

(** *** Positions *)

Record Castling := mkCastling { wk : bool; wq : bool; bk : bool; bq : bool }.

Record Position := mkPosition {
  board : Board;
  side : PieceColor;
  castling : Castling;
  ep : option Square;
  halfmove : nat;
  fullmove : nat
}.

Inductive Flag :=
| FNormal | FCapture | FBigPawn | FEpCapture | FKsideCastle | FQsideCastle
| FNull.

(** A move as the engine generates it. *)
Record IMove := mkIMove {
  i_from : Square;
  i_to : Square;
  i_piece : PieceType;
  i_captured : option PieceType;
  i_promotion : option PieceType;
  i_flag : Flag
}.

Definition is_capture (m : IMove) : bool :=
  match i_flag m with FCapture | FEpCapture => true | _ => false end.

(** *** Move generation *)

Definition empty_at (b : Board) (s : Square) : bool :=
  match board_get b s with
  | None => true
  | Some _ => false
  end.

Definition holds (b : Board) (c : PieceColor) (t : PieceType) (s : Square) : bool :=
  match board_get b s with
  | Some p => color_eqb (pcolor p) c && type_eqb (ptype p) t
  | None => false
  end.

Definition PROMOTIONS : list PieceType := [Knight; Bishop; Rook; Queen].

Definition last_rank (r : coord) : bool :=
  match r with
  | C0 | C7 => true
  | _ => false
  end.

(** A pawn reaching the last rank gives one move per promotion piece. *)
Definition add_move (from to : Square) (t : PieceType) (cap : option PieceType)
  (flag : Flag) : list IMove :=
  if type_eqb t Pawn && last_rank (snd to)
  then map (fun pr => mkIMove from to t cap (Some pr) flag) PROMOTIONS
  else [mkIMove from to t cap None flag].

(** The rank direction in which the pawns of a colour advance. *)
Definition forward (c : PieceColor) : Z :=
  match c with White => 1 | Black => -1 end.

Definition second_rank (c : PieceColor) : coord :=
  match c with White => C1 | Black => C6 end.

Definition home_rank (c : PieceColor) : coord :=
  match c with White => C0 | Black => C7 end.

Definition pawn_capture (p : Position) (from : Square) (df : Z) : list IMove :=
  match offset from df (forward (side p)) with
  | None => []
  | Some to =>
      match board_get (board p) to with
      | Some q =>
          if color_eqb (pcolor q) (swap_color (side p))
          then add_move from to Pawn (Some (ptype q)) FCapture
          else []
      | None =>
          match ep p with
          | Some e => if square_eqb to e
                      then add_move from to Pawn (Some Pawn) FEpCapture else []
          | None => []
          end
      end
  end.

Definition pawn_moves (p : Position) (from : Square) : list IMove :=
  let us := side p in
  let d := forward us in
  let pushes :=
    match offset from 0 d with
    | Some to1 =>
        if empty_at (board p) to1 then
          add_move from to1 Pawn None FNormal
          ++ (if coord_eqb (snd from) (second_rank us) then
                match offset from 0 (2 * d) with
                | Some to2 =>
                    if empty_at (board p) to2
                    then add_move from to2 Pawn None FBigPawn else []
                | None => []
                end
              else [])
        else []
    | None => []
    end in
  let first := match us with White => (-1)%Z | Black => 1%Z end in
  pushes ++ pawn_capture p from first ++ pawn_capture p from (- first).

(** The moves of a piece along one direction: a single step for knight and
    king, up to seven steps for the sliding pieces. *)
Fixpoint ray (b : Board) (us : PieceColor) (t : PieceType) (from cur : Square)
  (df dr : Z) (steps : nat) : list IMove :=
  match steps with
  | 0 => []
  | S k =>
      match offset cur df dr with
      | None => []
      | Some to =>
          match board_get b to with
          | None => add_move from to t None FNormal ++ ray b us t from to df dr k
          | Some q =>
              if color_eqb (pcolor q) us then []
              else add_move from to t (Some (ptype q)) FCapture
          end
      end
  end.

(** Directions as (files, ranks), in the order of chess.js's offset tables. *)
Definition PIECE_OFFSETS (t : PieceType) : list (Z * Z) :=
  match t with
  | Knight => [(-2, 1); (-1, 2); (1, 2); (2, 1); (2, -1); (1, -2); (-1, -2); (-2, -1)]
  | Bishop => [(-1, 1); (1, 1); (1, -1); (-1, -1)]
  | Rook => [(0, 1); (1, 0); (0, -1); (-1, 0)]
  | Queen | King =>
      [(-1, 1); (0, 1); (1, 1); (1, 0); (1, -1); (0, -1); (-1, -1); (-1, 0)]
  | Pawn => []
  end%Z.

Definition reach (t : PieceType) : nat :=
  match t with
  | Knight | King => 1
  | _ => 7
  end.

Definition piece_moves (p : Position) (from : Square) : list IMove :=
  match board_get (board p) from with
  | Some pc =>
      if color_eqb (pcolor pc) (side p) then
        match ptype pc with
        | Pawn => pawn_moves p from
        | t => flat_map (fun d => ray (board p) (side p) t from from (fst d) (snd d) (reach t))
                        (PIECE_OFFSETS t)
        end
      else []
  | None => []
  end.

(** *** Attacks *)

Definition file_Z (s : Square) : Z := Z.of_nat (coord_index (fst s)).
Definition rank_Z (s : Square) : Z := Z.of_nat (coord_index (snd s)).

(** The squares strictly between [from] and a square [(df, dr)] away on a
    line are empty. *)
Definition clear_path (b : Board) (from : Square) (df dr : Z) : bool :=
  let n := Z.to_nat (Z.max (Z.abs df) (Z.abs dr)) in
  forallb (fun i =>
             match offset from (Z.of_nat i * Z.sgn df) (Z.of_nat i * Z.sgn dr) with
             | Some s => empty_at b s
             | None => false
             end)
          (seq 1 (n - 1)).

Definition attacks (b : Board) (from : Square) (pc : Piece) (target : Square) : bool :=
  let df := (file_Z target - file_Z from)%Z in
  let dr := (rank_Z target - rank_Z from)%Z in
  let diagonal := (Z.abs df =? Z.abs dr)%Z && negb (df =? 0)%Z in
  let straight := xorb (df =? 0)%Z (dr =? 0)%Z in
  match ptype pc with
  | Pawn => (Z.abs df =? 1)%Z && (dr =? forward (pcolor pc))%Z
  | Knight => ((Z.abs df =? 1) && (Z.abs dr =? 2) || (Z.abs df =? 2) && (Z.abs dr =? 1))%Z
  | King => (Z.max (Z.abs df) (Z.abs dr) =? 1)%Z
  | Bishop => diagonal && clear_path b from df dr
  | Rook => straight && clear_path b from df dr
  | Queen => (diagonal || straight) && clear_path b from df dr
  end.

(** Some piece of colour [them] attacks [target]. *)
Definition attacked (b : Board) (them : PieceColor) (target : Square) : bool :=
  existsb (fun s =>
             match board_get b s with
             | Some pc => color_eqb (pcolor pc) them && attacks b s pc target
             | None => false
             end)
          all_squares.

Definition king_square (b : Board) (c : PieceColor) : option Square :=
  find (holds b c King) all_squares.

Definition king_attacked (b : Board) (c : PieceColor) : bool :=
  match king_square b c with
  | Some k => attacked b (swap_color c) k
  | None => false
  end.

(** *** Castling, making a move, legality *)

Definition kside_right (c : Castling) (us : PieceColor) : bool :=
  match us with White => wk c | Black => bk c end.

Definition qside_right (c : Castling) (us : PieceColor) : bool :=
  match us with White => wq c | Black => bq c end.

Definition castle_moves (p : Position) : list IMove :=
  let us := side p in
  let them := swap_color us in
  let b := board p in
  let r := home_rank us in
  let king := (C4, r) in
  if holds b us King king then
    (if kside_right (castling p) us
        && empty_at b (C5, r) && empty_at b (C6, r)
        && negb (attacked b them king)
        && negb (attacked b them (C5, r)) && negb (attacked b them (C6, r))
     then [mkIMove king (C6, r) King None None FKsideCastle] else [])
    ++
    (if qside_right (castling p) us
        && empty_at b (C3, r) && empty_at b (C2, r) && empty_at b (C1, r)
        && negb (attacked b them king)
        && negb (attacked b them (C3, r)) && negb (attacked b them (C2, r))
     then [mkIMove king (C2, r) King None None FQsideCastle] else [])
  else [].

(** Every move that follows the movement rules, whether or not it leaves
    the mover's king attacked. *)
Definition pseudo_moves (p : Position) : list IMove :=
  flat_map (piece_moves p) all_squares ++ castle_moves p.

Definition clear_rights (c : Castling) (us : PieceColor) : Castling :=
  match us with
  | White => mkCastling false false (bk c) (bq c)
  | Black => mkCastling (wk c) (wq c) false false
  end.

(** A rook leaving its corner, or anything landing on it, ends the right to
    castle with that rook. *)
Definition corner_off (c : Castling) (owner : PieceColor) (s : Square) : Castling :=
  if square_eqb s (C0, home_rank owner) then
    match owner with
    | White => mkCastling (wk c) false (bk c) (bq c)
    | Black => mkCastling (wk c) (wq c) (bk c) false
    end
  else if square_eqb s (C7, home_rank owner) then
    match owner with
    | White => mkCastling false (wq c) (bk c) (bq c)
    | Black => mkCastling (wk c) (wq c) false (bq c)
    end
  else c.

Definition move_piece (b : Board) (from to : Square) : Board :=
  board_set (board_set b to (board_get b from)) from None.

Definition behind (to : Square) (us : PieceColor) : Square :=
  match offset to 0 (- forward us) with
  | Some s => s
  | None => to
  end.

(** The null move: the side to move passes.  chess.js writes it as a move
    of a king from a8 to a8. *)
Definition null_move : IMove := mkIMove (C0, C7) (C0, C7) King None None FNull.

Definition is_null (m : IMove) : bool :=
  match i_flag m with FNull => true | _ => false end.

(** The position after a null move: the board and the castling rights stay. *)
Definition pass (p : Position) : Position :=
  mkPosition (board p) (swap_color (side p)) (castling p) None (S (halfmove p))
             (match side p with Black => S (fullmove p) | White => fullmove p end).

(** The position after a move, with the en-passant square set after every
    two-square pawn advance. *)
Definition make_move_raw (p : Position) (m : IMove) : Position :=
  if is_null m then pass p else
  let us := side p in
  let them := swap_color us in
  let b1 := move_piece (board p) (i_from m) (i_to m) in
  let b2 := match i_flag m with
            | FEpCapture => board_set b1 (behind (i_to m) us) None
            | _ => b1
            end in
  let b3 := match i_promotion m with
            | Some pr => board_set b2 (i_to m) (Some (mkPiece pr us))
            | None => b2
            end in
  let king_moved := holds b3 us King (i_to m) in
  let b4 := if king_moved then
              match i_flag m with
              | FKsideCastle => move_piece b3 (C7, snd (i_to m)) (C5, snd (i_to m))
              | FQsideCastle => move_piece b3 (C0, snd (i_to m)) (C3, snd (i_to m))
              | _ => b3
              end
            else b3 in
  let c1 := if king_moved then clear_rights (castling p) us else castling p in
  let c2 := corner_off c1 us (i_from m) in
  let c3 := corner_off c2 them (i_to m) in
  let e := match i_flag m with
           | FBigPawn => Some (behind (i_to m) us)
           | _ => None
           end in
  let h := if type_eqb (i_piece m) Pawn then 0
           else if is_capture m then 0 else S (halfmove p) in
  let f := match us with Black => S (fullmove p) | White => fullmove p end in
  mkPosition b4 them c3 e h f.

Definition legal (p : Position) : list IMove :=
  filter (fun m => negb (king_attacked (board (make_move_raw p m)) (side p)))
         (pseudo_moves p).

Definition is_ep_capture (m : IMove) : bool :=
  match i_flag m with FEpCapture => true | _ => false end.

(** The position after a move.  The en-passant square is kept only when a
    legal en-passant capture exists, which is when chess.js shows it. *)
Definition make_move (p : Position) (m : IMove) : Position :=
  let p' := make_move_raw p m in
  match ep p' with
  | None => p'
  | Some _ =>
      if existsb is_ep_capture (legal p') then p'
      else mkPosition (board p') (side p') (castling p') None (halfmove p') (fullmove p')
  end.

Definition in_check (p : Position) : bool := king_attacked (board p) (side p).

Definition no_moves (p : Position) : bool :=
  match legal p with [] => true | _ => false end.

Definition in_checkmate (p : Position) : bool := in_check p && no_moves p.
Definition in_stalemate (p : Position) : bool := negb (in_check p) && no_moves p.

(** *** Notation *)

Definition file_char (c : coord) : ascii := ascii_of_nat (97 + coord_index c).
Definition rank_char (c : coord) : ascii := ascii_of_nat (49 + coord_index c).

Definition algebraic (s : Square) : string :=
  String (file_char (fst s)) (String (rank_char (snd s)) EmptyString).

Definition type_upper (t : PieceType) : ascii :=
  match t with
  | Pawn => "P" | Knight => "N" | Bishop => "B" | Rook => "R" | Queen => "Q" | King => "K"
  end%char.

Definition type_lower (t : PieceType) : ascii :=
  match t with
  | Pawn => "p" | Knight => "n" | Bishop => "b" | Rook => "r" | Queen => "q" | King => "k"
  end%char.

Definition str1 (c : ascii) : string := String c EmptyString.

(** What tells a move from the other legal moves of the same kind of piece
    to the same square. *)
Definition getDisambiguator (m : IMove) (ms : list IMove) : string :=
  let others :=
    filter (fun a => type_eqb (i_piece m) (i_piece a)
                     && negb (square_eqb (i_from m) (i_from a))
                     && square_eqb (i_to m) (i_to a)) ms in
  let sameRank := existsb (fun a => coord_eqb (snd (i_from m)) (snd (i_from a))) others in
  let sameFile := existsb (fun a => coord_eqb (fst (i_from m)) (fst (i_from a))) others in
  match others with
  | [] => EmptyString
  | _ =>
      if sameRank && sameFile then algebraic (i_from m)
      else if sameFile then str1 (rank_char (snd (i_from m)))
      else str1 (file_char (fst (i_from m)))
  end.

Definition moveToSan (p : Position) (m : IMove) (ms : list IMove) : string :=
  if is_null m then SAN_NULLMOVE else
  let body :=
    match i_flag m with
    | FKsideCastle => "O-O"
    | FQsideCastle => "O-O-O"
    | _ =>
        ((if type_eqb (i_piece m) Pawn then EmptyString
          else String (type_upper (i_piece m)) (getDisambiguator m ms))
         ++ (if is_capture m
             then (if type_eqb (i_piece m) Pawn then str1 (file_char (fst (i_from m))) else EmptyString)
                  ++ "x"
             else EmptyString)
         ++ algebraic (i_to m)
         ++ match i_promotion m with
            | Some pr => String "=" (str1 (type_upper pr))
            | None => EmptyString
            end)%string
    end in
  let p' := make_move p m in
  (body ++ (if in_check p' then if in_checkmate p' then "#" else "+" else EmptyString))%string.

Definition san_of (p : Position) (m : IMove) : string := moveToSan p m (legal p).

(** *** FEN

    The printers take the text that follows as an argument; the readers
    return what they read and the text left. *)

Definition piece_char (pc : Piece) : ascii :=
  match pcolor pc with
  | White => type_upper (ptype pc)
  | Black => type_lower (ptype pc)
  end.

Definition all_pieces : list Piece :=
  flat_map (fun c => map (fun t => mkPiece t c) [Pawn; Knight; Bishop; Rook; Queen; King])
           [White; Black].

Definition char_piece (c : ascii) : option Piece :=
  find (fun pc => Ascii.eqb (piece_char pc) c) all_pieces.

Definition digit_char (n : nat) : ascii := ascii_of_nat (48 + n).

(** A run of one to eight empty squares. *)
Definition char_run (c : ascii) : option nat :=
  if Json.between 49 56 c then Some (Json.code c - 48) else None.

Fixpoint print_cells (cells : list Cell) (empty : nat) (k : string) : string :=
  match cells with
  | [] => if empty =? 0 then k else String (digit_char empty) k
  | None :: r => print_cells r (S empty) k
  | Some pc :: r =>
      let rest := String (piece_char pc) (print_cells r 0 k) in
      if empty =? 0 then rest else String (digit_char empty) rest
  end.

Fixpoint parse_cells (s : string) : list Cell * string :=
  match s with
  | EmptyString => ([], s)
  | String c r =>
      match char_piece c with
      | Some pc => let (cells, rest) := parse_cells r in (Some pc :: cells, rest)
      | None =>
          match char_run c with
          | Some n => let (cells, rest) := parse_cells r in (repeat None n ++ cells, rest)
          | None => ([], s)
          end
      end
  end.

Definition print_row (r : oct Cell) (k : string) : string :=
  print_cells (oct_list r) 0 k.

Definition parse_row (s : string) : option (oct Cell * string) :=
  let (cells, rest) := parse_cells s in
  match oct_of_list cells with
  | Some r => Some (r, rest)
  | None => None
  end.

Fixpoint print_rows (rows : list (oct Cell)) (k : string) : string :=
  match rows with
  | [] => k
  | [r] => print_row r k
  | r :: rs => print_row r (String "/" (print_rows rs k))
  end.

Fixpoint parse_rows (n : nat) (s : string) : option (list (oct Cell) * string) :=
  match n with
  | 0 => Some ([], s)
  | S m =>
      match parse_row s with
      | None => None
      | Some (r, rest) =>
          match m with
          | 0 => Some ([r], rest)
          | S _ =>
              match rest with
              | String c rest' =>
                  if Ascii.eqb c "/" then
                    match parse_rows m rest' with
                    | Some (rs, rest'') => Some (r :: rs, rest'')
                    | None => None
                    end
                  else None
              | EmptyString => None
              end
          end
      end
  end.

Definition print_board (b : Board) (k : string) : string :=
  print_rows (oct_list b) k.

Definition parse_board (s : string) : option (Board * string) :=
  match parse_rows 8 s with
  | Some (rows, rest) =>
      match oct_of_list rows with
      | Some b => Some (b, rest)
      | None => None
      end
  | None => None
  end.

Definition side_char (c : PieceColor) : ascii :=
  match c with White => "w" | Black => "b" end%char.

Definition parse_side (s : string) : option (PieceColor * string) :=
  match s with
  | String c rest =>
      if Ascii.eqb c "w" then Some (White, rest)
      else if Ascii.eqb c "b" then Some (Black, rest)
      else None
  | EmptyString => None
  end.

Definition print_if (flag : bool) (c : ascii) (k : string) : string :=
  if flag then String c k else k.

Definition print_castling (c : Castling) (k : string) : string :=
  if wk c || wq c || bk c || bq c
  then print_if (wk c) "K" (print_if (wq c) "Q" (print_if (bk c) "k" (print_if (bq c) "q" k)))
  else String "-" k.

(** Reads [c] if it comes next. *)
Definition accept (c : ascii) (s : string) : bool * string :=
  match s with
  | String c' rest => if Ascii.eqb c c' then (true, rest) else (false, s)
  | EmptyString => (false, s)
  end.

Definition parse_castling (s : string) : option (Castling * string) :=
  let (dash, s0) := accept "-" s in
  if dash then Some (mkCastling false false false false, s0)
  else
    let (K, s1) := accept "K" s in
    let (Q, s2) := accept "Q" s1 in
    let (k, s3) := accept "k" s2 in
    let (q, s4) := accept "q" s3 in
    if K || Q || k || q then Some (mkCastling K Q k q, s4) else None.

Definition char_coord (base : nat) (c : ascii) : option coord :=
  if base <=? Json.code c then coord_of_nat (Json.code c - base) else None.

Definition char_file : ascii -> option coord := char_coord 97.
Definition char_rank : ascii -> option coord := char_coord 49.

Definition print_ep (e : option Square) (k : string) : string :=
  match e with
  | None => String "-" k
  | Some s => String (file_char (fst s)) (String (rank_char (snd s)) k)
  end.

Definition parse_square_prefix (s : string) : option (Square * string) :=
  match s with
  | String c1 (String c2 rest) =>
      match char_file c1, char_rank c2 with
      | Some f, Some r => Some ((f, r), rest)
      | _, _ => None
      end
  | _ => None
  end.

Definition parse_ep (s : string) : option (option Square * string) :=
  let (dash, s0) := accept "-" s in
  if dash then Some (None, s0)
  else match parse_square_prefix s with
       | Some (sq, rest) => Some (Some sq, rest)
       | None => None
       end.

Definition print_nat (n : nat) (k : string) : string :=
  (NilEmpty.string_of_uint (Nat.to_uint n) ++ k)%string.

Fixpoint digits_acc (acc : nat) (s : string) : nat * string :=
  match s with
  | EmptyString => (acc, s)
  | String c r =>
      if Json.is_digit c then digits_acc (Json.code c - 48 + 10 * acc) r
      else (acc, s)
  end.

Definition parse_nat (s : string) : option (nat * string) :=
  match s with
  | String c _ => if Json.is_digit c then Some (digits_acc 0 s) else None
  | EmptyString => None
  end.

Definition space : ascii := " "%char.

(** The first four fields: what identifies a position for repetition. *)
Definition print_key (p : Position) (k : string) : string :=
  print_board (board p)
    (String space (String (side_char (side p))
       (String space (print_castling (castling p)
          (String space (print_ep (ep p) k)))))).

Definition fen_of (p : Position) : string :=
  print_key p
    (String space (print_nat (halfmove p)
       (String space (print_nat (fullmove p) EmptyString)))).

Definition expect (c : ascii) (s : string) : option string :=
  match accept c s with
  | (true, rest) => Some rest
  | (false, _) => None
  end.

Definition bind {A B : Type} (x : option A) (f : A -> option B) : option B :=
  match x with
  | Some a => f a
  | None => None
  end.

Definition parse_fen (s : string) : option Position :=
  bind (parse_board s) (fun '(b, s) =>
  bind (expect space s) (fun s =>
  bind (parse_side s) (fun '(c, s) =>
  bind (expect space s) (fun s =>
  bind (parse_castling s) (fun '(cr, s) =>
  bind (expect space s) (fun s =>
  bind (parse_ep s) (fun '(e, s) =>
  bind (expect space s) (fun s =>
  bind (parse_nat s) (fun '(h, s) =>
  bind (expect space s) (fun s =>
  bind (parse_nat s) (fun '(f, s) =>
  match s with
  | EmptyString => Some (mkPosition b c cr e h f)
  | String _ _ => None
  end))))))))))).

(** *** The engine object *)

(** The current position and, latest first, the moves made on this object,
    each with the position it was made in. *)
Record Game := mkGame { current : Position; past : list (Position * IMove) }.

Definition back_rank (c : PieceColor) : oct Cell :=
  let pc t := Some (mkPiece t c) in
  Oct (pc Rook) (pc Knight) (pc Bishop) (pc Queen) (pc King) (pc Bishop) (pc Knight) (pc Rook).

Definition pawn_rank (c : PieceColor) : oct Cell :=
  let pc := Some (mkPiece Pawn c) in Oct pc pc pc pc pc pc pc pc.

Definition empty_rank : oct Cell :=
  Oct None None None None None None None None.

Definition start_position : Position :=
  mkPosition
    (Oct (back_rank Black) (pawn_rank Black) empty_rank empty_rank
         empty_rank empty_rank (pawn_rank White) (back_rank White))
    White (mkCastling true true true true) None 0 1.

Definition new_game : Game := mkGame start_position [].

Definition load (fen : string) : option Game :=
  match parse_fen fen with
  | Some p => Some (mkGame p [])
  | None => None
  end.

Definition game_fen (g : Game) : string := fen_of (current g).

Definition game_turn (g : Game) : PieceColor := side (current g).

Definition parse_square (s : string) : option Square :=
  match parse_square_prefix s with
  | Some (sq, EmptyString) => Some sq
  | _ => None
  end.

Definition game_get (g : Game) (square : string) : option Piece :=
  match parse_square square with
  | Some s => board_get (board (current g)) s
  | None => None
  end.

(** The move object handed to the caller. *)
Definition pretty (p : Position) (m : IMove) : Move :=
  mkMove (side p) (algebraic (i_from m)) (algebraic (i_to m)) (i_piece m)
         (i_captured m) (i_promotion m) (san_of p m).

Definition game_moves (g : Game) : list Move :=
  map (pretty (current g)) (legal (current g)).

(** [strippedSan]: the first equals sign goes, and so does a final check or
    mate sign with the annotation marks after it. *)
Fixpoint drop_first (c : ascii) (s : string) : string :=
  match s with
  | EmptyString => EmptyString
  | String c' r => if Ascii.eqb c c' then r else String c' (drop_first c r)
  end.

Fixpoint drop_marks (s : string) : string :=
  match s with
  | String c r => if Ascii.eqb c "?" || Ascii.eqb c "!" then drop_marks r else s
  | EmptyString => s
  end.

Definition drop_sign (s : string) : string :=
  match s with
  | String c r => if Ascii.eqb c "+" || Ascii.eqb c "#" then r else s
  | EmptyString => s
  end.

Definition strippedSan (s : string) : string :=
  Json.reverse (drop_sign (drop_marks (Json.reverse (drop_first "=" s)))).

(** *** Reading a move ([_moveFromSan])

    [inferPieceType] and the regular expressions work on characters; the
    ones they look for are ASCII, so that bytes do. *)

Definition is_file_char (c : ascii) : bool := Json.between 97 104 c.
Definition is_rank_char (c : ascii) : bool := Json.between 49 56 c.

(** [toLowerCase] on an ASCII character. *)
Definition to_lower (c : ascii) : ascii :=
  if Json.between 65 90 c then ascii_of_nat (Json.code c + 32) else c.

(** The Kelvin sign U+212A, the one character outside ASCII whose lower
    case is a piece letter. *)
Definition kelvin_here (s : string) : bool :=
  match s with
  | String c1 (String c2 (String c3 _)) =>
      (Json.code c1 =? 226) && (Json.code c2 =? 132) && (Json.code c3 =? 170)
  | _ => false
  end.

(** A line terminator, which the dot of a regular expression does not
    match: line feed, carriage return, U+2028, U+2029. *)
Definition terminator_here (s : string) : bool :=
  match s with
  | String c1 r =>
      (Json.code c1 =? 10) || (Json.code c1 =? 13)
      || match r with
         | String c2 (String c3 _) =>
             (Json.code c1 =? 226) && (Json.code c2 =? 128)
             && ((Json.code c3 =? 168) || (Json.code c3 =? 169))
         | _ => false
         end
  | EmptyString => false
  end.

Definition file_digit_here (s : string) : bool :=
  match s with
  | String c1 (String c2 _) => is_file_char c1 && Json.is_digit c2
  | _ => false
  end.

(** A file letter and a digit after any text on the same line. *)
Fixpoint then_file_digit (s : string) : bool :=
  file_digit_here s
  || match s with
     | String _ r => negb (terminator_here s) && then_file_digit r
     | EmptyString => false
     end.

(** A file letter and a digit, twice, somewhere in the text. *)
Fixpoint two_squares (s : string) : bool :=
  match s with
  | String _ r =>
      (file_digit_here s
       && match r with
          | String _ r2 => then_file_digit r2
          | EmptyString => false
          end)
      || two_squares r
  | EmptyString => false
  end.

(** [inferPieceType]: the letter of the kind of piece to generate moves
    for, from the first character; [None] is [undefined], all pieces.  (For
    the empty text chess.js has the empty string here, with which it
    generates every move but castling; no move is found for it either
    way.) *)
Definition inferPieceType (san : string) : option ascii :=
  match san with
  | EmptyString => None
  | String c _ =>
      if is_file_char c then
        if two_squares san then None else Some "p"%char
      else
        let pieceType := if kelvin_here san then "k"%char else to_lower c in
        if Ascii.eqb pieceType "o" then Some "k"%char else Some pieceType
  end.

(** [_moves({ legal: true, piece })] *)
Definition moves_for (p : Position) (forPiece : option ascii) : list IMove :=
  match forPiece with
  | None => legal p
  | Some c => filter (fun m => Ascii.eqb (type_lower (i_piece m)) c) (legal p)
  end.

(** The strict parser: the text is the SAN of the move, decorations apart. *)
Definition find_san (p : Position) (cleanMove : string) (ms : list IMove)
  : option IMove :=
  find (fun m => String.eqb cleanMove (strippedSan (moveToSan p m ms))) ms.

(** What the permissive parser reads: a piece letter, the text of the
    origin, the destination square and a promotion letter. *)
Definition Loose : Type := option ascii * string * Square * option ascii.

Definition is_piece_letter (c : ascii) : bool :=
  existsb (Ascii.eqb c) (Json.list_of_string "pnbrqkPNBRQK").

Definition is_promotion_letter (c : ascii) : bool :=
  existsb (Ascii.eqb c) (Json.list_of_string "qrbnQRBN").

(** An optional character: taken when it is there, and given back when
    what follows does not match. *)
Definition optional {R : Type} (class : ascii -> bool) (s : string)
  (k : option ascii -> string -> option R) : option R :=
  match s with
  | String c r =>
      if class c then
        match k (Some c) r with
        | Some x => Some x
        | None => k None s
        end
      else k None s
  | EmptyString => k None s
  end.

Definition text_of (c : option ascii) : string :=
  match c with
  | Some x => str1 x
  | None => EmptyString
  end.

(** The destination and what follows it. *)
Definition destination_here (piece : option ascii) (from_text : string) (s : string)
  : option Loose :=
  optional (Ascii.eqb "x") s (fun _ s1 =>
    optional (Ascii.eqb "-") s1 (fun _ s2 =>
      match parse_square_prefix s2 with
      | Some (to, s3) =>
          Some (piece, from_text, to,
                match s3 with
                | String c _ => if is_promotion_letter c then Some c else None
                | EmptyString => None
                end)
      | None => None
      end)).

(** A piece letter, the origin square, [x], [-], the destination square, a
    promotion letter; all but the squares are optional. *)
Definition squares_here (s : string) : option Loose :=
  optional is_piece_letter s (fun piece s1 =>
    match parse_square_prefix s1 with
    | Some (from, s2) => destination_here piece (algebraic from) s2
    | None => None
    end).

(** The same with an origin of which the file, the rank or both may be
    missing. *)
Definition disambiguated_here (s : string) : option Loose :=
  optional is_piece_letter s (fun piece s1 =>
    optional is_file_char s1 (fun f s2 =>
      optional is_rank_char s2 (fun r s3 =>
        destination_here piece (text_of f ++ text_of r)%string s3))).

(** The leftmost place at which a pattern matches. *)
Fixpoint leftmost {R : Type} (here : string -> option R) (s : string) : option R :=
  match here s with
  | Some x => Some x
  | None =>
      match s with
      | String _ r => leftmost here r
      | EmptyString => None
      end
  end.

Definition letter_agrees (want : option ascii) (have : option PieceType) : bool :=
  match want, have with
  | None, _ => true
  | Some c, Some t => Ascii.eqb (to_lower c) (type_lower t)
  | Some _, None => false
  end.

(** The permissive parser's comparison of a move with what was read. *)
Definition loosely (p : Position) (cleanMove : string) (x : Loose)
  (ms : list IMove) (m : IMove) : bool :=
  let '(piece, from, to, promotion) := x in
  let overlyDisambiguated := String.length from =? 1 in
  let square := algebraic (i_from m) in
  match from with
  | EmptyString =>
      String.eqb cleanMove (drop_first "x" (strippedSan (moveToSan p m ms)))
  | _ =>
      (letter_agrees piece (Some (i_piece m))
       && String.eqb from square
       && square_eqb to (i_to m)
       && letter_agrees promotion (i_promotion m))
      || (overlyDisambiguated
          && letter_agrees piece (Some (i_piece m))
          && square_eqb to (i_to m)
          && (String.eqb from (str1 (file_char (fst (i_from m))))
              || String.eqb from (str1 (rank_char (snd (i_from m)))))
          && letter_agrees promotion (i_promotion m))
  end.

Definition find_loose (p : Position) (cleanMove : string) : option IMove :=
  let matches :=
    match leftmost squares_here cleanMove with
    | Some x => Some x
    | None => leftmost disambiguated_here cleanMove
    end in
  match matches with
  | Some x =>
      let piece := fst (fst (fst x)) in
      let ms := moves_for p (match piece with
                             | Some c => Some (to_lower c)
                             | None => inferPieceType cleanMove
                             end) in
      find (loosely p cleanMove x ms) ms
  | None => None
  end.

(** [_moveFromSan], not strict. *)
Definition moveFromSan (p : Position) (move : string) : option IMove :=
  let stripped := strippedSan move in
  let cleanMove :=
    if String.eqb stripped "0-0" then "O-O"
    else if String.eqb stripped "0-0-0" then "O-O-O"
    else stripped in
  if String.eqb cleanMove SAN_NULLMOVE then Some null_move
  else
    match find_san p cleanMove (moves_for p (inferPieceType cleanMove)) with
    | Some m => Some m
    | None => find_loose p cleanMove
    end.

(** The move an object [{ from, to, promotion }] stands for: the promotion
    is compared only against moves that promote. *)
Definition find_object (p : Position) (from_sq to_sq : string) (promo : option string)
  : option IMove :=
  find (fun m => String.eqb from_sq (algebraic (i_from m))
                 && String.eqb to_sq (algebraic (i_to m))
                 && match i_promotion m with
                    | None => true
                    | Some pr =>
                        match promo with
                        | Some x => String.eqb x (str1 (type_lower pr))
                        | None => false
                        end
                    end)
       (legal p).

Definition find_move (p : Position) (md : MoveData) : option IMove :=
  match md with
  | MoveString s => moveFromSan p s
  | MoveObject f t promo => find_object p f t promo
  end.

(** [move]: chess.js 1.x throws when no move is found, and for a null move
    when the side to move is in check. *)
Definition game_move (g : Game) (md : MoveData) : MoveOutcome Game :=
  match find_move (current g) md with
  | Some m =>
      if in_check (current g) && is_null m then Threw
      else
        Moved (mkGame (make_move (current g) m) ((current g, m) :: past g))
              (pretty (current g) m)
  | None => Threw
  end.

Definition game_undo (g : Game) : Game :=
  match past g with
  | [] => g
  | (p, _) :: r => mkGame p r
  end.

Definition game_history (g : Game) : list string :=
  rev (map (fun pm => san_of (fst pm) (snd pm)) (past g)).

(** *** Check, mate and draws *)

Definition occupied (b : Board) : list (Square * Piece) :=
  flat_map (fun s => match board_get b s with
                     | Some pc => [(s, pc)]
                     | None => []
                     end) all_squares.

Definition square_colour (s : Square) : nat :=
  (coord_index (fst s) + coord_index (snd s)) mod 2.

Definition isInsufficientMaterial (p : Position) : bool :=
  let pcs := occupied (board p) in
  let count t := List.length (filter (fun x => type_eqb (ptype (snd x)) t) pcs) in
  let bishops := map (fun x => square_colour (fst x))
                     (filter (fun x => type_eqb (ptype (snd x)) Bishop) pcs) in
  let numPieces := List.length pcs in
  if numPieces =? 2 then true
  else if (numPieces =? 3) && ((count Bishop =? 1) || (count Knight =? 1)) then true
  else if numPieces =? count Bishop + 2 then
    let sum := fold_right Nat.add 0 bishops in
    (sum =? 0) || (sum =? List.length bishops)
  else false.

Definition isThreefoldRepetition (g : Game) : bool :=
  let key p := print_key p EmptyString in
  3 <=? List.length (filter (fun p => String.eqb (key p) (key (current g)))
                            (current g :: map fst (past g))).

Definition isDrawByFiftyMoves (p : Position) : bool := 100 <=? halfmove p.

Definition game_isCheck (g : Game) : bool := in_check (current g).
Definition game_isCheckmate (g : Game) : bool := in_checkmate (current g).
Definition game_isStalemate (g : Game) : bool := in_stalemate (current g).

Definition game_isDraw (g : Game) : bool :=
  isDrawByFiftyMoves (current g) || game_isStalemate g
  || isInsufficientMaterial (current g) || isThreefoldRepetition g.

Definition game_isGameOver (g : Game) : bool :=
  game_isCheckmate g || game_isStalemate g || game_isDraw g.

(** The number of move sequences of a given length, the usual test of a
    move generator. *)
Fixpoint perft (depth : nat) (p : Position) : nat :=
  match depth with
  | 0 => 1
  | S d => fold_right (fun m acc => perft d (make_move p m) + acc) 0 (legal p)
  end.

(** *** Reading back a printed FEN *)

(** Text at which the reader of a row stops. *)
Definition stops (k : string) : Prop :=
  match k with
  | EmptyString => True
  | String c _ => char_piece c = None /\ char_run c = None
  end.

Lemma char_piece_char (pc : Piece) : char_piece (piece_char pc) = Some pc.
Proof. destruct pc as [[] []]; reflexivity. Qed.

Lemma digit_char_run (e : nat) :
  1 <= e <= 8 -> char_piece (digit_char e) = None /\ char_run (digit_char e) = Some e.
Proof.
  intros [H1 H2].
  do 9 (destruct e as [|e]; [try lia; split; reflexivity|]); lia.
Qed.

Lemma parse_cells_stops (k : string) : stops k -> parse_cells k = ([], k).
Proof.
  destruct k as [|c k]; simpl; [reflexivity|].
  intros [-> ->]; reflexivity.
Qed.

Lemma repeat_snoc {A : Type} (x : A) (n : nat) (l : list A) :
  repeat x (S n) ++ l = repeat x n ++ x :: l.
Proof.
  induction n as [|n IH]; simpl in *; [reflexivity|].
  now rewrite <- IH.
Qed.

Lemma parse_cells_piece (c : ascii) (r : string) (pc : Piece) :
  char_piece c = Some pc ->
  parse_cells (String c r)
  = (Some pc :: fst (parse_cells r), snd (parse_cells r)).
Proof.
  intros H. cbn [parse_cells]. rewrite H.
  now destruct (parse_cells r).
Qed.

Lemma parse_cells_run (c : ascii) (r : string) (n : nat) :
  char_piece c = None -> char_run c = Some n ->
  parse_cells (String c r)
  = (repeat None n ++ fst (parse_cells r), snd (parse_cells r)).
Proof.
  intros Hp Hr. cbn [parse_cells]. rewrite Hp, Hr.
  now destruct (parse_cells r).
Qed.

Lemma parse_print_cells (cells : list Cell) :
  forall (e : nat) (k : string),
    stops k -> e + List.length cells <= 8 ->
    parse_cells (print_cells cells e k) = (repeat None e ++ cells, k).
Proof.
  induction cells as [|[pc|] r IH]; intros e k Hk Hlen;
    cbn [print_cells List.length] in *.
  - destruct e as [|e]; cbn [Nat.eqb].
    + now apply parse_cells_stops.
    + destruct (digit_char_run (S e)) as [Hp Hr]; [lia|].
      rewrite (parse_cells_run _ _ _ Hp Hr), (parse_cells_stops k Hk).
      reflexivity.
  - assert (Hpc : parse_cells (String (piece_char pc) (print_cells r 0 k))
                  = (Some pc :: r, k)).
    { rewrite (parse_cells_piece _ _ _ (char_piece_char pc)).
      rewrite (IH 0 k Hk) by lia. reflexivity. }
    destruct e as [|e]; cbn [Nat.eqb].
    + exact Hpc.
    + destruct (digit_char_run (S e)) as [Hp Hr]; [lia|].
      rewrite (parse_cells_run _ _ _ Hp Hr), Hpc. reflexivity.
  - rewrite (IH (S e) k Hk) by lia.
    now rewrite repeat_snoc.
Qed.

Lemma oct_of_list_oct_list {A : Type} (o : oct A) : oct_of_list (oct_list o) = Some o.
Proof. destruct o; reflexivity. Qed.

Lemma parse_print_row (r : oct Cell) (k : string) :
  stops k -> parse_row (print_row r k) = Some (r, k).
Proof.
  intros Hk. unfold parse_row, print_row.
  rewrite parse_print_cells; [|assumption|destruct r; cbn; lia].
  change (repeat None 0 ++ oct_list r) with (oct_list r).
  now rewrite oct_of_list_oct_list.
Qed.

Lemma stops_separator (c : ascii) (k : string) :
  c = space \/ c = "/"%char -> stops (String c k).
Proof. intros [-> | ->]; split; reflexivity. Qed.

Lemma parse_rows_next (m : nat) (s rest k : string) (r : oct Cell)
  (rs : list (oct Cell)) :
  parse_row s = Some (r, String "/" rest) ->
  parse_rows (S m) rest = Some (rs, k) ->
  parse_rows (S (S m)) s = Some (r :: rs, k).
Proof.
  intros H1 H2.
  change (parse_rows (S (S m)) s)
    with (match parse_row s with
          | None => None
          | Some (r, rest) =>
              match rest with
              | String c rest' =>
                  if Ascii.eqb c "/" then
                    match parse_rows (S m) rest' with
                    | Some (rs, rest'') => Some (r :: rs, rest'')
                    | None => None
                    end
                  else None
              | EmptyString => None
              end
          end).
  rewrite H1. change (("/" =? "/")%char) with true. cbv iota.
  now rewrite H2.
Qed.

Lemma parse_print_rows (rows : list (oct Cell)) :
  forall k : string,
    rows <> [] -> stops k ->
    parse_rows (List.length rows) (print_rows rows k) = Some (rows, k).
Proof.
  induction rows as [|r rs IH]; intros k Hne Hk; [congruence|].
  destruct rs as [|r' rs].
  - cbn [List.length parse_rows print_rows]. now rewrite parse_print_row.
  - change (print_rows (r :: r' :: rs) k)
      with (print_row r (String "/" (print_rows (r' :: rs) k))).
    change (List.length (r :: r' :: rs)) with (S (S (List.length rs))).
    apply parse_rows_next with (rest := print_rows (r' :: rs) k).
    + apply parse_print_row. apply stops_separator; now right.
    + apply IH; [congruence|assumption].
Qed.

Lemma parse_print_board (b : Board) (k : string) :
  stops k -> parse_board (print_board b k) = Some (b, k).
Proof.
  intros Hk. unfold parse_board, print_board.
  change 8 with (List.length (oct_list b)).
  rewrite parse_print_rows; [|destruct b; discriminate|assumption].
  now rewrite oct_of_list_oct_list.
Qed.

Lemma parse_print_side (c : PieceColor) (k : string) :
  parse_side (String (side_char c) k) = Some (c, k).
Proof. destruct c; reflexivity. Qed.

Lemma parse_print_castling (c : Castling) (k : string) :
  parse_castling (print_castling c (String space k)) = Some (c, String space k).
Proof. destruct c as [[] [] [] []]; reflexivity. Qed.

Lemma parse_print_ep (e : option Square) (k : string) :
  parse_ep (print_ep e k) = Some (e, k).
Proof. destruct e as [[f r]|]; [destruct f, r|]; reflexivity. Qed.

(** Text that does not go on with a digit. *)
Definition no_digit (k : string) : Prop :=
  match k with
  | EmptyString => True
  | String c _ => Json.is_digit c = false
  end.

Lemma digits_acc_no_digit (acc : nat) (k : string) :
  no_digit k -> digits_acc acc k = (acc, k).
Proof. destruct k as [|c k]; simpl; [reflexivity|]. now intros ->. Qed.

Lemma digits_acc_uint (d : Decimal.uint) :
  forall (acc : nat) (k : string),
    no_digit k ->
    digits_acc acc (NilEmpty.string_of_uint d ++ k)%string = (Nat.of_uint_acc d acc, k).
Proof.
  induction d as [|d IH|d IH|d IH|d IH|d IH|d IH|d IH|d IH|d IH|d IH];
    intros acc k Hk;
    [now apply digits_acc_no_digit
    |cbn [NilEmpty.string_of_uint String.append digits_acc Nat.of_uint_acc];
     match goal with
     | |- context [Json.is_digit ?c] => change (Json.is_digit c) with true
     end;
     cbv iota; rewrite IH by assumption; rewrite Nat.tail_mul_spec;
     reflexivity ..].
Qed.

Lemma to_uint_digit (n : nat) :
  exists c s, NilEmpty.string_of_uint (Nat.to_uint n) = String c s /\ Json.is_digit c = true.
Proof.
  destruct (Nat.to_uint n) eqn:E;
    try (eexists; eexists; split; [reflexivity|reflexivity]).
  exfalso.
  pose proof (Unsigned.of_to n) as H. rewrite E in H. simpl in H. subst n.
  discriminate E.
Qed.

Lemma parse_print_nat (n : nat) (k : string) :
  no_digit k -> parse_nat (print_nat n k) = Some (n, k).
Proof.
  intros Hk. unfold parse_nat, print_nat.
  destruct (to_uint_digit n) as (c & s & Hs & Hc).
  pose proof (digits_acc_uint (Nat.to_uint n) 0 k Hk) as H.
  rewrite Hs in *. cbn [String.append] in *. rewrite Hc, H.
  change (Nat.of_uint_acc (Nat.to_uint n) 0) with (Nat.of_uint (Nat.to_uint n)).
  now rewrite Unsigned.of_to.
Qed.

Lemma expect_space (k : string) : expect space (String space k) = Some k.
Proof. reflexivity. Qed.

Lemma parse_fen_of (p : Position) : parse_fen (fen_of p) = Some p.
Proof.
  destruct p as [b c cr e h f].
  unfold parse_fen, fen_of, print_key. cbn [board side castling ep halfmove fullmove].
  rewrite parse_print_board by (apply stops_separator; now left).
  cbn [bind]. rewrite expect_space. cbn [bind].
  rewrite parse_print_side. cbn [bind]. rewrite expect_space. cbn [bind].
  rewrite parse_print_castling. cbn [bind]. rewrite expect_space. cbn [bind].
  rewrite parse_print_ep. cbn [bind]. rewrite expect_space. cbn [bind].
  rewrite parse_print_nat by reflexivity.
  cbn [bind]. rewrite expect_space. cbn [bind].
  rewrite parse_print_nat by exact I.
  reflexivity.
Qed.

(** *** The move generator on the standard test positions *)

Lemma perft_start : perft 1 start_position = 20 /\ perft 2 start_position = 400.
Proof. split; vm_compute; reflexivity. Qed.

Lemma perft_castling_and_promotion :
  option_map (perft 2)
    (parse_fen "r3k2r/p1ppqpb1/bn2pnp1/3PN3/1p2P3/2N2Q1p/PPPBBPPP/R3K2R w KQkq - 0 1")
  = Some 2039
  /\ option_map (perft 2)
       (parse_fen "r3k2r/Pppp1ppp/1b3nbN/nP6/BBP1P3/q4N2/Pp1P2PP/R2Q1RK1 w kq - 0 1")
     = Some 264
  /\ option_map (perft 2) (parse_fen "8/2p5/3p4/KP5r/1R3p1k/8/4P1P1/8 w - - 0 1")
     = Some 191.
Proof. repeat split; vm_compute; reflexivity. Qed.

(** *** The reference engine meets the interface *)

Lemma load_game_fen (g : Game) : load (game_fen g) = Some (mkGame (current g) []).
Proof. unfold load, game_fen. now rewrite parse_fen_of. Qed.

Lemma game_undo_nothing (g : Game) : game_history g = [] -> game_undo g = g.
Proof.
  unfold game_history, game_undo. destruct (past g) as [|[p m] r]; [reflexivity|].
  cbn [map rev]. intros H. now apply app_eq_nil in H as [_ H].
Qed.

(** **** The moves generated are not null moves, and the castling moves are
    moves of the king *)

Definition regular (m : IMove) : bool :=
  match i_flag m with
  | FNull => false
  | FKsideCastle | FQsideCastle => type_eqb (i_piece m) King
  | _ => true
  end.

Lemma add_move_regular (from to : Square) (t : PieceType) (cap : option PieceType)
  (flag : Flag) :
  regular (mkIMove from to t cap None flag) = true ->
  Forall (fun m => regular m = true) (add_move from to t cap flag).
Proof.
  intros H. unfold add_move.
  destruct (type_eqb t Pawn && last_rank (snd to)).
  - apply Forall_map. apply Forall_forall. intros pr _. exact H.
  - now constructor.
Qed.

Lemma pawn_capture_regular (p : Position) (from : Square) (df : Z) :
  Forall (fun m => regular m = true) (pawn_capture p from df).
Proof.
  unfold pawn_capture.
  destruct (offset from df (forward (side p))) as [to|]; [|constructor].
  destruct (board_get (board p) to) as [q|].
  - destruct (color_eqb (pcolor q) (swap_color (side p))); [|constructor].
    now apply add_move_regular.
  - destruct (ep p) as [e|]; [|constructor].
    destruct (square_eqb to e); [|constructor].
    now apply add_move_regular.
Qed.

Lemma pawn_moves_regular (p : Position) (from : Square) :
  Forall (fun m => regular m = true) (pawn_moves p from).
Proof.
  unfold pawn_moves. cbv zeta.
  apply Forall_app. split;
    [|apply Forall_app; split; apply pawn_capture_regular].
  destruct (offset from 0 (forward (side p))) as [to1|]; [|constructor].
  destruct (empty_at (board p) to1); [|constructor].
  apply Forall_app. split; [now apply add_move_regular|].
  destruct (coord_eqb (snd from) (second_rank (side p))); [|constructor].
  destruct (offset from 0 (2 * forward (side p))) as [to2|]; [|constructor].
  destruct (empty_at (board p) to2); [|constructor].
  now apply add_move_regular.
Qed.

Lemma ray_regular (b : Board) (us : PieceColor) (t : PieceType) (from : Square)
  (df dr : Z) (steps : nat) (cur : Square) :
  Forall (fun m => regular m = true) (ray b us t from cur df dr steps).
Proof.
  revert cur. induction steps as [|k IH]; intros cur; cbn [ray]; [constructor|].
  destruct (offset cur df dr) as [to|]; [|constructor].
  destruct (board_get b to) as [q|].
  - destruct (color_eqb (pcolor q) us); [constructor|].
    now apply add_move_regular.
  - apply Forall_app. split; [now apply add_move_regular|apply IH].
Qed.

Lemma piece_moves_regular (p : Position) (from : Square) :
  Forall (fun m => regular m = true) (piece_moves p from).
Proof.
  unfold piece_moves.
  destruct (board_get (board p) from) as [pc|]; [|constructor].
  destruct (color_eqb (pcolor pc) (side p)); [|constructor].
  destruct (ptype pc); try apply pawn_moves_regular;
    apply Forall_flat_map, Forall_forall; intros d _; apply ray_regular.
Qed.

Lemma castle_moves_regular (p : Position) :
  Forall (fun m => regular m = true) (castle_moves p).
Proof.
  unfold castle_moves.
  destruct (holds _ _ _ _); [|constructor].
  apply Forall_app. split.
  - match goal with |- Forall _ (if ?c then _ else _) => destruct c end;
      repeat constructor.
  - match goal with |- Forall _ (if ?c then _ else _) => destruct c end;
      repeat constructor.
Qed.

Lemma legal_regular (p : Position) (m : IMove) :
  In m (legal p) -> regular m = true.
Proof.
  unfold legal. intros H. apply filter_In in H as [H _].
  revert m H. apply Forall_forall. unfold pseudo_moves.
  apply Forall_app. split; [|apply castle_moves_regular].
  apply Forall_flat_map, Forall_forall. intros s _. apply piece_moves_regular.
Qed.

Lemma regular_not_null (m : IMove) : regular m = true -> is_null m = false.
Proof. unfold regular, is_null. now destruct (i_flag m). Qed.

(** **** The text of a SAN *)

Lemma type_eqb_eq (a b : PieceType) : type_eqb a b = true -> a = b.
Proof. now destruct a, b. Qed.

Lemma type_eqb_refl (a : PieceType) : type_eqb a a = true.
Proof. now destruct a. Qed.

(** The first character of the SAN of a move. *)
Definition san_head (m : IMove) : ascii :=
  match i_flag m with
  | FKsideCastle | FQsideCastle => "O"%char
  | _ =>
      if type_eqb (i_piece m) Pawn then
        if is_capture m then file_char (fst (i_from m)) else file_char (fst (i_to m))
      else type_upper (i_piece m)
  end.

Lemma moveToSan_head (p : Position) (m : IMove) (ms : list IMove) :
  regular m = true ->
  exists r, moveToSan p m ms = String (san_head m) r.
Proof.
  intros H. unfold moveToSan. rewrite (regular_not_null m H).
  unfold san_head, regular, is_capture in *.
  destruct (i_flag m); try discriminate;
    try (eexists; cbn; reflexivity);
    destruct (type_eqb (i_piece m) Pawn); cbn; eexists; reflexivity.
Qed.

(** What is not stripped from a SAN. *)
Definition kept (c : ascii) : bool :=
  negb (existsb (Ascii.eqb c) (Json.list_of_string "=+#?!")).

Lemma string_of_list_app (a b : list ascii) :
  Json.string_of_list (a ++ b)
  = (Json.string_of_list a ++ Json.string_of_list b)%string.
Proof. induction a as [|c a IH]; cbn; [reflexivity|now rewrite IH]. Qed.

Lemma reverse_cons (c : ascii) (s : string) :
  Json.reverse (String c s) = (Json.reverse s ++ str1 c)%string.
Proof.
  unfold Json.reverse, Json.string_of_rev, Json.list_of_string. cbn [list_ascii_of_string rev].
  now rewrite string_of_list_app.
Qed.

Lemma reverse_snoc (s : string) (c : ascii) :
  Json.reverse (s ++ str1 c) = String c (Json.reverse s).
Proof.
  induction s as [|a s IH]; [reflexivity|].
  cbn [append]. rewrite !reverse_cons, IH. reflexivity.
Qed.

Lemma drop_marks_snoc (s : string) (c : ascii) :
  kept c = true -> exists s', drop_marks (s ++ str1 c) = (s' ++ str1 c)%string.
Proof.
  intros H. induction s as [|a s IH].
  - exists EmptyString. cbn.
    assert (Ascii.eqb c "?" || Ascii.eqb c "!" = false) as ->; [|reflexivity].
    unfold kept in H. cbn in H.
    destruct (Ascii.eqb c "?"), (Ascii.eqb c "!"), (Ascii.eqb c "="),
      (Ascii.eqb c "+"), (Ascii.eqb c "#"); cbn in *; congruence.
  - cbn [append drop_marks].
    destruct (Ascii.eqb a "?" || Ascii.eqb a "!"); [exact IH|].
    now exists (String a s).
Qed.

Lemma drop_sign_snoc (s : string) (c : ascii) :
  kept c = true -> exists s', drop_sign (s ++ str1 c) = (s' ++ str1 c)%string.
Proof.
  intros H. destruct s as [|a s].
  - exists EmptyString. cbn.
    assert (Ascii.eqb c "+" || Ascii.eqb c "#" = false) as ->; [|reflexivity].
    unfold kept in H. cbn in H.
    destruct (Ascii.eqb c "?"), (Ascii.eqb c "!"), (Ascii.eqb c "="),
      (Ascii.eqb c "+"), (Ascii.eqb c "#"); cbn in *; congruence.
  - cbn [append drop_sign].
    destruct (Ascii.eqb a "+" || Ascii.eqb a "#"); [now exists s|].
    now exists (String a s).
Qed.

(** Stripping the decorations keeps the first character of a SAN. *)
Lemma strippedSan_head (c : ascii) (r : string) :
  kept c = true -> exists r', strippedSan (String c r) = String c r'.
Proof.
  intros H. unfold strippedSan. cbn [drop_first].
  assert (Ascii.eqb "=" c = false) as ->.
  { unfold kept in H. cbn in H. rewrite Ascii.eqb_sym.
    destruct (Ascii.eqb c "="); [discriminate|reflexivity]. }
  rewrite reverse_cons.
  destruct (drop_marks_snoc (Json.reverse (drop_first "=" r)) c H) as (s1 & ->).
  destruct (drop_sign_snoc s1 c H) as (s2 & ->).
  rewrite reverse_snoc. now eexists.
Qed.

(** **** The strict parser finds the SAN of a legal move *)

Lemma filter_filter_implies {A : Type} (f g : A -> bool) (l : list A) :
  (forall a, f a = true -> g a = true) ->
  filter f (filter g l) = filter f l.
Proof.
  intros H. induction l as [|a l IH]; [reflexivity|]. cbn.
  destruct (g a) eqn:G; cbn.
  - now rewrite IH.
  - destruct (f a) eqn:Fa; [apply H in Fa; congruence|exact IH].
Qed.

Lemma moves_for_legal (p : Position) (forPiece : option ascii) (m : IMove) :
  In m (moves_for p forPiece) -> In m (legal p).
Proof.
  destruct forPiece as [c|]; cbn; [|easy]. intros H. now apply filter_In in H.
Qed.

(** The disambiguator looks at moves of the same kind of piece only. *)
Lemma moveToSan_moves_for (p : Position) (m : IMove) (forPiece : option ascii) :
  forPiece = None \/ forPiece = Some (type_lower (i_piece m)) ->
  moveToSan p m (moves_for p forPiece) = moveToSan p m (legal p).
Proof.
  intros [-> | ->]; [reflexivity|].
  unfold moveToSan, getDisambiguator, moves_for.
  rewrite filter_filter_implies; [reflexivity|].
  intros a H. apply andb_prop in H as [H _]. apply andb_prop in H as [H _].
  apply type_eqb_eq in H. rewrite H. apply Ascii.eqb_refl.
Qed.

Lemma san_head_kept (m : IMove) : kept (san_head m) = true.
Proof.
  unfold san_head.
  destruct (i_flag m); try reflexivity;
    (destruct (type_eqb (i_piece m) Pawn);
     [destruct (is_capture m);
      [destruct (fst (i_from m))|destruct (fst (i_to m))]
     |destruct (i_piece m)]; reflexivity).
Qed.

(** The moves a SAN is compared with include the move it is the SAN of. *)
Lemma inferPieceType_head (m : IMove) (r : string) :
  regular m = true ->
  inferPieceType (String (san_head m) r) = None
  \/ inferPieceType (String (san_head m) r) = Some (type_lower (i_piece m)).
Proof.
  unfold regular, san_head, inferPieceType.
  set (s := String _ r).
  assert (Hk : forall c, Json.code c <> 226 -> kelvin_here (String c r) = false).
  { intros c Hc. cbn. destruct r as [|c2 [|c3 r3]]; try reflexivity.
    apply Nat.eqb_neq in Hc. now rewrite Hc. }
  subst s.
  destruct (i_flag m); intros H;
    try (apply type_eqb_eq in H; rewrite H; right; rewrite Hk by (cbn; lia);
         reflexivity);
    try discriminate;
    (destruct (type_eqb (i_piece m) Pawn) eqn:P;
     [apply type_eqb_eq in P; rewrite P;
      assert (Hf : forall c, is_file_char (file_char c) = true) by (now intros []);
      destruct (is_capture m); rewrite Hf;
      match goal with |- context [two_squares ?x] => destruct (two_squares x) end;
      [now left|now right|now left|now right]
     |right; destruct (i_piece m); try discriminate;
      rewrite Hk by (cbn; lia); reflexivity]).
Qed.

Lemma head_not_special (m : IMove) (r : string) :
  String.eqb (String (san_head m) r) "0-0" = false
  /\ String.eqb (String (san_head m) r) "0-0-0" = false
  /\ String.eqb (String (san_head m) r) SAN_NULLMOVE = false.
Proof.
  assert (H : Ascii.eqb (san_head m) "0" = false /\ Ascii.eqb (san_head m) "-" = false).
  { unfold san_head.
    destruct (i_flag m); try (split; reflexivity);
      (destruct (type_eqb (i_piece m) Pawn);
       [destruct (is_capture m);
        [destruct (fst (i_from m))|destruct (fst (i_to m))]
       |destruct (i_piece m)]; split; reflexivity). }
  destruct H as [H0 H1]. unfold SAN_NULLMOVE. cbn [String.eqb].
  now rewrite H0, H1.
Qed.

Lemma moveFromSan_san (p : Position) (m : IMove) :
  In m (legal p) ->
  exists m', moveFromSan p (san_of p m) = Some m' /\ In m' (legal p).
Proof.
  intros Hin. pose proof (legal_regular p m Hin) as Hreg.
  unfold san_of.
  destruct (moveToSan_head p m (legal p) Hreg) as (r & Hs).
  destruct (strippedSan_head (san_head m) r (san_head_kept m)) as (r' & Hc).
  unfold moveFromSan. rewrite Hs, Hc.
  destruct (head_not_special m r') as (-> & -> & ->).
  set (ft := inferPieceType (String (san_head m) r')).
  assert (Hft : ft = None \/ ft = Some (type_lower (i_piece m)))
    by apply (inferPieceType_head m r' Hreg).
  assert (Hm : In m (moves_for p ft)).
  { destruct Hft as [-> | ->]; cbn; [exact Hin|].
    apply filter_In. split; [exact Hin|apply Ascii.eqb_refl]. }
  destruct (find_san p (String (san_head m) r') (moves_for p ft)) as [m'|] eqn:F.
  - exists m'. split; [reflexivity|].
    unfold find_san in F. apply find_some in F as [F _].
    eapply moves_for_legal, F.
  - exfalso. unfold find_san in F.
    apply (find_none _ _ F) in Hm. cbv beta in Hm.
    rewrite (moveToSan_moves_for p m ft Hft), Hs, Hc in Hm.
    now rewrite String.eqb_refl in Hm.
Qed.

(** **** The laws *)

Lemma find_move_legal (p : Position) (md : MoveData) (m : IMove) :
  find_move p md = Some m ->
  In m (legal p) \/ (m = null_move /\ exists notation, md = MoveString notation).
Proof.
  destruct md as [s|f t promo]; cbn [find_move].
  - unfold moveFromSan.
    match goal with |- (if ?c then _ else _) = _ -> _ => destruct c end.
    + intros H. injection H as <-. right. split; [reflexivity|now exists s].
    + match goal with |- match ?x with _ => _ end = _ -> _ => destruct x eqn:F end.
      * intros H. injection H as <-. left.
        unfold find_san in F. apply find_some in F as [F _].
        eapply moves_for_legal, F.
      * unfold find_loose.
        match goal with |- match ?x with _ => _ end = _ -> _ => destruct x end;
          [|discriminate].
        intros H. left. apply find_some in H as [H _].
        eapply moves_for_legal, H.
  - intros H. left. unfold find_object in H. now apply find_some in H.
Qed.

Lemma game_move_recorded (g : Game) (md : MoveData) (g' : Game) (m : Move) :
  game_move g md = Moved g' m ->
  color m = game_turn g /\ game_history g' = (game_history g ++ [san m])%list.
Proof.
  unfold game_move. destruct (find_move (current g) md) as [im|]; [|discriminate].
  destruct (in_check (current g) && is_null im); [discriminate|].
  intros H. injection H as <- <-. split; reflexivity.
Qed.

Lemma game_move_legal (g : Game) (md : MoveData) (g' : Game) (m : Move) :
  game_move g md = Moved g' m ->
  In m (game_moves g)
  \/ (game_isCheck g = false /\ san m = SAN_NULLMOVE
      /\ exists notation, md = MoveString notation).
Proof.
  unfold game_move. destruct (find_move (current g) md) as [im|] eqn:F; [|discriminate].
  destruct (in_check (current g) && is_null im) eqn:C; [discriminate|].
  intros H. injection H as <- <-.
  destruct (find_move_legal _ _ _ F) as [Hin|[-> Hs]].
  - left. unfold game_moves. now apply in_map.
  - right. cbn in C. rewrite andb_true_r in C. now repeat split.
Qed.

Lemma game_move_san (g : Game) (m : Move) :
  In m (game_moves g) ->
  exists g' m', game_move g (MoveString (san m)) = Moved g' m'
                /\ In m' (game_moves g).
Proof.
  unfold game_moves. intros H. apply in_map_iff in H as (im & <- & Hin).
  unfold game_move. cbn [find_move pretty san].
  destruct (moveFromSan_san (current g) im Hin) as (im' & -> & Hin').
  rewrite (regular_not_null im' (legal_regular _ _ Hin')), andb_false_r.
  eexists; eexists. split; [reflexivity|]. now apply in_map.
Qed.

Lemma game_checkmate_no_moves (g : Game) :
  game_isCheckmate g = true -> game_moves g = [].
Proof.
  unfold game_isCheckmate, in_checkmate, no_moves, game_moves.
  intros H. apply andb_prop in H as [_ H].
  destruct (legal (current g)); [reflexivity|discriminate].
Qed.

Lemma game_checkmate_check (g : Game) :
  game_isCheckmate g = true -> game_isCheck g = true.
Proof.
  unfold game_isCheckmate, in_checkmate, game_isCheck.
  intros H. now apply andb_prop in H as [H _].
Qed.

Lemma game_load_check (g c : Game) :
  load (game_fen g) = Some c -> game_isCheck c = game_isCheck g.
Proof. rewrite load_game_fen. intros H. now injection H as <-. Qed.

Lemma game_load_fen (g : Game) :
  exists c, load (game_fen g) = Some c /\ game_fen c = game_fen g
            /\ game_history c = []
            /\ game_turn c = game_turn g
            /\ (forall sq, game_get c sq = game_get g sq)
            /\ game_moves c = game_moves g.
Proof.
  exists (mkGame (current g) []). split; [apply load_game_fen|].
  repeat split; reflexivity.
Qed.

Lemma new_game_fen : game_fen new_game = DEFAULT_POSITION.
Proof. vm_compute. reflexivity. Qed.

#[export] Instance engine : RulesEngine := {|
  Chess := Game;
  new_Chess := new_game;
  load_Chess := load;
  fen := game_fen;
  turn := game_turn;
  get := game_get;
  legal_moves := game_moves;
  Chess_move := game_move;
  undo := game_undo;
  history := game_history;
  isCheck := game_isCheck;
  isCheckmate := game_isCheckmate;
  isDraw := game_isDraw;
  isGameOver := game_isGameOver;
  new_fen := new_game_fen;
  new_history := eq_refl;
  load_fen := game_load_fen;
  undo_nothing := game_undo_nothing;
  load_check := game_load_check;
  move_recorded := game_move_recorded;
  move_legal := game_move_legal;
  move_san := game_move_san;
  checkmate_no_moves := game_checkmate_no_moves;
  checkmate_check := game_checkmate_check
|}.

End Ref.

(** ** Properties of the controller, for every rules engine *)

Section ControllerFacts.

Context {E : RulesEngine}.

(** [makeMove] either commits the engine's result or changes nothing. *)
Lemma makeMoveFrom_cases (game0 : Chess) (md : MoveData) (st : AppState) :
  (engine_result (fen game0) md = None /\ makeMoveFrom game0 md st = (st, false))
  \/ (exists g' m,
        engine_result (fen game0) md = Some (g', m)
        /\ makeMoveFrom game0 md st
           = (setValidMoves [] (setSelectedSquare None (handleCapture m (setGame g' st))),
              true)).
Proof.
  unfold engine_result, makeMoveFrom.
  destruct (load_Chess (fen game0)) as [c|]; [|now left].
  destruct (Chess_move c md) as [g' m| |]; [right|now left|now left].
  now exists g', m.
Qed.

Lemma handleCapture_game (m : Move) (st : AppState) :
  game (handleCapture m st) = game st
  /\ selectedSquare (handleCapture m st) = selectedSquare st
  /\ validMoves (handleCapture m st) = validMoves st
  /\ isAiThinking (handleCapture m st) = isAiThinking st
  /\ aiAnalysis (handleCapture m st) = aiAnalysis st.
Proof.
  unfold handleCapture.
  destruct (captured m); [destruct (color_eqb (color m) White)|]; now repeat split.
Qed.

(** What the engine says about the copy [makeMove] works on holds of the
    game the copy was made from. *)
Lemma engine_result_recorded (g : Chess) (md : MoveData) (g' : Chess) (m : Move) :
  engine_result (fen g) md = Some (g', m) ->
  color m = turn g /\ history g' = [san m].
Proof.
  unfold engine_result.
  destruct (load_fen g) as (c & -> & _ & Hh & Ht & _ & _).
  destruct (Chess_move c md) as [c' m'| |] eqn:Hm; try discriminate.
  intros H. injection H as -> ->.
  apply move_recorded in Hm as (Hc & Hist).
  rewrite Ht in Hc. rewrite Hh in Hist. now split.
Qed.

Lemma engine_result_legal (g : Chess) (md : MoveData) (g' : Chess) (m : Move) :
  engine_result (fen g) md = Some (g', m) ->
  In m (legal_moves g)
  \/ (isCheck g = false /\ san m = SAN_NULLMOVE
      /\ exists notation, md = MoveString notation).
Proof.
  unfold engine_result.
  destruct (load_fen g) as (c & Hload & _ & _ & _ & _ & Hl).
  rewrite Hload.
  destruct (Chess_move c md) as [c' m'| |] eqn:Hm; try discriminate.
  intros H. injection H as -> ->.
  apply move_legal in Hm as [Hin|(Hc & Hs & Hn)].
  - left. now rewrite <- Hl.
  - right. rewrite <- (load_check g c Hload). now repeat split.
Qed.

Lemma engine_result_object (g : Chess) (from_sq to_sq : string) (promo : option string)
  (g' : Chess) (m : Move) :
  engine_result (fen g) (MoveObject from_sq to_sq promo) = Some (g', m) ->
  In m (legal_moves g).
Proof.
  intros H. apply engine_result_legal in H as [H|(_ & _ & s & Hs)];
    [exact H|discriminate].
Qed.

Lemma engine_result_san (g : Chess) (notation : string) :
  In notation (moves g) ->
  exists g' m, engine_result (fen g) (MoveString notation) = Some (g', m)
               /\ In m (legal_moves g).
Proof.
  unfold moves, engine_result. intros H.
  apply in_map_iff in H as (m & <- & Hin).
  destruct (load_fen g) as (c & -> & _ & _ & _ & _ & Hl).
  rewrite <- Hl in Hin.
  destruct (move_san c m Hin) as (g' & m' & -> & Hin').
  exists g', m'. rewrite <- Hl. now split.
Qed.

(** In checkmate the engine refuses everything. *)
Lemma engine_result_checkmate (g : Chess) (md : MoveData) :
  isCheckmate g = true -> engine_result (fen g) md = None.
Proof.
  intros Hmate.
  destruct (engine_result (fen g) md) as [[g' m]|] eqn:H; [|reflexivity].
  apply engine_result_legal in H as [Hin|(Hc & _)].
  - rewrite (checkmate_no_moves g Hmate) in Hin. destruct Hin.
  - rewrite (checkmate_check g Hmate) in Hc. discriminate.
Qed.

(** Without a legal move the engine accepts nothing but the null move. *)
Lemma engine_result_no_moves (g : Chess) (md : MoveData) (g' : Chess) (m : Move) :
  legal_moves g = [] -> engine_result (fen g) md = Some (g', m) ->
  isCheck g = false /\ san m = SAN_NULLMOVE
  /\ exists notation, md = MoveString notation.
Proof.
  intros Hnil H. apply engine_result_legal in H as [Hin|H]; [|exact H].
  rewrite Hnil in Hin. destruct Hin.
Qed.

(** [undoMove] rebuilds the game from its FEN, so the copy has no move to
    take back: the position stays. *)
Lemma undoMove_position (st : AppState) :
  position (undoMove st) = position st
  /\ history (game (undoMove st)) = []
  /\ aiAnalysis (undoMove st) = None
  /\ turn (game (undoMove st)) = turn (game st)
  /\ (forall sq, get (game (undoMove st)) sq = get (game st) sq)
  /\ selectedSquare (undoMove st) = selectedSquare st.
Proof.
  unfold undoMove, position.
  destruct (load_fen (game st)) as (c & -> & Hf & Hh & Ht & Hg & _).
  cbn [setAiAnalysis setGame game aiAnalysis selectedSquare].
  rewrite (undo_nothing c Hh). now repeat split.
Qed.

(** *** The random index

    The product of the draw and the length is rounded to a double before
    it is truncated. *)

Lemma round_half_even_bounds (M s : Z) :
  (0 <= M)%Z -> (0 < s)%Z ->
  (M / 2 ^ s <= round_half_even M s)%Z
  /\ (2 * (round_half_even M s * 2 ^ s) <= 2 * M + 2 ^ s)%Z.
Proof.
  intros HM Hs. unfold round_half_even.
  destruct (Z.leb_spec s 0) as [|_]; [lia|].
  assert (Hp : (0 < 2 ^ s)%Z) by (apply Z.pow_pos_nonneg; lia).
  assert (Hh : (2 ^ s = 2 * 2 ^ (s - 1))%Z).
  { replace s with (Z.succ (s - 1)) at 1 by lia. apply Z.pow_succ_r. lia. }
  pose proof (Z.div_mod M (2 ^ s) ltac:(lia)) as Hdm.
  pose proof (Z.mod_pos_bound M (2 ^ s) Hp) as Hr.
  set (q := (M / 2 ^ s)%Z) in *. set (r := (M mod 2 ^ s)%Z) in *.
  set (h := (2 ^ (s - 1))%Z) in *.
  destruct (Z.ltb_spec r h); [split; nia|].
  destruct (Z.ltb_spec h r); [split; nia|].
  destruct (Z.even q); split; nia.
Qed.

Lemma round_half_even_zero (M s : Z) : (s <= 0)%Z -> round_half_even M s = M.
Proof. intros H. unfold round_half_even. now destruct (Z.leb_spec s 0); [|lia]. Qed.

(** Rounding stays below [T] when [M] is below it by the fraction 2^-53. *)
Lemma round_below (M T : Z) :
  (0 <= M)%Z -> (0 < T)%Z -> (M * 2 ^ 53 <= T * (2 ^ 53 - 1))%Z ->
  let s := Z.max 0 (Z.log2 M + 1 - 53) in
  (round_half_even M s * 2 ^ s < T)%Z.
Proof.
  intros HM HT0 HT s.
  assert (H53 : (0 < 2 ^ 53)%Z) by reflexivity.
  destruct (Z.max_spec 0 (Z.log2 M + 1 - 53)) as [[Hlt Hs]|[Hge Hs]];
    fold s in Hs; rewrite Hs.
  - assert (H0 : (0 < M)%Z).
    { destruct (Z.eq_dec M 0) as [->|]; [cbn in Hlt; lia|lia]. }
    pose proof (Z.log2_spec M H0) as [Hlo _].
    assert (Hs0 : (0 < Z.log2 M + 1 - 53)%Z) by lia.
    destruct (round_half_even_bounds M (Z.log2 M + 1 - 53) HM Hs0) as [_ Hup].
    set (u := (Z.log2 M + 1 - 53)%Z) in *.
    assert (Hpu : (0 < 2 ^ u)%Z) by (apply Z.pow_pos_nonneg; lia).
    assert (Hlog : (2 ^ Z.log2 M = 2 ^ u * 2 ^ 52)%Z).
    { rewrite <- Z.pow_add_r by lia. f_equal. lia. }
    rewrite Hlog in Hlo.
    change (2 ^ 53)%Z with (2 * 2 ^ 52)%Z in HT.
    assert (H52 : (0 < 2 ^ 52)%Z) by reflexivity.
    set (c := (2 ^ 52)%Z) in *. set (p := (2 ^ u)%Z) in *.
    set (R := (round_half_even M u * p)%Z) in *.
    nia.
  - rewrite round_half_even_zero by lia. rewrite Z.pow_0_r.
    set (c := (2 ^ 53)%Z) in *. nia.
Qed.

Lemma double_below_one (m t : Z) :
  (0 <= m < 2 ^ 53)%Z -> (0 <= t)%Z -> (m < 2 ^ t)%Z ->
  (m * 2 ^ 53 <= 2 ^ t * (2 ^ 53 - 1))%Z.
Proof.
  intros [Hm0 Hm] Ht Hlt.
  assert (Hpt : (0 < 2 ^ t)%Z) by (apply Z.pow_pos_nonneg; lia).
  destruct (Z.le_gt_cases t 53) as [Hle|Hgt].
  - assert (Hpow : (2 ^ t <= 2 ^ 53)%Z) by (apply Z.pow_le_mono_r; lia).
    set (c := (2 ^ 53)%Z) in *. set (p := (2 ^ t)%Z) in *. nia.
  - assert (Hpow : (2 ^ t = 2 ^ (t - 53) * 2 ^ 53)%Z).
    { rewrite <- Z.pow_add_r by lia. f_equal. lia. }
    assert (Hk : (2 <= 2 ^ (t - 53))%Z).
    { change 2%Z with (2 ^ 1)%Z at 1. apply Z.pow_le_mono_r; lia. }
    set (c := (2 ^ 53)%Z) in *. set (k := (2 ^ (t - 53))%Z) in *.
    assert (Hc : (0 < c)%Z) by reflexivity.
    rewrite Hpow. nia.
Qed.

(** What [is_double] says of a draw. *)
Lemma is_double_spec (rnd : Q) :
  is_double rnd = true ->
  let t := Z.log2 (Z.pos (Qden rnd)) in
  (0 <= Qnum rnd < 2 ^ 53)%Z /\ Z.pos (Qden rnd) = (2 ^ t)%Z /\ (0 <= t <= 1074)%Z.
Proof.
  unfold is_double. intros H. cbv zeta.
  apply andb_prop in H as [H Ht]. apply andb_prop in H as [H Hd].
  apply andb_prop in H as [H0 H1].
  apply Z.leb_le in H0, Ht. apply Z.ltb_lt in H1. apply Z.eqb_eq in Hd.
  pose proof (Z.log2_nonneg (Z.pos (Qden rnd))). lia.
Qed.

(** The index is below [N] when the exact product is below it by 2^-53. *)
Lemma random_index_below (rnd : Q) (n : nat) (N : Z) :
  is_double rnd = true -> (0 < N)%Z ->
  (Qnum rnd * Z.of_nat n * 2 ^ 53 <= N * Z.pos (Qden rnd) * (2 ^ 53 - 1))%Z ->
  (Z.of_nat (random_index rnd n) < N)%Z.
Proof.
  intros Hd HN Hle. pose proof (is_double_spec rnd Hd) as Hspec; cbv zeta in Hspec;
    destruct Hspec as (Hm & Hden & Ht).
  unfold random_index, round_double.
  set (t := Z.log2 (Z.pos (Qden rnd))) in *.
  set (M := (Qnum rnd * Z.of_nat n)%Z) in *.
  set (s := Z.max 0 (Z.log2 M + 1 - 53)).
  assert (HM : (0 <= M)%Z) by (unfold M; nia).
  assert (Hpt : (0 < 2 ^ t)%Z) by (apply Z.pow_pos_nonneg; lia).
  assert (Hs : (0 <= s)%Z) by (unfold s; lia).
  assert (Hps : (0 < 2 ^ s)%Z) by (apply Z.pow_pos_nonneg; lia).
  assert (Hup : (round_half_even M s * 2 ^ s < N * 2 ^ t)%Z).
  { apply round_below; [exact HM|nia|]. rewrite <- Hden. lia. }
  assert (Hq : (0 <= round_half_even M s)%Z).
  { destruct (Z.eq_dec s 0) as [Ez|Ez].
    - rewrite Ez, round_half_even_zero by lia. exact HM.
    - destruct (round_half_even_bounds M s HM ltac:(lia)) as [Hlo _].
      pose proof (Z.div_pos M (2 ^ s) HM Hps). lia. }
  set (q := round_half_even M s) in *.
  destruct (Z.le_gt_cases 0 (- t + s)) as [He|He].
  - rewrite Z.shiftl_mul_pow2 by exact He.
    assert (Hpe : (0 < 2 ^ (- t + s))%Z) by (apply Z.pow_pos_nonneg; lia).
    rewrite Z2Nat.id by nia.
    assert (Hsplit : (2 ^ s = 2 ^ (- t + s) * 2 ^ t)%Z).
    { rewrite <- Z.pow_add_r by lia. f_equal. lia. }
    rewrite Hsplit in Hup. nia.
  - rewrite Z.shiftl_div_pow2 by lia.
    assert (Hpe : (0 < 2 ^ (- (- t + s)))%Z) by (apply Z.pow_pos_nonneg; lia).
    rewrite Z2Nat.id by (apply Z.div_pos; lia).
    apply Z.div_lt_upper_bound; [exact Hpe|].
    assert (Hsplit : (2 ^ t = 2 ^ (- (- t + s)) * 2 ^ s)%Z).
    { rewrite <- Z.pow_add_r by lia. f_equal. lia. }
    rewrite Hsplit in Hup. nia.
Qed.

(** The index is at least [k] when the exact product is. *)
Lemma random_index_above (rnd : Q) (n : nat) (k : Z) :
  is_double rnd = true -> (Qnum rnd < Z.pos (Qden rnd))%Z ->
  (Z.of_nat n <= 2 ^ 53)%Z -> (0 <= k)%Z ->
  (k * Z.pos (Qden rnd) <= Qnum rnd * Z.of_nat n)%Z ->
  (k <= Z.of_nat (random_index rnd n))%Z.
Proof.
  intros Hd Hlt Hn Hk Hle. pose proof (is_double_spec rnd Hd) as Hspec; cbv zeta in Hspec;
    destruct Hspec as (Hm & Hden & Ht).
  unfold random_index, round_double.
  set (t := Z.log2 (Z.pos (Qden rnd))) in *.
  set (M := (Qnum rnd * Z.of_nat n)%Z) in *.
  set (s := Z.max 0 (Z.log2 M + 1 - 53)).
  rewrite Hden in Hlt, Hle.
  assert (HM : (0 <= M)%Z) by (unfold M; nia).
  assert (Hpt : (0 < 2 ^ t)%Z) by (apply Z.pow_pos_nonneg; lia).
  assert (Hst : (0 <= s <= t)%Z).
  { unfold s. split; [lia|]. apply Z.max_lub; [lia|].
    destruct (Z.eq_dec M 0) as [Ez|Ez];
      [rewrite Ez; change (Z.log2 0) with 0%Z; lia|].
    assert (Hb : (M < 2 ^ (t + 53))%Z).
    { rewrite Z.pow_add_r by lia. set (c := (2 ^ 53)%Z) in *.
      assert (0 < c)%Z by reflexivity. unfold M. nia. }
    apply Z.log2_lt_pow2 in Hb; lia. }
  assert (Hps : (0 < 2 ^ s)%Z) by (apply Z.pow_pos_nonneg; lia).
  assert (Hq : (M / 2 ^ s <= round_half_even M s)%Z).
  { destruct (Z.eq_dec s 0) as [Ez|Ez].
    - rewrite Ez, round_half_even_zero, Z.pow_0_r, Z.div_1_r by lia. lia.
    - now destruct (round_half_even_bounds M s HM ltac:(lia)). }
  assert (Hsplit : (2 ^ t = 2 ^ (t - s) * 2 ^ s)%Z).
  { rewrite <- Z.pow_add_r by lia. f_equal. lia. }
  assert (Hpe : (0 < 2 ^ (t - s))%Z) by (apply Z.pow_pos_nonneg; lia).
  assert (Hkq : (k * 2 ^ (t - s) <= M / 2 ^ s)%Z).
  { apply Z.div_le_lower_bound; [exact Hps|]. rewrite Hsplit in Hle. nia. }
  set (q := round_half_even M s) in *.
  destruct (Z.eq_dec s t) as [Ez|Ez].
  - replace (- t + s)%Z with 0%Z by lia. rewrite Z.shiftl_0_r.
    replace (t - s)%Z with 0%Z in Hkq by lia. rewrite Z.pow_0_r in Hkq.
    rewrite Z2Nat.id by lia. lia.
  - rewrite Z.shiftl_div_pow2 by lia.
    replace (- (- t + s))%Z with (t - s)%Z by lia.
    assert (Hd2 : (k <= q / 2 ^ (t - s))%Z).
    { apply Z.div_le_lower_bound; [exact Hpe|]. nia. }
    rewrite Z2Nat.id by lia. exact Hd2.
Qed.

Lemma random_index_lt (rnd : Q) (n : nat) :
  is_double rnd = true -> (rnd < 1)%Q -> 0 < n -> random_index rnd n < n.
Proof.
  intros Hd H1 Hn. pose proof (is_double_spec rnd Hd) as Hspec; cbv zeta in Hspec;
    destruct Hspec as (Hm & Hden & Ht).
  apply Nat2Z.inj_lt. apply random_index_below; [exact Hd|lia|].
  unfold Qlt in H1. cbn in H1. rewrite Z.mul_1_r in H1.
  pose proof (double_below_one (Qnum rnd) _ Hm (proj1 Ht)) as Hb.
  rewrite <- Hden in Hb. specialize (Hb ltac:(lia)).
  set (c := (2 ^ 53)%Z) in *. assert (0 < c)%Z by reflexivity. nia.
Qed.

(** The draws from [k / n] to [(k + 1) / n], less one part in 2^53, give
    the index [k]. *)
Lemma random_index_between (rnd : Q) (n k : nat) :
  is_double rnd = true -> (rnd < 1)%Q -> (Z.of_nat n <= 2 ^ 53)%Z ->
  (inject_Z (Z.of_nat k) <= rnd * inject_Z (Z.of_nat n))%Q ->
  (rnd * inject_Z (Z.of_nat n) <= inject_Z (Z.of_nat k + 1) * below_one)%Q ->
  random_index rnd n = k.
Proof.
  intros Hd H1 Hn Hlo Hhi.
  unfold Qlt in H1. unfold Qle in Hlo, Hhi. cbn in H1, Hlo, Hhi.
  rewrite ?Z.mul_1_r, ?Pos.mul_1_r in *.
  apply Nat2Z.inj. apply Z.le_antisymm.
  - apply Z.lt_succ_r. apply random_index_below; [exact Hd|lia|].
    change (2 ^ 53)%Z with 9007199254740992%Z.
    change (Z.pos 9007199254740992) with 9007199254740992%Z in Hhi.
    lia.
  - apply random_index_above; [exact Hd|lia|exact Hn|lia|lia].
Qed.

(** X13. The index the code computes, against the exact product
    [x = rnd * n] of a draw below one and a length below 2^53.  The draws
    with [k <= x <= (k + 1) * (1 - 2^-53)] give the index [k]; a draw that
    gives [k] has [k * (1 - 2^-53) <= x < k + 1]; and the index is the
    integer part of [x] or, when rounding the product reaches the next
    integer, one more. *)
Theorem random_index_spec (rnd : Q) (n k : nat) :
  is_double rnd = true -> (rnd < 1)%Q -> (Z.of_nat n < 2 ^ 53)%Z ->
  let x := (rnd * inject_Z (Z.of_nat n))%Q in
  ((inject_Z (Z.of_nat k) <= x)%Q ->
   (x <= inject_Z (Z.of_nat k + 1) * below_one)%Q ->
   random_index rnd n = k)
  /\ (random_index rnd n = k ->
      (inject_Z (Z.of_nat k) * below_one <= x)%Q
      /\ (x < inject_Z (Z.of_nat k + 1))%Q)
  /\ (Z.of_nat (random_index rnd n) = Qfloor x
      \/ Z.of_nat (random_index rnd n) = (Qfloor x + 1)%Z).
Proof.
  intros Hd H1 Hn x. subst x.
  pose proof (is_double_spec rnd Hd) as Hspec; cbv zeta in Hspec;
    destruct Hspec as (Hm & Hden & Ht).
  assert (Hlt : (Qnum rnd < Z.pos (Qden rnd))%Z).
  { unfold Qlt in H1. cbn in H1. lia. }
  split; [|split].
  - intros Hlo Hhi. apply random_index_between; try assumption. lia.
  - intros Hk. split.
    + destruct k as [|k'].
      * unfold Qle. cbn. nia.
      * apply Qnot_lt_le. intros Hc.
        assert (Hb : (Z.of_nat (random_index rnd n) < Z.of_nat (S k'))%Z).
        { apply random_index_below; [exact Hd|lia|].
          unfold Qlt in Hc. cbn in Hc.
          rewrite ?Z.mul_1_r, ?Pos.mul_1_r in Hc.
          change (2 ^ 53)%Z with 9007199254740992%Z.
          change (Z.pos 9007199254740992) with 9007199254740992%Z in Hc.
          lia. }
        lia.
    + apply Qnot_le_lt. intros Hc.
      assert (Ha : (Z.of_nat k + 1 <= Z.of_nat (random_index rnd n))%Z).
      { apply random_index_above; [exact Hd|exact Hlt|lia|lia|].
        unfold Qle in Hc. cbn in Hc.
        rewrite ?Z.mul_1_r, ?Pos.mul_1_r in Hc. lia. }
      lia.
  - set (M := (Qnum rnd * Z.of_nat n)%Z).
    set (d := Z.pos (Qden rnd)) in *.
    assert (Hf : Qfloor (rnd * inject_Z (Z.of_nat n)) = (M / d)%Z).
    { unfold Qfloor, Qmult, inject_Z. cbn [Qnum Qden].
      now rewrite Pos.mul_1_r. }
    rewrite Hf.
    assert (Hd0 : (0 < d)%Z) by (unfold d; lia).
    assert (HM : (0 <= M)%Z) by (unfold M; nia).
    pose proof (Z.div_mod M d ltac:(lia)) as Hdm.
    pose proof (Z.mod_pos_bound M d Hd0) as Hr.
    assert (Hf0 : (0 <= M / d)%Z) by (apply Z.div_pos; lia).
    assert (Hfn : (M / d + 2 <= 2 ^ 53)%Z).
    { destruct (Z.eq_dec (Z.of_nat n) 0) as [Hz|Hz].
      - unfold M. rewrite Hz, Z.mul_0_r. cbn. lia.
      - assert (M / d < Z.of_nat n)%Z; [|lia].
        apply Z.div_lt_upper_bound; [exact Hd0|]. unfold M. nia. }
    assert (Hlo : (M / d <= Z.of_nat (random_index rnd n))%Z).
    { apply random_index_above; [exact Hd|exact Hlt|lia|exact Hf0|].
      fold d. fold M. nia. }
    assert (Hhi : (Z.of_nat (random_index rnd n) < M / d + 2)%Z).
    { apply random_index_below; [exact Hd|lia|]. fold d. fold M.
      set (c := (2 ^ 53)%Z) in *. set (f := (M / d)%Z) in *.
      nia. }
    lia.
Qed.

(** *** Selection *)

Lemma selection_ok_frame (st st' : AppState) :
  game st' = game st -> selectedSquare st' = selectedSquare st ->
  selection_ok st -> selection_ok st'.
Proof.
  unfold selection_ok. intros Hg Hs H sq Hsq.
  rewrite Hg. rewrite Hs in Hsq. now apply H.
Qed.

Lemma selection_ok_none (st : AppState) :
  selectedSquare st = None -> selection_ok st.
Proof. unfold selection_ok. intros -> sq H. discriminate. Qed.

Lemma makeMoveFrom_selection (game0 : Chess) (md : MoveData) (st : AppState) :
  selection_ok st -> selection_ok (fst (makeMoveFrom game0 md st)).
Proof.
  intros H.
  destruct (makeMoveFrom_cases game0 md st) as [[_ ->]|(g' & m & _ & ->)];
    [exact H|].
  now apply selection_ok_none.
Qed.

Lemma selectPiece_selection (square : string) (st : AppState) :
  selection_ok (selectPiece square st).
Proof.
  unfold selectPiece.
  destruct (get (game st) square) as [p|] eqn:Hp;
    [destruct (color_eqb (pcolor p) (turn (game st))) eqn:Hc|];
    try now apply selection_ok_none.
  intros sq Hsq. cbn in Hsq. injection Hsq as <-.
  exists p. cbn. split; [assumption|].
  destruct (pcolor p), (turn (game st)); now try discriminate.
Qed.

Lemma onSquareClick_selection (square : string) (st : AppState) :
  selection_ok st -> selection_ok (onSquareClick square st).
Proof.
  intros H. unfold onSquareClick.
  destruct (isGameOver (game st) || isAiThinking st); [exact H|].
  destruct (selectedSquare st) as [sel|]; [|apply selectPiece_selection].
  destruct (truthy (Some sel)); [|apply selectPiece_selection].
  destruct (String.eqb sel square); [now apply selection_ok_none|].
  unfold makeMove.
  destruct (makeMoveFrom_cases (game st) (MoveObject sel square (Some "q")) st)
    as [[_ ->]|(g' & m & _ & ->)].
  - apply selectPiece_selection.
  - now apply selection_ok_none.
Qed.

Lemma undoMove_selection (st : AppState) :
  selection_ok st -> selection_ok (undoMove st).
Proof.
  intros H sq Hsq.
  destruct (undoMove_position st) as (_ & _ & _ & Ht & Hg & Hs).
  rewrite Hs in Hsq. rewrite Ht, Hg. now apply H.
Qed.

Lemma aiBegin_selection (st st' : AppState) :
  aiBegin st = Some st' -> selection_ok st -> selection_ok st'.
Proof.
  unfold aiBegin. destruct (isGameOver (game st) || isAiThinking st); [discriminate|].
  intros H. injection H as <-. now apply selection_ok_frame.
Qed.

Lemma aiSettle_selection (c : Completion AIMoveResponse) (st : AppState) :
  selection_ok st -> selection_ok (fst (aiSettle c st)).
Proof.
  unfold aiSettle. destruct c as [|r]; [|destruct (truthy (Some (move r)))];
    now apply selection_ok_frame.
Qed.

Lemma aiTimeout_selection (game0 : Chess) (r : AIMoveResponse) (rnd : Q)
  (st : AppState) :
  selection_ok st -> selection_ok (aiTimeout game0 r rnd st).
Proof.
  intros H. unfold aiTimeout.
  pose proof (makeMoveFrom_selection game0 (MoveString (move r)) st H) as H1.
  destruct (makeMoveFrom game0 (MoveString (move r)) st) as [st1 moved].
  cbn [fst] in H1.
  apply selection_ok_frame with
    (st := if moved then st1
           else
             if 0 <? List.length (moves game0)
             then match nth_error (moves game0)
                          (random_index rnd (List.length (moves game0))) with
                  | Some notation =>
                      fst (makeMoveFrom game0 (MoveString notation)
                             (setAiAnalysis (Some FALLBACK_NOTICE) st1))
                  | None => setAiAnalysis (Some FALLBACK_NOTICE) st1
                  end
             else setAiAnalysis (Some FALLBACK_NOTICE) st1);
    [reflexivity|reflexivity|].
  assert (H2 : selection_ok (setAiAnalysis (Some FALLBACK_NOTICE) st1))
    by now apply selection_ok_frame with (st := st1).
  destruct moved; [exact H1|].
  destruct (0 <? List.length (moves game0)); [|exact H2].
  destruct (nth_error _ _); [|exact H2].
  now apply makeMoveFrom_selection.
Qed.

Lemma step_selection (s : Session) (e : Event) :
  selection_ok (app s) -> selection_ok (app (step s e)).
Proof.
  intros H. destruct e as [sq| | |md| |c|rnd]; cbn [step app].
  - now apply onSquareClick_selection.
  - now apply selection_ok_none.
  - now apply undoMove_selection.
  - now apply makeMoveFrom_selection.
  - destruct (aiBegin (app s)) as [st|] eqn:Hb; [|exact H].
    cbn [app]. now apply (aiBegin_selection (app s)).
  - destruct (pending s) as [|game0|game0 r]; try exact H.
    pose proof (aiSettle_selection c (app s) H) as H1.
    destruct (aiSettle c (app s)) as [st [r|]]; exact H1.
  - destruct (pending s) as [|game0|game0 r]; try exact H.
    cbn [app]. now apply aiTimeout_selection.
Qed.

Lemma run_selection (events : list Event) :
  forall s, selection_ok (app s) -> selection_ok (app (run events s)).
Proof.
  induction events as [|e r IH]; intros s H; [exact H|].
  cbn [run fold_left]. apply IH. now apply step_selection.
Qed.

(** At most one advisor request is in flight: while one is, the thinking
    flag is up. *)
Lemma step_pending (s : Session) (e : Event) :
  (pending s <> Idle -> isAiThinking (app s) = true) ->
  pending (step s e) <> Idle -> isAiThinking (app (step s e)) = true.
Proof.
  intros H. destruct e as [sq| | |md| |c|rnd]; cbn [step].
  - cbn [app pending]. intros Hp. specialize (H Hp).
    unfold onSquareClick. rewrite H, orb_true_r. exact H.
  - cbn [app pending]. exact H.
  - cbn [app pending]. intros Hp. specialize (H Hp). unfold undoMove.
    destruct (load_Chess (fen (game (app s)))); exact H.
  - cbn [app pending]. intros Hp. specialize (H Hp). unfold makeMove.
    destruct (makeMoveFrom_cases (game (app s)) md (app s))
      as [[_ ->]|(g' & m & _ & ->)]; [exact H|].
    cbn. now rewrite (proj1 (proj2 (proj2 (proj2 (handleCapture_game m _))))).
  - unfold aiBegin. destruct (isGameOver (game (app s)) || isAiThinking (app s));
      [exact H|reflexivity].
  - destruct (pending s) as [|game0|game0 r] eqn:Hp;
      [rewrite Hp; exact H| |rewrite Hp; exact H].
    assert (Ht : isAiThinking (app s) = true) by (apply H; discriminate).
    unfold aiSettle. destruct c as [|r]; [cbn; congruence|].
    destruct (truthy (Some (move r))); [intros _; exact Ht|cbn; congruence].
  - destruct (pending s) as [|game0|game0 r] eqn:Hp;
      [rewrite Hp; exact H|rewrite Hp; exact H|].
    cbn; congruence.
Qed.

Lemma run_pending (events : list Event) :
  forall s,
    (pending s <> Idle -> isAiThinking (app s) = true) ->
    pending (run events s) <> Idle -> isAiThinking (app (run events s)) = true.
Proof.
  induction events as [|e r IH]; intros s H; [exact H|].
  cbn [run fold_left]. apply IH. now apply step_pending.
Qed.

(** The guard of [triggerAiMove] therefore never lets a second request
    start while one is in flight. *)
Lemma one_request_in_flight (events : list Event) :
  pending (run events initialSession) <> Idle ->
  aiBegin (app (run events initialSession)) = None.
Proof.
  intros H. apply run_pending in H; [|now intros []].
  unfold aiBegin. now rewrite H, orb_true_r.
Qed.

(** *** The stated properties *)


(** C6. An accepted move whose result reports a captured piece appends
    exactly one entry to the ledger of the mover's colour, of the captured
    type and of the opponent's colour, and leaves the other ledger alone; an
    accepted move without a capture changes neither ledger. *)
Theorem capture_bookkeeping (st : AppState) (md : MoveData) (g' : Chess) (m : Move) :
  engine_result (position st) md = Some (g', m) ->
  let st' := fst (makeMove md st) in
  snd (makeMove md st) = true
  /\ color m = turn (game st)
  /\ match captured m, color m with
     | Some t, White =>
         capturedByWhite st' = capturedByWhite st ++ [mkPiece t Black]
         /\ capturedByBlack st' = capturedByBlack st
     | Some t, Black =>
         capturedByBlack st' = capturedByBlack st ++ [mkPiece t White]
         /\ capturedByWhite st' = capturedByWhite st
     | None, _ =>
         capturedByWhite st' = capturedByWhite st
         /\ capturedByBlack st' = capturedByBlack st
     end.
Proof.
  intros H st'. subst st'. unfold makeMove, position in *.
  destruct (engine_result_recorded _ _ _ _ H) as (Hc & _).
  destruct (makeMoveFrom_cases (game st) md st) as [[Hr _]|(g2 & m2 & Hr & ->)];
    [congruence|].
  rewrite H in Hr. injection Hr as <- <-.
  split; [reflexivity|]. split; [exact Hc|].
  cbn [fst]. unfold handleCapture.
  destruct (captured m) as [t|]; destruct (color m); cbn; now split.
Qed.

(** C7. From any state, [resetGame] gives the standard starting position
    and an empty selection, destination list, move history, pair of ledgers
    and analysis text. *)
Theorem resetGame_clears (st : AppState) :
  position (resetGame st) = DEFAULT_POSITION
  /\ selectedSquare (resetGame st) = None
  /\ validMoves (resetGame st) = []
  /\ history (game (resetGame st)) = []
  /\ capturedByWhite (resetGame st) = []
  /\ capturedByBlack (resetGame st) = []
  /\ aiAnalysis (resetGame st) = None.
Proof.
  unfold position. cbn. rewrite new_fen, new_history. now repeat split.
Qed.

(** C8. After any sequence of controller operations from the initial
    session (clicks, direct moves, undo, new game, and the three turns of
    the AI orchestration, in any order), a selected square holds a piece of
    the side to move in the current Position. *)
Theorem selection_invariant (events : list Event) :
  selection_ok (app (run events initialSession)).
Proof.
  apply run_selection. now apply selection_ok_none.
Qed.

(** C9. When the advisor's promise is rejected, the orchestration ends with
    the analysis text "Error communicating with AI." and the thinking flag
    down; the Position, the history, the ledgers and the selection are as
    before. *)
Theorem ai_failure_surfaced (st : AppState) (rnd : Q) :
  isGameOver (game st) = false -> isAiThinking st = false ->
  let st' := triggerAiMove st Rejected rnd in
  aiAnalysis st' = Some "Error communicating with AI."
  /\ isAiThinking st' = false
  /\ game st' = game st
  /\ capturedByWhite st' = capturedByWhite st
  /\ capturedByBlack st' = capturedByBlack st
  /\ selectedSquare st' = selectedSquare st
  /\ validMoves st' = validMoves st.
Proof.
  intros Hg Ht. unfold triggerAiMove, aiBegin. rewrite Hg, Ht.
  cbn. now repeat split.
Qed.

(** C10. When the advisor's result has an empty move string, only the
    analysis text (now the no-move notice) and the thinking flag (now down)
    change: no move is applied, neither the suggestion nor a random one. *)
Theorem ai_empty_move (st : AppState) (r : AIMoveResponse) (rnd : Q) :
  isGameOver (game st) = false -> isAiThinking st = false ->
  move r = EmptyString ->
  triggerAiMove st (Fulfilled r) rnd
  = mkAppState (game st) (selectedSquare st) (validMoves st) false
               (Some "AI couldn't find a move.")
               (capturedByWhite st) (capturedByBlack st).
Proof.
  intros Hg Ht Hm. unfold triggerAiMove, aiBegin, aiSettle. rewrite Hg, Ht, Hm.
  reflexivity.
Qed.

(** C4, as the code has it. In a terminal Position [onSquareClick] and
    [triggerAiMove] do nothing.  [makeMove] has no gate of its own: what it
    does is what the engine does.  In checkmate it fails, changing nothing,
    whatever the move.  In a Position without a legal move it fails for
    every move object; a string fails too unless the engine reads it as the
    null move [--], which it plays when the side to move is not in check
    (stalemate). *)
Theorem game_over_gating (st : AppState) :
  isGameOver (game st) = true ->
  (forall square, onSquareClick square st = st)
  /\ (forall c rnd, triggerAiMove st c rnd = st)
  /\ (isCheckmate (game st) = true ->
      forall md, makeMove md st = (st, false))
  /\ (legal_moves (game st) = [] ->
      (forall from_sq to_sq promo,
          makeMove (MoveObject from_sq to_sq promo) st = (st, false))
      /\ (forall notation,
             makeMove (MoveString notation) st = (st, false)
             \/ exists g' m,
                  engine_result (position st) (MoveString notation) = Some (g', m)
                  /\ san m = SAN_NULLMOVE
                  /\ isCheck (game st) = false)).
Proof.
  intros H. split; [|split; [|split]].
  - intros sq. unfold onSquareClick. now rewrite H.
  - intros c rnd. unfold triggerAiMove, aiBegin. now rewrite H.
  - intros Hmate md. unfold makeMove.
    destruct (makeMoveFrom_cases (game st) md st) as [[_ Hr]|(g' & m & Hr & _)];
      [exact Hr|].
    now rewrite (engine_result_checkmate _ md Hmate) in Hr.
  - intros Hnil. split.
    + intros f t promo. unfold makeMove.
      destruct (makeMoveFrom_cases (game st) (MoveObject f t promo) st)
        as [[_ Hr]|(g' & m & Hr & _)]; [exact Hr|].
      apply engine_result_object in Hr. rewrite Hnil in Hr. destruct Hr.
    + intros notation. unfold makeMove, position.
      destruct (makeMoveFrom_cases (game st) (MoveString notation) st)
        as [[_ Hr]|(g' & m & Hr & _)]; [now left|].
      right. exists g', m.
      destruct (engine_result_no_moves _ _ _ _ Hnil Hr) as (Hc & Hs & _).
      now repeat split.
Qed.

(** C5. In a Position that is not terminal, when the advisor suggests a
    non-empty move string the engine refuses, the orchestration ends with
    the fallback notice as analysis text and the thinking flag down.  The
    draw [rnd] of [Math.random()] is a double below one.  If the engine has
    legal moves, the move at the index the code computes from the draw is
    played: the index is inside the list of the [n] legal moves, it is [k]
    for every draw between [k / n] and [(k + 1) / n] less one part in 2^53
    (each move gets an interval of draws of the same length, to that
    precision), and the new game is the engine's result for a legal move of
    the current Position.  If it has none, the game, the ledgers and the
    selection are untouched. *)
Theorem ai_fallback (st : AppState) (r : AIMoveResponse) (rnd : Q) :
  isGameOver (game st) = false -> isAiThinking st = false ->
  move r <> EmptyString ->
  engine_result (position st) (MoveString (move r)) = None ->
  is_double rnd = true -> (rnd < 1)%Q ->
  let st' := triggerAiMove st (Fulfilled r) rnd in
  let n := List.length (moves (game st)) in
  aiAnalysis st' = Some "AI suggested an illegal move. Fallback logic triggered."
  /\ isAiThinking st' = false
  /\ (legal_moves (game st) <> [] ->
      random_index rnd n < n
      /\ (forall k : nat,
             (Z.of_nat n <= 2 ^ 53)%Z ->
             (inject_Z (Z.of_nat k) <= rnd * inject_Z (Z.of_nat n))%Q ->
             (rnd * inject_Z (Z.of_nat n) <= inject_Z (Z.of_nat k + 1) * below_one)%Q ->
             random_index rnd n = k)
      /\ exists notation g' m,
           nth_error (moves (game st)) (random_index rnd n) = Some notation
           /\ engine_result (position st) (MoveString notation) = Some (g', m)
           /\ In m (legal_moves (game st))
           /\ game st' = g'
           /\ selectedSquare st' = None /\ validMoves st' = [])
  /\ (legal_moves (game st) = [] ->
      game st' = game st
      /\ capturedByWhite st' = capturedByWhite st
      /\ capturedByBlack st' = capturedByBlack st
      /\ selectedSquare st' = selectedSquare st
      /\ validMoves st' = validMoves st).
Proof.
  intros Hg Ht Hm Hrej Hd Hr1 st' n. subst st' n.
  unfold triggerAiMove, aiBegin, aiSettle. rewrite Hg, Ht. cbn [orb].
  assert (Htr : truthy (Some (move r)) = true).
  { cbn. destruct (String.eqb_spec (move r) EmptyString); [contradiction|reflexivity]. }
  rewrite Htr.
  set (st2 := setAiAnalysis (Some (explanation r))
                (setAiAnalysis (Some ANALYZING) (setIsAiThinking true st))).
  unfold position in *. unfold aiTimeout.
  destruct (makeMoveFrom_cases (game st) (MoveString (move r)) st2)
    as [[_ ->]|(g' & m & Hx & _)]; [|congruence].
  set (st3 := setAiAnalysis (Some FALLBACK_NOTICE) st2).
  destruct (legal_moves (game st)) as [|m0 ms] eqn:Hl.
  - unfold moves. rewrite Hl. cbn. repeat split; congruence.
  - assert (Hlen : 0 < List.length (moves (game st)))
      by (unfold moves; rewrite Hl; cbn; lia).
    pose proof (random_index_lt rnd _ Hd Hr1 Hlen) as Hidx.
    destruct (nth_error (moves (game st))
                (random_index rnd (List.length (moves (game st)))))
      as [notation|] eqn:Hn; [|now apply nth_error_None in Hn; lia].
    pose proof Hlen as Hlen'. apply Nat.ltb_lt in Hlen'. rewrite Hlen'.
    destruct (engine_result_san (game st) notation (nth_error_In _ _ Hn))
      as (g' & m & Hres & Hin).
    destruct (makeMoveFrom_cases (game st) (MoveString notation) st3)
      as [[Hx _]|(g2 & m2 & Hx & ->)]; [congruence|].
    rewrite Hres in Hx. injection Hx as <- <-.
    rewrite Hl in Hin.
    destruct (handleCapture_game m (setGame g' st3)) as (Hga & _ & _ & Hth & Han).
    cbn [fst setIsAiThinking setValidMoves setSelectedSquare aiAnalysis
         isAiThinking game selectedSquare validMoves].
    rewrite Han, Hga.
    split; [reflexivity|]. split; [reflexivity|].
    split; [|discriminate].
    intros _. split; [exact Hidx|]. split.
    + intros k Hk Hlo Hhi. now apply random_index_between.
    + exists notation, g', m. now repeat split.
Qed.

End ControllerFacts.

(** ** The advisor *)

(** C2, as stated, fails: a JSON object without [explanation] is a
    malformed payload, and [getBestMove] returns it as it is instead of the
    sentinel. *)
Lemma getBestMove_returns_unchecked_json :
  malformed payload_without_explanation
  /\ getBestMove (ServiceResponse (Some payload_without_explanation))
     = Fulfilled (Json.Object [("move", Json.Str "e4")])
  /\ getBestMove (ServiceResponse (Some payload_without_explanation))
     <> Fulfilled sentinel.
Proof.
  split; [reflexivity|]. split; [reflexivity|].
  intros H. vm_compute in H. discriminate H.
Qed.

(** C2, as the code has it. Given a response text, [getBestMove] never
    rejects.  For a text that is not JSON it resolves to the sentinel, whose
    [move] is the empty string and whose [explanation] is a non-empty
    apology; a text that is JSON is returned as parsed, whatever its
    shape. *)
Theorem getBestMove_soft_failure (text : string) :
  getBestMove (ServiceResponse (Some text)) <> Rejected
  /\ match Json.parse (Json.trim text) with
     | None => getBestMove (ServiceResponse (Some text)) = Fulfilled sentinel
     | Some v => getBestMove (ServiceResponse (Some text)) = Fulfilled v
     end
  /\ as_AIMoveResponse sentinel = Some (mkAIMoveResponse EmptyString apology)
  /\ apology <> EmptyString.
Proof.
  unfold getBestMove.
  destruct (Json.parse (Json.trim text)); repeat split; discriminate.
Qed.

Lemma getBestMove_failure :
  getBestMove ServiceFailure = Rejected
  /\ getBestMove (ServiceResponse None) = Rejected.
Proof. now split. Qed.

(** For a text that is not JSON the orchestration receives a response with
    an empty move. *)
Lemma getBestMove_not_json_typed (text : string) :
  Json.parse (Json.trim text) = None ->
  typed (getBestMove (ServiceResponse (Some text)))
  = Some (Fulfilled (mkAIMoveResponse EmptyString apology)).
Proof. unfold getBestMove. now intros ->. Qed.

(** ** Runs on the reference engine *)

Module Runs.

#[local] Existing Instance Ref.engine.

Definition State : Type := @AppState Ref.engine.

(** The state with the game built from [fen] and everything else empty. *)
Definition state_of_fen (fen : string) : State :=
  mkAppState (match Ref.load fen with Some g => g | None => Ref.new_game end)
             None [] false None [] [].

Definition after_e4 : State := fst (makeMove (MoveString "e4") initialState).

Definition after_e4_e5 : State := fst (makeMove (MoveString "e5") after_e4).

(** White to move can capture on d5. *)
Definition before_exd5 : State :=
  state_of_fen "rnbqkbnr/ppp1pppp/8/3p4/4P3/8/PPPP1PPP/RNBQKBNR w KQkq - 0 2".

(** Black has just mated with the queen on h4. *)
Definition mated : State :=
  state_of_fen "rnb1kbnr/pppp1ppp/8/4p3/6Pq/5P2/PPPPP2P/RNBQKBNR w KQkq - 1 3".

(** King against king: a draw by insufficient material. *)
Definition bare_kings : State :=
  state_of_fen "8/8/8/4k3/8/8/8/4K3 w - - 0 1".

(** C1, on the code. After 1. e4 (and after 1. e4 e5) [undoMove] leaves the
    Position where it is instead of taking it back to the position before
    the last move; the game it stores has an empty history because it was
    rebuilt from the FEN, and the analysis text is cleared. *)
Theorem undoMove_does_not_restore :
  snd (makeMove (MoveString "e4") initialState) = true
  /\ position after_e4 = "rnbqkbnr/pppppppp/8/8/4P3/8/PPPP1PPP/RNBQKBNR b KQkq - 0 1"
  /\ history (game after_e4) = ["e4"]
  /\ position (undoMove after_e4) = position after_e4
  /\ position (undoMove after_e4) <> position initialState
  /\ history (game (undoMove after_e4)) = []
  /\ aiAnalysis (undoMove after_e4) = None
  /\ snd (makeMove (MoveString "e5") after_e4) = true
  /\ history (game after_e4_e5) = ["e5"]
  /\ position (undoMove after_e4_e5) = position after_e4_e5
  /\ position (undoMove after_e4_e5) <> position after_e4.
Proof.
  repeat split; try (vm_compute; reflexivity);
    intros H; vm_compute in H; discriminate H.
Qed.

(** C4, as stated, fails: with only the two kings left the game is over,
    yet [makeMove] applies Kd2 and the Position changes. *)
Lemma makeMove_in_drawn_position :
  isGameOver (game bare_kings) = true
  /\ isDraw (game bare_kings) = true
  /\ snd (makeMove (MoveString "Kd2") bare_kings) = true
  /\ position bare_kings = "8/8/8/4k3/8/8/8/4K3 w - - 0 1"
  /\ position (fst (makeMove (MoveString "Kd2") bare_kings))
     = "8/8/8/4k3/8/8/3K4/8 b - - 1 1".
Proof. repeat split; vm_compute; reflexivity. Qed.

(** The advisor's answer is the null move. *)
Definition pass_suggested : State :=
  triggerAiMove initialState (Fulfilled (mkAIMoveResponse "--" "pass")) (1 # 2).

(** C5, as stated, fails: in the starting position the string [--] matches
    none of the twenty legal moves, yet the engine accepts it as the null
    move.  No fallback takes place: the analysis text is the advisor's
    explanation, no legal move is played, and the Position stored, with
    Black to move on the untouched board, is none of the Positions a legal
    move leads to. *)
Lemma null_suggestion_played :
  isGameOver (game initialState) = false
  /\ List.length (legal_moves (game initialState)) = 20
  /\ existsb (String.eqb "--") (moves (game initialState)) = false
  /\ existsb (fun m => String.eqb (from m) "a8" || String.eqb (to m) "a8")
             (legal_moves (game initialState)) = false
  /\ option_map (fun gm => (from (snd gm), to (snd gm), san (snd gm)))
                (engine_result (position initialState) (MoveString "--"))
     = Some ("a8", "a8", "--")
  /\ aiAnalysis pass_suggested = Some "pass"
  /\ isAiThinking pass_suggested = false
  /\ position pass_suggested
     = "rnbqkbnr/pppppppp/8/8/8/8/PPPPPPPP/RNBQKBNR b KQkq - 1 1"
  /\ existsb (fun notation =>
                String.eqb (position (fst (makeMove (MoveString notation) initialState)))
                           (position pass_suggested))
             (moves (game initialState)) = false.
Proof. repeat split; vm_compute; reflexivity. Qed.



(** *** The statements at concrete inputs *)


Lemma capture_bookkeeping_witness :
  capturedByWhite (fst (makeMove (MoveString "exd5") before_exd5))
  = [mkPiece Pawn Black]
  /\ capturedByBlack (fst (makeMove (MoveString "exd5") before_exd5)) = [].
Proof.
  destruct (engine_result (position before_exd5) (MoveString "exd5"))
    as [[g' m]|] eqn:H; [|vm_compute in H; discriminate H].
  assert (Hm : captured m = Some Pawn /\ color m = White).
  { vm_compute in H. injection H as _ <-. split; reflexivity. }
  destruct Hm as [Hcap Hcol].
  pose proof (capture_bookkeeping before_exd5 (MoveString "exd5") g' m H) as Hb.
  cbv zeta in Hb. destruct Hb as (_ & _ & Hc).
  rewrite Hcap, Hcol in Hc. exact Hc.
Defined.

Lemma ai_failure_surfaced_witness :
  aiAnalysis (triggerAiMove initialState Rejected (1 # 2))
  = Some "Error communicating with AI."
  /\ isAiThinking (triggerAiMove initialState Rejected (1 # 2)) = false.
Proof.
  destruct (ai_failure_surfaced initialState (1 # 2)) as (Ha & Ht & _);
    [vm_compute; reflexivity|reflexivity|].
  split; [exact Ha|exact Ht].
Defined.

Lemma ai_empty_move_witness :
  triggerAiMove initialState (Fulfilled (mkAIMoveResponse EmptyString apology)) (1 # 2)
  = mkAppState (game initialState) None [] false
               (Some "AI couldn't find a move.") [] [].
Proof.
  apply (ai_empty_move initialState (mkAIMoveResponse EmptyString apology) (1 # 2));
    [vm_compute; reflexivity|reflexivity|reflexivity].
Defined.

Lemma game_over_gating_witness :
  isGameOver (game mated) = true
  /\ onSquareClick "e2" mated = mated
  /\ triggerAiMove mated (Fulfilled (mkAIMoveResponse "Kf2" "flee")) (1 # 2) = mated
  /\ makeMove (MoveString "Kf2") mated = (mated, false).
Proof.
  assert (H : isGameOver (game mated) = true) by (vm_compute; reflexivity).
  destruct (game_over_gating mated H) as (Hc & Ha & Hm & _).
  split; [exact H|]. split; [apply Hc|]. split; [apply Ha|].
  apply Hm. vm_compute; reflexivity.
Defined.

Lemma ai_fallback_witness :
  aiAnalysis (triggerAiMove initialState (Fulfilled (mkAIMoveResponse "Zz9" "bad")) (1 # 2))
  = Some "AI suggested an illegal move. Fallback logic triggered."
  /\ isAiThinking (triggerAiMove initialState (Fulfilled (mkAIMoveResponse "Zz9" "bad")) (1 # 2))
     = false
  /\ random_index (1 # 2) (List.length (moves (game initialState))) = 10.
Proof.
  destruct (ai_fallback initialState (mkAIMoveResponse "Zz9" "bad") (1 # 2))
    as (Ha & Ht & Hl & _);
    [vm_compute; reflexivity|reflexivity|discriminate|vm_compute; reflexivity
    |reflexivity|reflexivity|].
  destruct Hl as (_ & Hk & _); [vm_compute; discriminate|].
  split; [exact Ha|]. split; [exact Ht|].
  apply Hk; vm_compute; discriminate.
Defined.

(** The Zz9 scenario, run: with the draw 1/2 the eleventh of the twenty
    legal first moves, f3, is played. *)
Lemma fallback_run :
  moves (game initialState)
  = ["a3"; "a4"; "b3"; "b4"; "c3"; "c4"; "d3"; "d4"; "e3"; "e4"; "f3"; "f4";
     "g3"; "g4"; "h3"; "h4"; "Na3"; "Nc3"; "Nf3"; "Nh3"]
  /\ random_index (1 # 2) 20 = 10
  /\ position (triggerAiMove initialState (Fulfilled (mkAIMoveResponse "Zz9" "bad")) (1 # 2))
     = "rnbqkbnr/pppppppp/8/8/8/5P2/PPPPP1PP/RNBQKBNR b KQkq - 0 1".
Proof. repeat split; vm_compute; reflexivity. Qed.

(** The e4 scenario, run. *)
Lemma suggestion_run :
  let st := triggerAiMove initialState
              (Fulfilled (mkAIMoveResponse "e4" "central control")) (1 # 2) in
  position st = "rnbqkbnr/pppppppp/8/8/4P3/8/PPPP1PPP/RNBQKBNR b KQkq - 0 1"
  /\ aiAnalysis st = Some "central control"
  /\ isAiThinking st = false.
Proof. repeat split; vm_compute; reflexivity. Qed.

End Runs.

(** ** Further properties of the controller *)

Section ControllerMore.

Context {E : RulesEngine}.

Lemma makeMoveFrom_flags (game0 : Chess) (md : MoveData) (st : AppState) :
  isAiThinking (fst (makeMoveFrom game0 md st)) = isAiThinking st
  /\ aiAnalysis (fst (makeMoveFrom game0 md st)) = aiAnalysis st.
Proof.
  destruct (makeMoveFrom_cases game0 md st) as [[_ ->]|(g' & m & _ & ->)];
    [now split|].
  destruct (handleCapture_game m (setGame g' st)) as (_ & _ & _ & Ht & Ha).
  cbn. now rewrite Ht, Ha.
Qed.

(** What an accepted move leaves in the state. *)
Lemma makeMoveFrom_accepted (game0 : Chess) (md : MoveData) (st : AppState)
  (g' : Chess) (m : Move) :
  engine_result (fen game0) md = Some (g', m) ->
  makeMoveFrom game0 md st
  = (setValidMoves [] (setSelectedSquare None (handleCapture m (setGame g' st))), true)
  /\ game (fst (makeMoveFrom game0 md st)) = g'
  /\ selectedSquare (fst (makeMoveFrom game0 md st)) = None
  /\ validMoves (fst (makeMoveFrom game0 md st)) = [].
Proof.
  intros H.
  destruct (makeMoveFrom_cases game0 md st) as [[Hr _]|(g2 & m2 & Hr & ->)];
    [congruence|].
  rewrite H in Hr. injection Hr as <- <-.
  destruct (handleCapture_game m (setGame g' st)) as (Hg & _).
  cbn. now rewrite Hg.
Qed.

Lemma undoMove_frame (st : AppState) :
  legal_moves (game (undoMove st)) = legal_moves (game st)
  /\ validMoves (undoMove st) = validMoves st
  /\ isAiThinking (undoMove st) = isAiThinking st
  /\ capturedByWhite (undoMove st) = capturedByWhite st
  /\ capturedByBlack (undoMove st) = capturedByBlack st.
Proof.
  unfold undoMove.
  destruct (load_fen (game st)) as (c & -> & _ & Hh & _ & _ & Hl).
  cbn. rewrite (undo_nothing c Hh). now repeat split.
Qed.

(** *** The destination list follows the selection *)

Lemma destinations_ok_cleared (st : AppState) :
  selectedSquare st = None -> validMoves st = [] -> destinations_ok st.
Proof. unfold destinations_ok. now intros -> ->. Qed.

Lemma destinations_ok_frame (st st' : AppState) :
  game st' = game st -> selectedSquare st' = selectedSquare st ->
  validMoves st' = validMoves st ->
  destinations_ok st -> destinations_ok st'.
Proof. unfold destinations_ok. now intros -> -> ->. Qed.

Lemma makeMoveFrom_destinations (game0 : Chess) (md : MoveData) (st : AppState) :
  destinations_ok st -> destinations_ok (fst (makeMoveFrom game0 md st)).
Proof.
  intros H.
  destruct (makeMoveFrom_cases game0 md st) as [[_ ->]|(g' & m & _ & ->)];
    [exact H|].
  now apply destinations_ok_cleared.
Qed.

Lemma selectPiece_destinations (square : string) (st : AppState) :
  destinations_ok (selectPiece square st).
Proof.
  unfold selectPiece.
  destruct (get (game st) square) as [p|];
    [destruct (color_eqb (pcolor p) (turn (game st)))|];
    try now apply destinations_ok_cleared.
  reflexivity.
Qed.

Lemma onSquareClick_destinations (square : string) (st : AppState) :
  destinations_ok st -> destinations_ok (onSquareClick square st).
Proof.
  intros H. unfold onSquareClick.
  destruct (isGameOver (game st) || isAiThinking st); [exact H|].
  destruct (selectedSquare st) as [sel|] eqn:Hs; [|apply selectPiece_destinations].
  destruct (truthy (Some sel)); [|apply selectPiece_destinations].
  destruct (String.eqb sel square); [now apply destinations_ok_cleared|].
  unfold makeMove.
  destruct (makeMoveFrom_cases (game st) (MoveObject sel square (Some "q")) st)
    as [[_ ->]|(g' & m & _ & ->)].
  - apply selectPiece_destinations.
  - now apply destinations_ok_cleared.
Qed.

Lemma undoMove_destinations (st : AppState) :
  destinations_ok st -> destinations_ok (undoMove st).
Proof.
  unfold destinations_ok, moves_of_square.
  destruct (undoMove_position st) as (_ & _ & _ & _ & _ & ->).
  destruct (undoMove_frame st) as (-> & -> & _).
  trivial.
Qed.

Lemma aiTimeout_destinations (game0 : Chess) (r : AIMoveResponse) (rnd : Q)
  (st : AppState) :
  destinations_ok st -> destinations_ok (aiTimeout game0 r rnd st).
Proof.
  intros H. unfold aiTimeout.
  pose proof (makeMoveFrom_destinations game0 (MoveString (move r)) st H) as H1.
  destruct (makeMoveFrom game0 (MoveString (move r)) st) as [st1 moved].
  cbn [fst] in H1.
  assert (H2 : destinations_ok (setAiAnalysis (Some FALLBACK_NOTICE) st1))
    by now apply destinations_ok_frame with (st := st1).
  match goal with
  | |- destinations_ok (setIsAiThinking false ?x) =>
      apply destinations_ok_frame with (st := x); [reflexivity ..|]
  end.
  destruct moved; [exact H1|].
  destruct (0 <? List.length (moves game0)); [|exact H2].
  destruct (nth_error _ _); [|exact H2].
  now apply makeMoveFrom_destinations.
Qed.

Lemma step_destinations (s : Session) (e : Event) :
  destinations_ok (app s) -> destinations_ok (app (step s e)).
Proof.
  intros H. destruct e as [sq| | |md| |c|rnd]; cbn [step app].
  - now apply onSquareClick_destinations.
  - now apply destinations_ok_cleared.
  - now apply undoMove_destinations.
  - now apply makeMoveFrom_destinations.
  - unfold aiBegin.
    destruct (isGameOver (game (app s)) || isAiThinking (app s)); [exact H|].
    cbn [app]. now apply destinations_ok_frame with (st := app s).
  - destruct (pending s) as [|game0|game0 r]; try exact H.
    unfold aiSettle. destruct c as [|r]; [|destruct (truthy (Some (move r)))];
      cbn [app]; now apply destinations_ok_frame with (st := app s).
  - destruct (pending s) as [|game0|game0 r]; try exact H.
    cbn [app]. now apply aiTimeout_destinations.
Qed.

Lemma run_invariant (P : Session -> Prop) :
  (forall s e, P s -> P (step s e)) ->
  forall events s, P s -> P (run events s).
Proof.
  intros Hstep events. induction events as [|e r IH]; intros s H; [exact H|].
  cbn [run fold_left]. apply IH. now apply Hstep.
Qed.

(** X1. In every state the session reaches, the destination list is empty when
    nothing is selected and otherwise holds the destinations of the legal
    moves from the selected square, in the engine's order. *)
Theorem destinations_invariant (events : list Event) :
  destinations_ok (app (run events initialSession)).
Proof.
  apply (run_invariant (fun s => destinations_ok (app s))).
  - apply step_destinations.
  - reflexivity.
Qed.

(** *** The history the stored game keeps *)

Definition short_history (st : AppState) : Prop :=
  List.length (history (game st)) <= 1.

Lemma makeMoveFrom_history (game0 : Chess) (md : MoveData) (st : AppState) :
  short_history st -> short_history (fst (makeMoveFrom game0 md st)).
Proof.
  intros H. unfold short_history.
  destruct (makeMoveFrom_cases game0 md st) as [[_ ->]|(g' & m & Hr & ->)];
    [exact H|].
  destruct (handleCapture_game m (setGame g' st)) as (Hg & _).
  destruct (engine_result_recorded _ _ _ _ Hr) as (_ & Hh).
  cbn. rewrite Hg. cbn. now rewrite Hh.
Qed.

Lemma aiTimeout_game (game0 : Chess) (r : AIMoveResponse) (rnd : Q) (st : AppState) :
  game (aiTimeout game0 r rnd st) = game st
  \/ exists md, game (aiTimeout game0 r rnd st) = game (fst (makeMoveFrom game0 md st)).
Proof.
  unfold aiTimeout.
  destruct (makeMoveFrom_cases game0 (MoveString (move r)) st)
    as [[_ ->]|(g' & m & _ & Hm)].
  - destruct (0 <? List.length (moves game0)); [|now left].
    destruct (nth_error _ _) as [notation|]; [|now left].
    right. exists (MoveString notation).
    destruct (makeMoveFrom_cases game0 (MoveString notation)
                (setAiAnalysis (Some FALLBACK_NOTICE) st))
      as [[Hr ->]|(g' & m & Hr & ->)];
      destruct (makeMoveFrom_cases game0 (MoveString notation) st)
        as [[Hr' ->]|(g2 & m2 & Hr' & ->)]; try congruence; try reflexivity.
    rewrite Hr in Hr'. injection Hr' as <- <-.
    cbn.
    destruct (handleCapture_game m (setGame g' (setAiAnalysis (Some FALLBACK_NOTICE) st)))
      as (-> & _).
    destruct (handleCapture_game m (setGame g' st)) as (-> & _).
    reflexivity.
  - right. exists (MoveString (move r)). now rewrite Hm.
Qed.

Lemma step_history (s : Session) (e : Event) :
  short_history (app s) -> short_history (app (step s e)).
Proof.
  intros H. destruct e as [sq| | |md| |c|rnd]; cbn [step app].
  - unfold onSquareClick.
    destruct (isGameOver (game (app s)) || isAiThinking (app s)); [exact H|].
    assert (Hsel : forall q, short_history (selectPiece q (app s))).
    { intros q. unfold selectPiece.
      destruct (get (game (app s)) q) as [p|];
        [destruct (color_eqb (pcolor p) (turn (game (app s))))|]; exact H. }
    destruct (selectedSquare (app s)) as [sel|]; [|apply Hsel].
    destruct (truthy (Some sel)); [|apply Hsel].
    destruct (String.eqb sel sq); [exact H|].
    pose proof (makeMoveFrom_history (game (app s)) (MoveObject sel sq (Some "q"))
                  (app s) H) as Hm.
    unfold makeMove.
    destruct (makeMoveFrom (game (app s)) (MoveObject sel sq (Some "q")) (app s))
      as [st' [|]]; [exact Hm|apply Hsel].
  - unfold short_history. cbn. rewrite new_history. cbn. lia.
  - unfold short_history.
    destruct (undoMove_position (app s)) as (_ & -> & _). cbn. lia.
  - now apply makeMoveFrom_history.
  - unfold aiBegin.
    destruct (isGameOver (game (app s)) || isAiThinking (app s)); exact H.
  - destruct (pending s) as [|game0|game0 r]; try exact H.
    unfold aiSettle. destruct c as [|r]; [|destruct (truthy (Some (move r)))];
      exact H.
  - destruct (pending s) as [|game0|game0 r]; try exact H.
    cbn [app]. unfold short_history.
    destruct (aiTimeout_game game0 r rnd (app s)) as [->|(md & ->)]; [exact H|].
    now apply makeMoveFrom_history.
Qed.

(** X2. In every state the session reaches, the history of the stored game has
    at most one entry: each accepted move is made on a game rebuilt from the
    FEN, which starts with an empty history. *)
Theorem history_at_most_one (events : list Event) :
  List.length (history (game (app (run events initialSession)))) <= 1.
Proof.
  apply (run_invariant (fun s => short_history (app s))).
  - apply step_history.
  - unfold short_history. cbn. rewrite new_history. cbn. lia.
Qed.

(** *** The thinking flag *)

Lemma onSquareClick_flags (square : string) (st : AppState) :
  isAiThinking (onSquareClick square st) = isAiThinking st
  /\ aiAnalysis (onSquareClick square st) = aiAnalysis st.
Proof.
  unfold onSquareClick.
  destruct (isGameOver (game st) || isAiThinking st); [now split|].
  assert (Hsel : forall q, isAiThinking (selectPiece q st) = isAiThinking st
                           /\ aiAnalysis (selectPiece q st) = aiAnalysis st).
  { intros q. unfold selectPiece.
    destruct (get (game st) q) as [p|];
      [destruct (color_eqb (pcolor p) (turn (game st)))|]; now split. }
  destruct (selectedSquare st) as [sel|]; [|apply Hsel].
  destruct (truthy (Some sel)); [|apply Hsel].
  destruct (String.eqb sel square); [now split|].
  pose proof (makeMoveFrom_flags (game st) (MoveObject sel square (Some "q")) st) as Hm.
  unfold makeMove.
  destruct (makeMoveFrom (game st) (MoveObject sel square (Some "q")) st)
    as [st' [|]]; [exact Hm|apply Hsel].
Qed.

Lemma aiTimeout_thinking (game0 : Chess) (r : AIMoveResponse) (rnd : Q)
  (st : AppState) :
  isAiThinking (aiTimeout game0 r rnd st) = false.
Proof.
  unfold aiTimeout.
  now destruct (makeMoveFrom game0 (MoveString (move r)) st).
Qed.

Lemma step_thinking (s : Session) (e : Event) :
  (isAiThinking (app s) = true -> pending s <> Idle) ->
  isAiThinking (app (step s e)) = true -> pending (step s e) <> Idle.
Proof.
  intros H. destruct e as [sq| | |md| |c|rnd]; cbn [step].
  - cbn [app pending]. now rewrite (proj1 (onSquareClick_flags sq (app s))).
  - exact H.
  - cbn [app pending].
    now rewrite (proj1 (proj2 (proj2 (undoMove_frame (app s))))).
  - cbn [app pending]. unfold makeMove.
    now rewrite (proj1 (makeMoveFrom_flags (game (app s)) md (app s))).
  - unfold aiBegin.
    destruct (isGameOver (game (app s)) || isAiThinking (app s));
      [exact H|cbn; congruence].
  - destruct (pending s) as [|game0|game0 r] eqn:Hp;
      [rewrite Hp; exact H| |rewrite Hp; exact H].
    unfold aiSettle. destruct c as [|r]; [cbn; congruence|].
    destruct (truthy (Some (move r))); cbn; congruence.
  - destruct (pending s) as [|game0|game0 r] eqn:Hp;
      [rewrite Hp; exact H|rewrite Hp; exact H|].
    cbn [app pending]. rewrite aiTimeout_thinking. discriminate.
Qed.

(** X3. In every state the session reaches, the thinking flag is up exactly
    while a request to the advisor or its timer is outstanding; in
    particular New Game and Undo neither raise nor clear it. *)
Theorem thinking_iff_pending (events : list Event) :
  isAiThinking (app (run events initialSession)) = true
  <-> pending (run events initialSession) <> Idle.
Proof.
  split.
  - apply (run_invariant
             (fun s => isAiThinking (app s) = true -> pending s <> Idle)).
    + apply step_thinking.
    + cbn. discriminate.
  - apply run_pending. now intros [].
Qed.

(** *** The ledgers *)

(** What one call of [handleCapture] adds: nothing, or one piece of the
    other colour on the mover's ledger. *)
Lemma handleCapture_ledgers (m : Move) (st : AppState) :
  exists lw lb,
    capturedByWhite (handleCapture m st) = capturedByWhite st ++ lw
    /\ capturedByBlack (handleCapture m st) = capturedByBlack st ++ lb
    /\ List.length lw + List.length lb <= 1
    /\ Forall (fun p => pcolor p = Black) lw
    /\ Forall (fun p => pcolor p = White) lb.
Proof.
  unfold handleCapture. destruct (captured m) as [t|].
  - destruct (color m); cbn.
    + exists [mkPiece t Black], []. rewrite app_nil_r.
      repeat split; auto.
    + exists [], [mkPiece t White]. rewrite app_nil_r.
      repeat split; auto.
  - exists [], []. rewrite !app_nil_r. repeat split; auto.
Qed.

Lemma makeMoveFrom_ledgers (game0 : Chess) (md : MoveData) (st : AppState) :
  exists lw lb,
    capturedByWhite (fst (makeMoveFrom game0 md st)) = capturedByWhite st ++ lw
    /\ capturedByBlack (fst (makeMoveFrom game0 md st)) = capturedByBlack st ++ lb
    /\ List.length lw + List.length lb <= 1
    /\ Forall (fun p => pcolor p = Black) lw
    /\ Forall (fun p => pcolor p = White) lb.
Proof.
  destruct (makeMoveFrom_cases game0 md st) as [[_ ->]|(g' & m & _ & ->)].
  - exists [], []. rewrite !app_nil_r. repeat split; auto.
  - exact (handleCapture_ledgers m (setGame g' st)).
Qed.

Lemma aiTimeout_ledgers (game0 : Chess) (r : AIMoveResponse) (rnd : Q)
  (st : AppState) :
  exists lw lb,
    capturedByWhite (aiTimeout game0 r rnd st) = capturedByWhite st ++ lw
    /\ capturedByBlack (aiTimeout game0 r rnd st) = capturedByBlack st ++ lb
    /\ List.length lw + List.length lb <= 1
    /\ Forall (fun p => pcolor p = Black) lw
    /\ Forall (fun p => pcolor p = White) lb.
Proof.
  unfold aiTimeout.
  destruct (makeMoveFrom_cases game0 (MoveString (move r)) st)
    as [[_ ->]|(g' & m & _ & Hm)].
  - destruct (0 <? List.length (moves game0));
      [|exists [], []; cbn; rewrite !app_nil_r; repeat split; auto].
    destruct (nth_error _ _) as [notation|];
      [|exists [], []; cbn; rewrite !app_nil_r; repeat split; auto].
    exact (makeMoveFrom_ledgers game0 (MoveString notation)
             (setAiAnalysis (Some FALLBACK_NOTICE) st)).
  - pose proof (makeMoveFrom_ledgers game0 (MoveString (move r)) st) as H.
    rewrite Hm in *. exact H.
Qed.

Lemma step_ledgers (s : Session) (e : Event) :
  e <> NewGame ->
  exists lw lb,
    capturedByWhite (app (step s e)) = capturedByWhite (app s) ++ lw
    /\ capturedByBlack (app (step s e)) = capturedByBlack (app s) ++ lb
    /\ List.length lw + List.length lb <= 1
    /\ Forall (fun p => pcolor p = Black) lw
    /\ Forall (fun p => pcolor p = White) lb.
Proof.
  assert (Hsame : forall st : AppState,
             capturedByWhite st = capturedByWhite (app s) ->
             capturedByBlack st = capturedByBlack (app s) ->
             exists lw lb,
               capturedByWhite st = capturedByWhite (app s) ++ lw
               /\ capturedByBlack st = capturedByBlack (app s) ++ lb
               /\ List.length lw + List.length lb <= 1
               /\ Forall (fun p => pcolor p = Black) lw
               /\ Forall (fun p => pcolor p = White) lb).
  { intros st -> ->. exists [], []. rewrite !app_nil_r. repeat split; auto. }
  intros Hne. destruct e as [sq| | |md| |c|rnd]; cbn [step app].
  - unfold onSquareClick.
    destruct (isGameOver (game (app s)) || isAiThinking (app s));
      [now apply Hsame|].
    assert (Hsel : forall q, exists lw lb,
               capturedByWhite (selectPiece q (app s)) = capturedByWhite (app s) ++ lw
               /\ capturedByBlack (selectPiece q (app s)) = capturedByBlack (app s) ++ lb
               /\ List.length lw + List.length lb <= 1
               /\ Forall (fun p => pcolor p = Black) lw
               /\ Forall (fun p => pcolor p = White) lb).
    { intros q. apply Hsame; unfold selectPiece;
        (destruct (get (game (app s)) q) as [p|];
         [destruct (color_eqb (pcolor p) (turn (game (app s))))|]); reflexivity. }
    destruct (selectedSquare (app s)) as [sel|]; [|apply Hsel].
    destruct (truthy (Some sel)); [|apply Hsel].
    destruct (String.eqb sel sq); [now apply Hsame|].
    pose proof (makeMoveFrom_ledgers (game (app s)) (MoveObject sel sq (Some "q")) (app s))
      as Hm.
    unfold makeMove.
    destruct (makeMoveFrom (game (app s)) (MoveObject sel sq (Some "q")) (app s))
      as [st' [|]]; [exact Hm|apply Hsel].
  - congruence.
  - destruct (undoMove_frame (app s)) as (_ & _ & _ & Hw & Hb). now apply Hsame.
  - apply makeMoveFrom_ledgers.
  - unfold aiBegin.
    destruct (isGameOver (game (app s)) || isAiThinking (app s));
      now apply Hsame.
  - destruct (pending s) as [|game0|game0 r]; try now apply Hsame.
    unfold aiSettle. destruct c as [|r]; [|destruct (truthy (Some (move r)))];
      now apply Hsame.
  - destruct (pending s) as [|game0|game0 r]; try now apply Hsame.
    cbn [app]. apply aiTimeout_ledgers.
Qed.

(** X4. Apart from New Game, no event removes or reorders a ledger entry: each
    ledger keeps its entries and the two together gain at most one. *)
Theorem ledgers_only_grow (s : Session) (e : Event) :
  e <> NewGame ->
  exists lw lb,
    capturedByWhite (app (step s e)) = capturedByWhite (app s) ++ lw
    /\ capturedByBlack (app (step s e)) = capturedByBlack (app s) ++ lb
    /\ List.length lw + List.length lb <= 1.
Proof.
  intros H. destruct (step_ledgers s e H) as (lw & lb & Hw & Hb & Hl & _).
  now exists lw, lb.
Qed.

(** X5. In every state the session reaches, the pieces on White's ledger are
    black and the pieces on Black's ledger are white. *)
Theorem ledger_colours (events : list Event) :
  ledgers_ok (app (run events initialSession)).
Proof.
  apply (run_invariant (fun s => ledgers_ok (app s))).
  - intros s e [Hw Hb]. unfold ledgers_ok.
    destruct e as [sq| | |md| |c|rnd];
      try (edestruct (step_ledgers s) as (lw & lb & -> & -> & _ & Hlw & Hlb);
           [discriminate|split; apply Forall_app; now split]).
    cbn. split; constructor.
  - split; constructor.
Qed.

(** *** The operations one by one *)

(** X6. A move the engine accepts in the current Position is committed: the
    stored game is the engine's result, the move is one of the side to
    move, the history of the stored game is that one move (so the Undo
    button is enabled), the selection and the destination list are cleared,
    the thinking flag and the analysis text are untouched.  The move is a
    legal move of the current Position when it was given as an object; a
    string can also be the null move [--], which the engine plays when the
    side to move is not in check. *)
Theorem makeMove_accepted (st : AppState) (md : MoveData) (g' : Chess) (m : Move) :
  engine_result (position st) md = Some (g', m) ->
  let st' := fst (makeMove md st) in
  snd (makeMove md st) = true
  /\ game st' = g'
  /\ color m = turn (game st)
  /\ (In m (legal_moves (game st))
      \/ (isCheck (game st) = false /\ san m = SAN_NULLMOVE
          /\ exists notation, md = MoveString notation))
  /\ history (game st') = [san m]
  /\ undoDisabled st' = false
  /\ selectedSquare st' = None /\ validMoves st' = []
  /\ isAiThinking st' = isAiThinking st /\ aiAnalysis st' = aiAnalysis st.
Proof.
  intros H st'. subst st'. unfold makeMove, position in *.
  destruct (makeMoveFrom_accepted (game st) md st g' m H) as (Hm & Hg & Hs & Hv).
  destruct (engine_result_recorded _ _ _ _ H) as (Hc & Hh).
  pose proof (engine_result_legal _ _ _ _ H) as Hin.
  destruct (makeMoveFrom_flags (game st) md st) as (Ht & Ha).
  unfold undoDisabled. rewrite Hg, Hh. rewrite Hm in *.
  cbn [snd List.length Nat.eqb]. now repeat split.
Qed.

(** X7. A click never touches the thinking flag or the analysis text, and it
    changes the game only by a move the engine accepted from the selected
    square to the clicked one; otherwise game and ledgers stay. *)
Theorem onSquareClick_frame (square : string) (st : AppState) :
  let st' := onSquareClick square st in
  isAiThinking st' = isAiThinking st
  /\ aiAnalysis st' = aiAnalysis st
  /\ ((game st' = game st
       /\ capturedByWhite st' = capturedByWhite st
       /\ capturedByBlack st' = capturedByBlack st)
      \/ exists sel g' m,
           selectedSquare st = Some sel
           /\ engine_result (position st) (MoveObject sel square (Some "q")) = Some (g', m)
           /\ In m (legal_moves (game st))
           /\ game st' = g').
Proof.
  intros st'. subst st'.
  destruct (onSquareClick_flags square st) as (Ht & Ha).
  split; [exact Ht|]. split; [exact Ha|].
  unfold onSquareClick.
  destruct (isGameOver (game st) || isAiThinking st); [now left|].
  assert (Hsel : forall q, game (selectPiece q st) = game st
                           /\ capturedByWhite (selectPiece q st) = capturedByWhite st
                           /\ capturedByBlack (selectPiece q st) = capturedByBlack st).
  { intros q. unfold selectPiece.
    destruct (get (game st) q) as [p|];
      [destruct (color_eqb (pcolor p) (turn (game st)))|]; now repeat split. }
  destruct (selectedSquare st) as [sel|]; [|left; apply Hsel].
  destruct (truthy (Some sel)); [|left; apply Hsel].
  destruct (String.eqb sel square); [now left|].
  unfold makeMove.
  destruct (makeMoveFrom_cases (game st) (MoveObject sel square (Some "q")) st)
    as [[_ ->]|(g' & m & Hr & Hm)]; [left; apply Hsel|].
  right. exists sel, g', m.
  pose proof (engine_result_object _ _ _ _ _ _ Hr) as Hin.
  destruct (makeMoveFrom_accepted _ _ st _ _ Hr) as (_ & Hg & _).
  rewrite Hm in *. now repeat split.
Qed.

(** X8. With nothing selected, a click on a piece of the side to move selects
    its square, keeps the game, and marks as destinations exactly the
    squares some legal move from that square goes to. *)
Theorem onSquareClick_selects (square : string) (st : AppState) (p : Piece) :
  isGameOver (game st) = false -> isAiThinking st = false ->
  selectedSquare st = None ->
  get (game st) square = Some p -> pcolor p = turn (game st) ->
  let st' := onSquareClick square st in
  selectedSquare st' = Some square
  /\ game st' = game st
  /\ forall d, isValidMove st' d = true
               <-> exists m, In m (legal_moves (game st))
                             /\ from m = square /\ to m = d.
Proof.
  intros Hg Ht Hs Hp Hc st'. subst st'.
  unfold onSquareClick, selectPiece. rewrite Hg, Ht, Hs, Hp, Hc.
  assert (Hrefl : color_eqb (turn (game st)) (turn (game st)) = true)
    by now destruct (turn (game st)).
  rewrite Hrefl. cbn [orb selectedSquare game setValidMoves setSelectedSquare].
  split; [reflexivity|]. split; [reflexivity|].
  intros d. unfold isValidMove, moves_of_square. cbn [validMoves].
  rewrite existsb_exists. split.
  - intros (x & Hin & Hx). apply String.eqb_eq in Hx. subst x.
    apply in_map_iff in Hin as (m & Hto & Hin).
    apply filter_In in Hin as (Hin & Hf). apply String.eqb_eq in Hf.
    now exists m.
  - intros (m & Hin & Hf & Hto). exists d. split; [|apply String.eqb_refl].
    apply in_map_iff. exists m. split; [exact Hto|].
    apply filter_In. split; [exact Hin|]. now apply String.eqb_eq.
Qed.

(** X9. Selecting a square and clicking it again gives back the state there was
    before the two clicks. *)
Theorem onSquareClick_twice (square : string) (st : AppState) (p : Piece) :
  isGameOver (game st) = false -> isAiThinking st = false ->
  selectedSquare st = None -> validMoves st = [] ->
  get (game st) square = Some p -> pcolor p = turn (game st) ->
  square <> EmptyString ->
  onSquareClick square (onSquareClick square st) = st.
Proof.
  intros Hg Ht Hs Hv Hp Hc Hne.
  assert (Hrefl : color_eqb (turn (game st)) (turn (game st)) = true)
    by now destruct (turn (game st)).
  assert (H1 : onSquareClick square st
               = setValidMoves (map to (moves_of_square (game st) square))
                   (setSelectedSquare (Some square) st)).
  { unfold onSquareClick, selectPiece. now rewrite Hg, Ht, Hs, Hp, Hc, Hrefl. }
  rewrite H1. unfold onSquareClick.
  cbn [game isAiThinking selectedSquare setValidMoves setSelectedSquare].
  rewrite Hg, Ht. cbn [orb truthy].
  destruct (String.eqb_spec square EmptyString) as [|_]; [contradiction|].
  cbn [negb]. rewrite String.eqb_refl.
  destruct st as [g sel vm th an cw cb]. cbn in *. now subst.
Qed.

(** X10. A suggestion the engine accepts is applied whatever the random draw:
    the stored game is the engine's result, the analysis text is the
    advisor's explanation, the thinking flag is down and the selection is
    cleared.  The move played is a legal move of the current Position, or
    the null move when the suggestion reads [--] and the side to move is
    not in check: then the turn passes. *)
Theorem ai_suggestion_applied (st : AppState) (r : AIMoveResponse) (rnd : Q)
  (g' : Chess) (m : Move) :
  isGameOver (game st) = false -> isAiThinking st = false ->
  move r <> EmptyString ->
  engine_result (position st) (MoveString (move r)) = Some (g', m) ->
  let st' := triggerAiMove st (Fulfilled r) rnd in
  game st' = g'
  /\ color m = turn (game st)
  /\ (In m (legal_moves (game st))
      \/ (isCheck (game st) = false /\ san m = SAN_NULLMOVE))
  /\ aiAnalysis st' = Some (explanation r)
  /\ isAiThinking st' = false
  /\ selectedSquare st' = None /\ validMoves st' = [].
Proof.
  intros Hg Ht Hm Hres st'. subst st'.
  unfold triggerAiMove, aiBegin, aiSettle. rewrite Hg, Ht. cbn [orb].
  assert (Htr : truthy (Some (move r)) = true).
  { cbn. destruct (String.eqb_spec (move r) EmptyString); [contradiction|reflexivity]. }
  rewrite Htr. unfold position in *. unfold aiTimeout.
  set (st2 := setAiAnalysis (Some (explanation r))
                (setAiAnalysis (Some ANALYZING) (setIsAiThinking true st))).
  destruct (makeMoveFrom_accepted (game st) _ st2 g' m Hres) as (Hmk & Hga & Hs & Hv).
  destruct (makeMoveFrom_flags (game st) (MoveString (move r)) st2) as (_ & Ha).
  destruct (engine_result_recorded _ _ _ _ Hres) as (Hc & _).
  assert (Hin : In m (legal_moves (game st))
                \/ (isCheck (game st) = false /\ san m = SAN_NULLMOVE)).
  { destruct (engine_result_legal _ _ _ _ Hres) as [Hin|(Hk & Hnull & _)];
      [now left|now right]. }
  destruct (makeMoveFrom (game st) (MoveString (move r)) st2) as [st1 moved].
  cbn [fst] in *. injection Hmk as _ ->.
  cbn. rewrite Ha, Hga, Hs, Hv. now repeat split.
Qed.

(** X11. The AI Move button is disabled exactly when [triggerAiMove] would
    return at its guard; then the call changes nothing, and while the
    advisor is thinking a click changes nothing either. *)
Theorem ai_button_matches_guard (st : AppState) :
  (aiMoveDisabled st = true <-> aiBegin st = None)
  /\ (aiMoveDisabled st = true -> forall c rnd, triggerAiMove st c rnd = st)
  /\ (isAiThinking st = true -> forall square, onSquareClick square st = st).
Proof.
  unfold aiMoveDisabled, triggerAiMove, aiBegin, onSquareClick.
  destruct (isAiThinking st), (isGameOver (game st)); cbn;
    repeat split; intros; congruence.
Qed.

(** X12. With a draw that is a double below one, the index computed for the
    fallback is inside the list of legal moves: rounding the product of
    the draw and the length never reaches the length, so a move is always
    picked when there is one. *)
Theorem fallback_pick_defined (l : list string) (rnd : Q) :
  is_double rnd = true -> (rnd < 1)%Q -> l <> [] ->
  exists notation,
    nth_error l (random_index rnd (List.length l)) = Some notation
    /\ In notation l.
Proof.
  intros H0 H1 Hne.
  assert (Hlen : 0 < List.length l) by (destruct l; [congruence|cbn; lia]).
  pose proof (random_index_lt rnd _ H0 H1 Hlen) as Hidx.
  destruct (nth_error l (random_index rnd (List.length l))) as [x|] eqn:Hn.
  - exists x. split; [reflexivity|]. eapply nth_error_In, Hn.
  - apply nth_error_None in Hn. lia.
Qed.

(** X14. [undoMove] keeps the Position: the FEN, the side to move, the piece on
    every square and the legal moves are as before.  It empties the history
    of the stored game (so the Undo button is disabled), clears the analysis
    text, and keeps the selection, the destination list, the thinking flag
    and the ledgers. *)
Theorem undoMove_keeps_position (st : AppState) :
  position (undoMove st) = position st
  /\ turn (game (undoMove st)) = turn (game st)
  /\ (forall square, get (game (undoMove st)) square = get (game st) square)
  /\ legal_moves (game (undoMove st)) = legal_moves (game st)
  /\ history (game (undoMove st)) = []
  /\ undoDisabled (undoMove st) = true
  /\ aiAnalysis (undoMove st) = None
  /\ selectedSquare (undoMove st) = selectedSquare st
  /\ validMoves (undoMove st) = validMoves st
  /\ isAiThinking (undoMove st) = isAiThinking st
  /\ capturedByWhite (undoMove st) = capturedByWhite st
  /\ capturedByBlack (undoMove st) = capturedByBlack st.
Proof.
  destruct (undoMove_position st) as (Hp & Hh & Ha & Ht & Hg & Hs).
  destruct (undoMove_frame st) as (Hl & Hv & Hth & Hw & Hb).
  unfold undoDisabled. rewrite Hh. now repeat split.
Qed.

(** X15. A timer scheduled by the orchestration applies the suggestion to the
    game of the moment AI Move was pressed: when New Game is pressed before
    the timer fires, the stored game afterwards is the engine's result on
    that earlier game, not on the new one. *)
Theorem timer_survives_new_game (s : Session) (game0 : Chess) (r : AIMoveResponse)
  (rnd : Q) (g' : Chess) (m : Move) :
  pending s = Scheduled game0 r ->
  engine_result (fen game0) (MoveString (move r)) = Some (g', m) ->
  let s' := run [NewGame; TimerFired rnd] s in
  game (app s') = g'
  /\ history (game (app s')) = [san m]
  /\ pending s' = Idle
  /\ isAiThinking (app s') = false.
Proof.
  intros Hp Hres s'. subst s'. cbn [run fold_left step pending app]. rewrite Hp.
  cbn [app pending]. unfold aiTimeout.
  destruct (makeMoveFrom_accepted game0 _ (resetGame (app s)) g' m Hres)
    as (Hmk & Hg & _).
  destruct (engine_result_recorded _ _ _ _ Hres) as (_ & Hh).
  destruct (makeMoveFrom game0 (MoveString (move r)) (resetGame (app s)))
    as [st1 moved].
  cbn [fst] in *. injection Hmk as _ ->.
  cbn. rewrite Hg, Hh. now repeat split.
Qed.

(** *** The advisor and the orchestration together *)

(** X16. A reply whose text is not JSON ends the orchestration with the no-move
    notice: the apology of the advisor's sentinel is not what is shown, and
    nothing but the analysis text and the thinking flag changes. *)
Theorem advise_not_json (text : string) (st : AppState) (rnd : Q) :
  Json.parse (Json.trim text) = None ->
  isGameOver (game st) = false -> isAiThinking st = false ->
  advise (ServiceResponse (Some text)) st rnd
  = Some (mkAppState (game st) (selectedSquare st) (validMoves st) false
                     (Some "AI couldn't find a move.")
                     (capturedByWhite st) (capturedByBlack st)).
Proof.
  intros Hp Hg Ht. unfold advise, getBestMove. rewrite Hp. cbn.
  unfold triggerAiMove, aiBegin. now rewrite Hg, Ht.
Qed.

(** X17. A failed request, or a response without text, is not turned into the
    sentinel by the advisor: the promise is rejected and the orchestration
    ends with the error notice, the thinking flag down and everything else
    as it was. *)
Theorem advise_service_failure (reply : ServiceReply) (st : AppState) (rnd : Q) :
  reply = ServiceFailure \/ reply = ServiceResponse None ->
  isGameOver (game st) = false -> isAiThinking st = false ->
  getBestMove reply = Rejected
  /\ advise reply st rnd
     = Some (mkAppState (game st) (selectedSquare st) (validMoves st) false
                        (Some "Error communicating with AI.")
                        (capturedByWhite st) (capturedByBlack st)).
Proof.
  intros Hr Hg Ht. unfold advise.
  assert (H : getBestMove reply = Rejected) by (destruct Hr as [-> | ->]; reflexivity).
  rewrite H. split; [reflexivity|]. cbn.
  unfold triggerAiMove, aiBegin. now rewrite Hg, Ht.
Qed.

(** X21. A reply whose text is the JSON value [null] passes the advisor:
    reading its [move] throws inside the orchestration, which ends with
    the error notice, the thinking flag down and everything else as it
    was. *)
Theorem advise_null (text : string) (st : AppState) (rnd : Q) :
  Json.parse (Json.trim text) = Some Json.Null ->
  isGameOver (game st) = false -> isAiThinking st = false ->
  advise (ServiceResponse (Some text)) st rnd
  = Some (mkAppState (game st) (selectedSquare st) (validMoves st) false
                     (Some "Error communicating with AI.")
                     (capturedByWhite st) (capturedByBlack st)).
Proof.
  intros Hp Hg Ht. unfold advise, getBestMove. rewrite Hp.
  cbn [triggerAiMoveUntyped].
  unfold triggerAiMove, aiBegin. now rewrite Hg, Ht.
Qed.

(** X22. A reply that is a JSON object with a move the engine accepts and no
    explanation is played all the same: the stored game is the engine's
    result, the analysis text is cleared, the thinking flag is down and
    the selection is cleared. *)
Theorem advise_move_without_explanation (text : string)
  (fields : list (string * Json.value)) (notation : string) (st : AppState)
  (rnd : Q) (g' : Chess) (m : Move) :
  Json.parse (Json.trim text) = Some (Json.Object fields) ->
  Json.lookup "move" fields = Some (Json.Str notation) ->
  notation <> EmptyString ->
  Json.lookup "explanation" fields = None ->
  isGameOver (game st) = false -> isAiThinking st = false ->
  engine_result (position st) (MoveString notation) = Some (g', m) ->
  exists st',
    advise (ServiceResponse (Some text)) st rnd = Some st'
    /\ game st' = g'
    /\ aiAnalysis st' = None
    /\ isAiThinking st' = false
    /\ selectedSquare st' = None /\ validMoves st' = [].
Proof.
  intros Hp Hmv Hne Hex Hg Ht Hres.
  unfold advise, getBestMove. rewrite Hp.
  cbn [triggerAiMoveUntyped]. rewrite Hmv, Hex.
  assert (Htr : truthy (Some notation) = true).
  { cbn. destruct (String.eqb_spec notation EmptyString); [contradiction|reflexivity]. }
  rewrite Htr. unfold aiBegin. rewrite Hg, Ht. cbn [orb].
  eexists. split; [reflexivity|].
  unfold position in *. unfold aiTimeout. cbn [move].
  set (st2 := setAiAnalysis None
                (setAiAnalysis (Some ANALYZING) (setIsAiThinking true st))).
  destruct (makeMoveFrom_accepted (game st) _ st2 g' m Hres) as (Hmk & Hga & Hs & Hv).
  destruct (makeMoveFrom_flags (game st) (MoveString notation) st2) as (_ & Ha).
  destruct (makeMoveFrom (game st) (MoveString notation) st2) as [st1 moved].
  cbn [fst] in *. injection Hmk as _ ->.
  cbn. rewrite Ha, Hga, Hs, Hv. now repeat split.
Qed.

(** *** The status line *)

(** X18. The status line names a winner exactly when the engine reports
    checkmate, and the winner is the side that is not to move; it reads
    Draw! or Check! only without checkmate, and names the side to move only
    when the engine reports none of checkmate, draw and check. *)
Theorem getStatusMessage_cases (st : AppState) :
  (getStatusMessage st = "Checkmate! White wins!"
   <-> isCheckmate (game st) = true /\ turn (game st) = Black)
  /\ (getStatusMessage st = "Checkmate! Black wins!"
      <-> isCheckmate (game st) = true /\ turn (game st) = White)
  /\ (getStatusMessage st = "Draw!"
      <-> isCheckmate (game st) = false /\ isDraw (game st) = true)
  /\ (getStatusMessage st = "Check!"
      <-> isCheckmate (game st) = false /\ isDraw (game st) = false
          /\ isCheck (game st) = true)
  /\ (getStatusMessage st = "White's turn" \/ getStatusMessage st = "Black's turn"
      <-> isCheckmate (game st) = false /\ isDraw (game st) = false
          /\ isCheck (game st) = false).
Proof.
  unfold getStatusMessage.
  destruct (isCheckmate (game st)), (isDraw (game st)), (isCheck (game st)),
    (turn (game st)); cbn;
    repeat split; intros; try discriminate; try tauto;
    repeat match goal with
           | H : _ /\ _ |- _ => destruct H
           | H : _ \/ _ |- _ => destruct H
           end; try discriminate; auto.
Qed.

End ControllerMore.

(** ** The prompt and the piece icons *)

(** X19. The prompt carries the last ten moves of the history, in order, and the
    whole history when it has at most ten. *)
Theorem slice_last10_suffix (history : list string) :
  (exists older, history = older ++ slice_last10 history)
  /\ List.length (slice_last10 history) = Nat.min 10 (List.length history)
  /\ (List.length history <= 10 -> slice_last10 history = history).
Proof.
  unfold slice_last10. split; [|split].
  - exists (firstn (List.length history - 10) history).
    now rewrite firstn_skipn.
  - rewrite length_skipn. lia.
  - intros H. replace (List.length history - 10) with 0 by lia. reflexivity.
Qed.

(** X20. Two pieces are drawn with the same pair of class attributes only when
    they are the same piece; the icon depends on the type alone and the
    colour shows in the theme classes alone. *)
Theorem pieceClasses_injective (t1 t2 : PieceType) (c1 c2 : PieceColor) :
  (pieceClasses t1 c1 = pieceClasses t2 c2 -> t1 = t2 /\ c1 = c2)
  /\ getIconClass t1 White = getIconClass t1 Black
  /\ getIconClass t1 c1 <> EmptyString.
Proof.
  split; [|split].
  - destruct t1, t2, c1, c2; intros H; try (split; reflexivity);
      vm_compute in H; discriminate H.
  - reflexivity.
  - destruct t1; discriminate.
Qed.

(** ** Further runs on the reference engine *)

Module MoreRuns.

#[local] Existing Instance Ref.engine.

(** The session in which, after 1. e4, AI Move was pressed and the advisor
    answered e5: the timer is scheduled. *)
Definition timer_scheduled : Session :=
  run [Apply (MoveString "e4"); AiMove;
       AiSettled (Fulfilled (mkAIMoveResponse "e5" "symmetry"))]
      initialSession.

(** What the engine makes of e5 after 1. e4. *)
Definition reply_e5 : option (Chess * Move) :=
  engine_result (fen (game Runs.after_e4)) (MoveString "e5").

(** White is about to capture on d5. *)
Definition capture_pending : Session := mkSession Runs.before_exd5 Idle.

Lemma makeMove_accepted_witness :
  exists g' m,
    engine_result (position initialState) (MoveString "Nf3") = Some (g', m)
    /\ game (fst (makeMove (MoveString "Nf3") initialState)) = g'
    /\ history (game (fst (makeMove (MoveString "Nf3") initialState))) = [san m].
Proof.
  destruct (engine_result (position initialState) (MoveString "Nf3"))
    as [[g' m]|] eqn:H; [|vm_compute in H; discriminate H].
  exists g', m. split; [reflexivity|].
  pose proof (makeMove_accepted initialState (MoveString "Nf3") g' m H) as Hm.
  cbv zeta in Hm. destruct Hm as (_ & Hg & _ & _ & Hh & _).
  split; [exact Hg|exact Hh].
Defined.

Lemma onSquareClick_selects_witness :
  selectedSquare (onSquareClick "e2" initialState) = Some "e2"
  /\ game (onSquareClick "e2" initialState) = game initialState.
Proof.
  pose proof (onSquareClick_selects "e2" initialState (mkPiece Pawn White)) as H.
  cbv zeta in H.
  destruct H as (Hs & Hg & _);
    [vm_compute; reflexivity|reflexivity|reflexivity
    |vm_compute; reflexivity|reflexivity|].
  split; [exact Hs|exact Hg].
Defined.

Lemma onSquareClick_twice_witness :
  onSquareClick "e2" (onSquareClick "e2" initialState) = initialState.
Proof.
  apply (onSquareClick_twice "e2" initialState (mkPiece Pawn White));
    [vm_compute; reflexivity|reflexivity|reflexivity|reflexivity
    |vm_compute; reflexivity|reflexivity|discriminate].
Defined.

Lemma ai_suggestion_applied_witness :
  exists g' m,
    engine_result (position initialState) (MoveString "e4") = Some (g', m)
    /\ game (triggerAiMove initialState
               (Fulfilled (mkAIMoveResponse "e4" "central control")) (1 # 2)) = g'
    /\ aiAnalysis (triggerAiMove initialState
                     (Fulfilled (mkAIMoveResponse "e4" "central control")) (1 # 2))
       = Some "central control".
Proof.
  destruct (engine_result (position initialState) (MoveString "e4"))
    as [[g' m]|] eqn:H; [|vm_compute in H; discriminate H].
  exists g', m. split; [reflexivity|].
  pose proof (ai_suggestion_applied initialState
                (mkAIMoveResponse "e4" "central control") (1 # 2) g' m) as Hm.
  cbv zeta in Hm.
  destruct Hm as (Hg & _ & _ & Ha & _);
    [vm_compute; reflexivity|reflexivity|discriminate|exact H|].
  split; [exact Hg|exact Ha].
Defined.

(** The double nearest to 0.95, and the double nearest to one third. *)
Definition draw_095 : Q := 8556839292003942 # 9007199254740992.
Definition draw_third : Q := 6004799503160661 # 18014398509481984.

Lemma fallback_pick_defined_witness :
  exists notation,
    nth_error ["a3"; "a4"; "b3"] (random_index draw_third 3) = Some notation
    /\ In notation ["a3"; "a4"; "b3"].
Proof.
  apply (fallback_pick_defined ["a3"; "a4"; "b3"] draw_third);
    [reflexivity|reflexivity|discriminate].
Defined.

(** With the draw 0.95 and twenty moves the product is rounded to 19: the
    index is 19, one more than the integer part of the exact product. *)
Lemma random_index_spec_witness :
  random_index draw_095 20 = 19
  /\ Qfloor (draw_095 * inject_Z (Z.of_nat 20)) = 18%Z
  /\ (inject_Z (Z.of_nat 19) * below_one <= draw_095 * inject_Z (Z.of_nat 20))%Q
  /\ (draw_095 * inject_Z (Z.of_nat 20) < inject_Z (Z.of_nat 19 + 1))%Q.
Proof.
  pose proof (random_index_spec draw_095 20 19) as H. cbv zeta in H.
  destruct H as (_ & H & _); [reflexivity|reflexivity|reflexivity|].
  split; [reflexivity|]. split; [reflexivity|].
  apply H. reflexivity.
Defined.

(** The same draws, run: rounding the product moves the index up. *)
Lemma random_index_rounds :
  random_index draw_095 20 = 19
  /\ random_index draw_third 3 = 1
  /\ random_index (1 # 2) 20 = 10
  /\ random_index 0 20 = 0.
Proof. repeat split; reflexivity. Qed.

Lemma timer_survives_new_game_witness :
  match reply_e5 with
  | Some (g', _) =>
      game (app (run [NewGame; TimerFired (1 # 2)] timer_scheduled)) = g'
  | None => False
  end.
Proof.
  destruct reply_e5 as [[g' m]|] eqn:H; [|vm_compute in H; discriminate H].
  unfold reply_e5 in H.
  pose proof (timer_survives_new_game timer_scheduled (game Runs.after_e4)
                (mkAIMoveResponse "e5" "symmetry") (1 # 2) g' m) as Hm.
  cbv zeta in Hm.
  destruct Hm as (Hg & _); [reflexivity|exact H|].
  exact Hg.
Defined.

(** The same run, read off: New Game was pressed, yet the board shows
    1. e4 e5. *)
Lemma timer_after_new_game_run :
  position (app (run [NewGame] timer_scheduled)) = DEFAULT_POSITION
  /\ position (app (run [NewGame; TimerFired (1 # 2)] timer_scheduled))
     = "rnbqkbnr/pppp1ppp/8/4p3/4P3/8/PPPP1PPP/RNBQKBNR w KQkq - 0 2".
Proof. split; vm_compute; reflexivity. Qed.

Lemma advise_not_json_witness :
  advise (ServiceResponse (Some "I'm sorry, I cannot help.")) initialState (1 # 2)
  = Some (mkAppState (game initialState) None [] false
                     (Some "AI couldn't find a move.") [] []).
Proof.
  apply (advise_not_json "I'm sorry, I cannot help." initialState (1 # 2));
    [vm_compute; reflexivity|vm_compute; reflexivity|reflexivity].
Defined.

Lemma advise_service_failure_witness :
  getBestMove ServiceFailure = Rejected
  /\ advise ServiceFailure initialState (1 # 2)
     = Some (mkAppState (game initialState) None [] false
                        (Some "Error communicating with AI.") [] []).
Proof.
  apply (advise_service_failure ServiceFailure initialState (1 # 2));
    [left; reflexivity|vm_compute; reflexivity|reflexivity].
Defined.

Lemma advise_null_witness :
  advise (ServiceResponse (Some "null")) initialState (1 # 2)
  = Some (mkAppState (game initialState) None [] false
                     (Some "Error communicating with AI.") [] []).
Proof.
  apply (advise_null "null" initialState (1 # 2));
    [vm_compute; reflexivity|vm_compute; reflexivity|reflexivity].
Defined.

Lemma advise_move_without_explanation_witness :
  exists st',
    advise (ServiceResponse (Some payload_without_explanation)) initialState (1 # 2)
    = Some st'
    /\ position st' = "rnbqkbnr/pppppppp/8/8/4P3/8/PPPP1PPP/RNBQKBNR b KQkq - 0 1"
    /\ aiAnalysis st' = None.
Proof.
  destruct (engine_result (position initialState) (MoveString "e4"))
    as [[g' m]|] eqn:H; [|vm_compute in H; discriminate H].
  destruct (advise_move_without_explanation payload_without_explanation
              [("move", Json.Str "e4")] "e4" initialState (1 # 2) g' m)
    as (st' & Ha & Hg & Hn & _);
    [vm_compute; reflexivity|reflexivity|discriminate|reflexivity
    |vm_compute; reflexivity|reflexivity|exact H|].
  exists st'. split; [exact Ha|]. split; [|exact Hn].
  unfold position. rewrite Hg.
  vm_compute in H. injection H as <- _. vm_compute. reflexivity.
Defined.

Lemma ledgers_only_grow_witness :
  exists lw lb,
    capturedByWhite (app (step capture_pending (Apply (MoveString "exd5"))))
    = capturedByWhite (app capture_pending) ++ lw
    /\ capturedByBlack (app (step capture_pending (Apply (MoveString "exd5"))))
       = capturedByBlack (app capture_pending) ++ lb
    /\ List.length lw + List.length lb <= 1.
Proof.
  apply (ledgers_only_grow capture_pending (Apply (MoveString "exd5"))).
  discriminate.
Defined.

End MoreRuns.
